(** * VM translator (Nand2Tetris chapters 7 and 8): embedding of vmtranslator.py

    The Python program reads VM text, classifies every line, and emits Hack
    assembly text.  The code generators are embedded as functions that build
    the very same lists of text lines; the emitted text is then given a
    meaning by a model of the Hack assembler and CPU, so that statements
    about "executing the emitted code" are statements about running the
    text the generators produce. *)

From Stdlib Require Import ZArith List String Ascii Bool Lia.
From Stdlib Require Import DecimalString DecimalZ DecimalN DecimalPos DecimalFacts.
Import ListNotations.
Local Open Scope string_scope.
Local Open Scope Z_scope.

(* ================================================================== *)
(** ** Python built-ins used by the program *)

Module Py.

(** The tab character of the Python literal backslash-t. *)
Definition tab : ascii := "009"%char.

(** [str(n)] for a Python int. *)
Definition str (z : Z) : string := NilEmpty.string_of_int (Z.to_int z).

Definition is_digit (c : ascii) : bool :=
  let n := N_of_ascii c in (48 <=? n)%N && (n <=? 57)%N.

Fixpoint all_digits (s : string) : bool :=
  match s with
  | EmptyString => true
  | String c r => is_digit c && all_digits r
  end.

(** [s.isdigit()] on ASCII text: non-empty and only decimal digits. *)
Definition isdigit (s : string) : bool :=
  match s with
  | EmptyString => false
  | _ => all_digits s
  end.

(** Value of a run of decimal digits. *)
Definition digits_value (s : string) : option Z :=
  match NilEmpty.uint_of_string s with
  | Some d => Some (Z.of_N (N.of_uint d))
  | None => None
  end.

(** Python allows single underscores between the digits of a literal. *)
Fixpoint drop_underscores (s : string) (after_digit : bool) : option string :=
  match s with
  | EmptyString => if after_digit then Some EmptyString else None
  | String c r =>
      if is_digit c then
        match drop_underscores r true with
        | Some r' => Some (String c r')
        | None => None
        end
      else if Ascii.eqb c "_" then
        if after_digit then drop_underscores r false else None
      else None
  end.

Definition unsigned_literal (s : string) : option Z :=
  match drop_underscores s false with
  | Some d => digits_value d
  | None => None
  end.

(** [int(s)] on a word without surrounding blanks: [None] stands for
    the [ValueError] Python raises. *)
Definition int (s : string) : option Z :=
  match s with
  | String "-" r => option_map Z.opp (unsigned_literal r)
  | String "+" r => unsigned_literal r
  | _ => unsigned_literal s
  end.

(** [int(s)] where the program has already checked [s.isdigit()]. *)
Definition int_of_digits (s : string) : Z :=
  match digits_value s with
  | Some v => v
  | None => 0
  end.

(** Characters [str.strip()] and [str.split()] treat as blank (ASCII). *)
Definition is_space (c : ascii) : bool :=
  let n := N_of_ascii c in
  ((9 <=? n)%N && (n <=? 13)%N) || ((28 <=? n)%N && (n <=? 32)%N).

Fixpoint lstrip (s : string) : string :=
  match s with
  | EmptyString => EmptyString
  | String c r => if is_space c then lstrip r else s
  end.

(** Drops trailing blanks: a suffix made of blanks only becomes empty. *)
Fixpoint rstrip (s : string) : string :=
  match s with
  | EmptyString => EmptyString
  | String c r =>
      match rstrip r with
      | EmptyString => if is_space c then EmptyString else String c EmptyString
      | r' => String c r'
      end
  end.

Definition strip (s : string) : string := rstrip (lstrip s).

(** [s.find("//")]: the text before the first double slash, if any. *)
Fixpoint before_comment (s : string) : string :=
  match s with
  | EmptyString => EmptyString
  | String c r =>
      match r with
      | String c' _ =>
          if Ascii.eqb c "/" && Ascii.eqb c' "/" then EmptyString
          else String c (before_comment r)
      | EmptyString => String c EmptyString
      end
  end.

(** [s.split()]: maximal runs of non-blank characters.  [cur] is the
    word being read, [started] tells whether it has a character yet. *)
Fixpoint split_from (s : string) (cur : string) (started : bool) : list string :=
  match s with
  | EmptyString => if started then [cur] else []
  | String c r =>
      if is_space c then
        (if started then [cur] else []) ++ split_from r EmptyString false
      else split_from r (cur ++ String c EmptyString) true
  end.

Definition split (s : string) : list string := split_from s EmptyString false.

End Py.

(* ================================================================== *)
(** ** Enumerations of the program *)

Module CommandType.
Inductive t :=
| Arithmetic | Comparison | Push | Pop | Label | Goto | IfGoto
| Function | Return | Call | Invalid.

Definition eqb (a b : t) : bool :=
  match a, b with
  | Arithmetic, Arithmetic | Comparison, Comparison | Push, Push | Pop, Pop
  | Label, Label | Goto, Goto | IfGoto, IfGoto | Function, Function
  | Return, Return | Call, Call | Invalid, Invalid => true
  | _, _ => false
  end.
End CommandType.

Module ArithmeticType.
Inductive t := Add | Sub | Neg | And | Or | Not.

Definition name (a : t) : string :=
  match a with
  | Add => "Add" | Sub => "Sub" | Neg => "Neg"
  | And => "And" | Or => "Or" | Not => "Not"
  end.
End ArithmeticType.

Module ComparisonType.
Inductive t := EQ | GT | LT.

Definition name (c : t) : string :=
  match c with EQ => "EQ" | GT => "GT" | LT => "LT" end.
End ComparisonType.

Module MemorySegment.
Inductive t :=
| LCL | ARG | THIS | THAT | Static | Constant | Pointer | Temp | Invalid.

Definition value (s : t) : Z :=
  match s with
  | LCL => 1 | ARG => 2 | THIS => 3 | THAT => 4 | Static => 5
  | Constant => 6 | Pointer => 7 | Temp => 8 | Invalid => 9
  end.

Definition name (s : t) : string :=
  match s with
  | LCL => "LCL" | ARG => "ARG" | THIS => "THIS" | THAT => "THAT"
  | Static => "Static" | Constant => "Constant" | Pointer => "Pointer"
  | Temp => "Temp" | Invalid => "Invalid"
  end.

Definition eqb (a b : t) : bool := Z.eqb (value a) (value b).
End MemorySegment.

(** The four lookup dictionaries. *)

Definition InitializeCommandTypeDictionary (w : string) : option CommandType.t :=
  if String.eqb w "add" then Some CommandType.Arithmetic
  else if String.eqb w "sub" then Some CommandType.Arithmetic
  else if String.eqb w "neg" then Some CommandType.Arithmetic
  else if String.eqb w "eq" then Some CommandType.Comparison
  else if String.eqb w "gt" then Some CommandType.Comparison
  else if String.eqb w "lt" then Some CommandType.Comparison
  else if String.eqb w "and" then Some CommandType.Arithmetic
  else if String.eqb w "or" then Some CommandType.Arithmetic
  else if String.eqb w "not" then Some CommandType.Arithmetic
  else if String.eqb w "push" then Some CommandType.Push
  else if String.eqb w "pop" then Some CommandType.Pop
  else if String.eqb w "label" then Some CommandType.Label
  else if String.eqb w "goto" then Some CommandType.Goto
  else if String.eqb w "if-goto" then Some CommandType.IfGoto
  else if String.eqb w "function" then Some CommandType.Function
  else if String.eqb w "call" then Some CommandType.Call
  else if String.eqb w "return" then Some CommandType.Return
  else None.

Definition InitializeArithmeticTypeDictionary (w : string) : option ArithmeticType.t :=
  if String.eqb w "add" then Some ArithmeticType.Add
  else if String.eqb w "sub" then Some ArithmeticType.Sub
  else if String.eqb w "neg" then Some ArithmeticType.Neg
  else if String.eqb w "and" then Some ArithmeticType.And
  else if String.eqb w "or" then Some ArithmeticType.Or
  else if String.eqb w "not" then Some ArithmeticType.Not
  else None.

Definition InitializeComparisonTypeDictionary (w : string) : option ComparisonType.t :=
  if String.eqb w "eq" then Some ComparisonType.EQ
  else if String.eqb w "gt" then Some ComparisonType.GT
  else if String.eqb w "lt" then Some ComparisonType.LT
  else None.

Definition InitializeMemorySegmentDictionary (w : string) : option MemorySegment.t :=
  if String.eqb w "local" then Some MemorySegment.LCL
  else if String.eqb w "argument" then Some MemorySegment.ARG
  else if String.eqb w "this" then Some MemorySegment.THIS
  else if String.eqb w "that" then Some MemorySegment.THAT
  else if String.eqb w "static" then Some MemorySegment.Static
  else if String.eqb w "constant" then Some MemorySegment.Constant
  else if String.eqb w "pointer" then Some MemorySegment.Pointer
  else if String.eqb w "temp" then Some MemorySegment.Temp
  else None.

(* ================================================================== *)
(** ** The code generators

    Every generator returns the Python list [commands] it builds, one
    element per appended line. *)

(** The two tabs that open every generated comment. *)
Definition tabs : string := String Py.tab (String Py.tab EmptyString).

(** Push the address stored in the given register on the stack. *)
Definition PushAddress (registerName : string) : list string :=
  [ "@" ++ registerName; "D=M";
    "@SP"; "M=M+1";
    "A=M-1";
    "M=D" ].

Definition GenerateFunctionCallCode
    (functionName : string) (argumentCount : Z) (returnLabel : string) : list string :=
  let comment :=
    tabs ++ "//Call function " ++ functionName ++ " with  "
         ++ Py.str argumentCount ++ " arguments" in
  [ comment;
    "@" ++ returnLabel; "D=A";
    "@SP"; "M=M+1";
    "A=M-1";
    "M=D" ]
  ++ PushAddress "LCL"
  ++ PushAddress "ARG"
  ++ PushAddress "THIS"
  ++ PushAddress "THAT"
  ++ [ "@SP"; "D=M"; "@5"; "D=D-A";
       "@" ++ Py.str argumentCount; "D=D-A"; "@ARG"; "M=D";
       "@SP"; "D=M"; "@LCL"; "M=D";
       "@" ++ functionName; "0;JMP";
       "(" ++ returnLabel ++ ")" ++ comment ].

(** Initialize the stack pointer and call Sys.init; [sysInitCall.pop()]
    removes the last line of the call, its return label. *)
Definition GenerateBootStrapCode : list string :=
  let commands := [ "@256"; "D=A"; "@SP"; "M=D" ] in
  let sysInitCall := GenerateFunctionCallCode "Sys.init" 0 "Dummy" in
  commands ++ removelast sysInitCall.

Definition GenerateArithmeticCode (aType : ArithmeticType.t) : list string :=
  let comment := tabs ++ "//Stack " ++ ArithmeticType.name aType in
  [ comment; "@SP" ]
  ++ match aType with
     | ArithmeticType.Neg => [ "A=M-1"; "M=-M" ]
     | ArithmeticType.Not => [ "A=M-1"; "M=!M" ]
     | _ =>
         [ "M=M-1"; "A=M"; "D=M"; "A=A-1" ]
         ++ match aType with
            | ArithmeticType.Add => [ "M=D+M" ]
            | ArithmeticType.Sub => [ "M=M-D" ]
            | ArithmeticType.And => [ "M=D&M" ]
            | _ => [ "M=D|M" ]
            end
     end.

(** The label a comparison jumps to when it holds. *)
Definition compareLabel (comparisonCount : Z) : string :=
  "COMPARE:" ++ Py.str comparisonCount.

Definition GenerateComparisonCode
    (cType : ComparisonType.t) (comparisonCount : Z) : list string :=
  let comment := tabs ++ "//Stack Compare " ++ ComparisonType.name cType in
  let compareLabel := compareLabel comparisonCount in
  [ comment;
    "@SP"; "M=M-1"; "A=M"; "D=M"; "A=A-1"; "D=M-D"; "M=-1";
    "@" ++ compareLabel ]
  ++ match cType with
     | ComparisonType.EQ => [ "D;JEQ" ]
     | ComparisonType.GT => [ "D;JGT" ]
     | ComparisonType.LT => [ "D;JLT" ]
     end
  ++ [ "@SP"; "A=M-1"; "M=0";
       "(" ++ compareLabel ++ ")" ].

Definition GeneratePushCode
    (sType : MemorySegment.t) (index fileName : string) : list string :=
  let comment := tabs ++ "//Push " ++ MemorySegment.name sType ++ " " ++ index in
  [ comment ]
  ++ (if MemorySegment.eqb sType MemorySegment.Constant then
        [ "@" ++ index; "D=A" ]
      else if MemorySegment.value sType <? 5 then
        [ "@" ++ index; "D=A";
          "@" ++ MemorySegment.name sType;
          "A=D+M";
          "D=M" ]
      else if MemorySegment.eqb sType MemorySegment.Pointer then
        [ "@R" ++ Py.str (Py.int_of_digits index + 3); "D=M" ]
      else if MemorySegment.eqb sType MemorySegment.Temp then
        [ "@R" ++ Py.str (Py.int_of_digits index + 5); "D=M" ]
      else if MemorySegment.eqb sType MemorySegment.Static then
        [ "@" ++ fileName ++ "." ++ index; "D=M" ]
      else [])
  ++ [ "@SP"; "M=M+1"; "A=M-1"; "M=D" ].

Definition GeneratePopCode
    (sType : MemorySegment.t) (index fileName : string) : list string :=
  let comment := tabs ++ "//Pop " ++ MemorySegment.name sType ++ " " ++ index in
  [ comment ]
  ++ (if MemorySegment.value sType <? 5 then
        [ "@" ++ index; "D=A";
          "@" ++ MemorySegment.name sType;
          "A=D+M" ]
      else if MemorySegment.eqb sType MemorySegment.Pointer then
        [ "@R" ++ Py.str (Py.int_of_digits index + 3) ]
      else if MemorySegment.eqb sType MemorySegment.Temp then
        [ "@R" ++ Py.str (Py.int_of_digits index + 5) ]
      else if MemorySegment.eqb sType MemorySegment.Static then
        [ "@" ++ fileName ++ "." ++ index ]
      else [])
  ++ [ "D=A";
       "@R13"; "M=D";
       "@SP"; "M=M-1"; "A=M"; "D=M";
       "@R13"; "A=M"; "M=D" ].

Definition GenerateFunctionDefinitionCode
    (functionName : string) (localVarCount : Z) : list string :=
  let comment :=
    tabs ++ "//Function definition, " ++ Py.str localVarCount
         ++ " local variables" in
  [ ""; "(" ++ functionName ++ ")" ++ comment;
    "@SP"; "A=M" ]
  ++ List.concat (List.repeat [ "M=0"; "A=A+1" ] (Z.to_nat localVarCount))
  ++ [ "D=A"; "@SP"; "M=D" ].

Definition GenerateReturnCode : list string :=
  let comment := tabs ++ "//Return control to calling function" in
  [ comment;
    "@5"; "D=A"; "@LCL"; "A=M-D"; "D=M"; "@R13"; "M=D";
    "@SP"; "A=M-1"; "D=M"; "@ARG"; "A=M"; "M=D";
    "@ARG"; "D=M+1"; "@SP"; "M=D";
    "@LCL"; "A=M-1"; "D=M"; "@THAT"; "M=D";
    "@2"; "D=A"; "@LCL"; "A=M-D"; "D=M"; "@THIS"; "M=D";
    "@3"; "D=A"; "@LCL"; "A=M-D"; "D=M"; "@ARG"; "M=D";
    "@4"; "D=A"; "@LCL"; "A=M-D"; "D=M"; "@LCL"; "M=D";
    "@R13"; "A=M"; "0;JMP" ].

(* ================================================================== *)
(** ** The main program: parsing *)

(** A processed line: the tuple the parser builds for a line of VM text.
    [LPush] and [LPop] carry the file name besides segment and index. *)
Inductive processedLine :=
| LArithmetic (aType : ArithmeticType.t)
| LComparison (aType : ComparisonType.t)
| LPush (segment : MemorySegment.t) (index fileName : string)
| LPop (segment : MemorySegment.t) (index fileName : string)
| LLabel (name : string)
| LGoto (name : string)
| LIfGoto (name : string)
| LFunction (name : string) (localVarCount : Z)
| LCall (name : string) (argumentCount : Z)
| LReturn
| LInvalid (lineNumber : Z).

(** What handling one source line does: nothing (blank or comment), a
    tuple appended to [processedLines] or to [errors], or an uncaught
    [ValueError] from [int(words[2])]. *)
Inductive lineResult :=
| Skipped
| Processed (p : processedLine)
| Raised.

(** The [if]/[elif] chain on the words of a non-empty line. *)
Definition classify (words : list string) (fileName : string) (lineNumber : Z)
  : lineResult :=
  let cType :=
    match words with
    | w :: _ =>
        match InitializeCommandTypeDictionary w with
        | Some c => c
        | None => CommandType.Invalid
        end
    | [] => CommandType.Invalid
    end in
  match cType, words with
  | CommandType.Arithmetic, [w] =>
      match InitializeArithmeticTypeDictionary w with
      | Some a => Processed (LArithmetic a)
      | None => Processed (LInvalid lineNumber)
      end
  | CommandType.Comparison, [w] =>
      match InitializeComparisonTypeDictionary w with
      | Some a => Processed (LComparison a)
      | None => Processed (LInvalid lineNumber)
      end
  | CommandType.Push, [_; w1; w2] =>
      match InitializeMemorySegmentDictionary w1 with
      | Some segment =>
          if negb (Py.isdigit w2) then Processed (LInvalid lineNumber)
          else Processed (LPush segment w2 fileName)
      | None => Processed (LInvalid lineNumber)
      end
  | CommandType.Pop, [_; w1; w2] =>
      match InitializeMemorySegmentDictionary w1 with
      | Some segment =>
          if negb (Py.isdigit w2) then Processed (LInvalid lineNumber)
          else Processed (LPop segment w2 fileName)
      | None => Processed (LInvalid lineNumber)
      end
  | CommandType.Label, [_; w1] => Processed (LLabel w1)
  | CommandType.Goto, [_; w1] => Processed (LGoto w1)
  | CommandType.IfGoto, [_; w1] => Processed (LIfGoto w1)
  | CommandType.Function, [_; w1; w2] =>
      match Py.int w2 with
      | Some n => Processed (LFunction w1 n)
      | None => Raised
      end
  | CommandType.Call, [_; w1; w2] =>
      match Py.int w2 with
      | Some n => Processed (LCall w1 n)
      | None => Raised
      end
  | CommandType.Return, [_] => Processed LReturn
  | _, _ => Processed (LInvalid lineNumber)
  end.

(** One iteration of [for line in lines]: strip, cut the comment, strip
    again, split into words and classify. *)
Definition parse_line (fileName : string) (lineNumber : Z) (line : string)
  : lineResult :=
  let line := Py.strip line in
  let line := Py.strip (Py.before_comment line) in
  match line with
  | EmptyString => Skipped
  | _ => classify (Py.split line) fileName lineNumber
  end.

(** State of the parsing loops. *)
Record parseState := mkParseState
  { processedLines : list processedLine;
    errors : list processedLine;
    lineNumber : Z;
    sys_init : bool }.

Definition is_sys_init_definition (p : processedLine) : bool :=
  match p with
  | LFunction name _ => String.eqb name "Sys.init"
  | _ => false
  end.

Definition is_invalid (p : processedLine) : bool :=
  match p with LInvalid _ => true | _ => false end.

(** Body of the inner loop.  [sys_init] is set when the words are
    [function Sys.init _], before [int] is applied to the third word. *)
Definition parse_step (fileName : string) (st : parseState) (line : string)
  : option parseState :=
  let n := lineNumber st + 1 in
  match parse_line fileName n line with
  | Skipped =>
      Some (mkParseState (processedLines st) (errors st) n (sys_init st))
  | Raised => None
  | Processed p =>
      if is_invalid p then
        Some (mkParseState (processedLines st) (errors st ++ [p]) n (sys_init st))
      else
        Some (mkParseState (processedLines st ++ [p]) (errors st) n
                (sys_init st || is_sys_init_definition p))
  end.

Fixpoint parse_lines (fileName : string) (st : parseState) (lines : list string)
  : option parseState :=
  match lines with
  | [] => Some st
  | l :: r =>
      match parse_step fileName st l with
      | Some st' => parse_lines fileName st' r
      | None => None
      end
  end.

(** The outer loop over the input files, each given by the name used for
    its static symbols and its lines. *)
Fixpoint parse_files (st : parseState) (files : list (string * list string))
  : option parseState :=
  match files with
  | [] => Some st
  | (fileName, lines) :: r =>
      match parse_lines fileName st lines with
      | Some st' => parse_files st' r
      | None => None
      end
  end.

Definition initialParseState : parseState := mkParseState [] [] 0 false.

(* ================================================================== *)
(** ** The main program: translation *)

(** The variables the translation loop updates. *)
Record context := mkContext
  { functionName : string;
    comparisonCount : Z;
    callCount : Z }.

(** The return label of a call, built from the callee's name and the
    call counter after it has been incremented. *)
Definition returnName (functionName : string) (callCount : Z) : string :=
  functionName ++ ".RETURN" ++ ":" ++ Py.str callCount.

(** Body of [for line in processedLines]: the new context and the list
    [translation] that is appended to [hackCommands]. *)
Definition translate_line (c : context) (line : processedLine)
  : context * list string :=
  match line with
  | LPush sType index fileName => (c, GeneratePushCode sType index fileName)
  | LPop sType index fileName => (c, GeneratePopCode sType index fileName)
  | LArithmetic aType => (c, GenerateArithmeticCode aType)
  | LComparison cType =>
      let count := comparisonCount c + 1 in
      (mkContext (functionName c) count (callCount c),
       GenerateComparisonCode cType count)
  | LLabel name =>
      (c, [ ""; "(" ++ functionName c ++ "$" ++ name ++ ")"; "" ])
  | LGoto name =>
      let comment := tabs ++ "//Goto label " ++ functionName c ++ "$" ++ name in
      (c, [ "@" ++ functionName c ++ "$" ++ name ++ comment; "0;JMP" ])
  | LIfGoto name =>
      (c, [ tabs ++ "//If-Goto label " ++ functionName c ++ "$" ++ name;
            "@SP"; "M=M-1"; "A=M"; "D=M";
            "@" ++ functionName c ++ "$" ++ name;
            "D;JNE" ])
  | LCall name argumentCount =>
      let count := callCount c + 1 in
      let returnName := returnName name count in
      (mkContext name (comparisonCount c) count,
       GenerateFunctionCallCode name argumentCount returnName)
  | LFunction name localVarCount =>
      (mkContext name (comparisonCount c) (callCount c),
       GenerateFunctionDefinitionCode name localVarCount)
  | LReturn => (c, GenerateReturnCode)
  | LInvalid _ => (c, [])
  end.

(** The loop, threading the context and extending [hackCommands]. *)
Fixpoint translate_lines (c : context) (hackCommands : list string)
    (lines : list processedLine) : context * list string :=
  match lines with
  | [] => (c, hackCommands)
  | line :: r =>
      let (c', translation) := translate_line c line in
      translate_lines c' (hackCommands ++ translation) r
  end.

Definition initialContext : context := mkContext "NONE" 0 0.

(** What a run leaves behind. *)
Inductive outcome :=
| Written (hackCommands : list string)
| NoSysInit
| InvalidCommands (errors : list processedLine)
| Crashed.

(** The program after the input files have been read. *)
Definition main (files : list (string * list string)) : outcome :=
  match parse_files initialParseState files with
  | None => Crashed
  | Some st =>
      if negb (sys_init st) then NoSysInit
      else if (0 <? Z.of_nat (List.length (errors st))) then InvalidCommands (errors st)
      else
        Written (snd (translate_lines initialContext GenerateBootStrapCode
                        (processedLines st)))
  end.

(* ================================================================== *)
(** ** The main program: paths and the error report

    Before it reads anything, the program derives the name of the output
    file from the path given on the command line; the parsing loop takes
    the name under which the static variables of a file are kept from the
    path of the file.  Whether the path exists, and which files a
    directory holds, is left to the operating system and is not part of
    the embedding. *)

Module Path.

Definition len (s : string) : Z := Z.of_nat (String.length s).

(** A slice bound as Python reads it: counted from the end when
    negative, and brought into the string. *)
Definition clamp (s : string) (i : Z) : Z :=
  let n := len s in
  if i <? 0 then Z.max (i + n) 0 else Z.min i n.

(** [s[i:j]] *)
Definition slice (s : string) (i j : Z) : string :=
  let i := clamp s i in
  let j := clamp s j in
  String.substring (Z.to_nat i) (Z.to_nat (j - i)) s.

(** [s[i:]] *)
Definition slice_from (s : string) (i : Z) : string := slice s i (len s).

(** [s[:j]] *)
Definition slice_to (s : string) (j : Z) : string := slice s 0 j.

(** The highest index at which [sub] occurs inside [start, stop), in a
    text [s] that begins at index [i]; -1 if there is none. *)
Fixpoint rfind_at (sub s : string) (i start stop : Z) : Z :=
  let here :=
    if String.prefix sub s && (start <=? i) && (i + len sub <=? stop)
    then i else -1 in
  match s with
  | EmptyString => here
  | String _ r =>
      let later := rfind_at sub r (i + 1) start stop in
      if 0 <=? later then later else here
  end.

(** [s.rfind(sub, start, stop)] *)
Definition rfind_in (s sub : string) (start stop : Z) : Z :=
  rfind_at sub s 0 (clamp s start) (clamp s stop).

(** [s.rfind(sub)] *)
Definition rfind (s sub : string) : Z := rfind_in s sub 0 (len s).

Fixpoint lstrip_slashes (s : string) : string :=
  match s with
  | EmptyString => EmptyString
  | String c r => if Ascii.eqb c "/" then lstrip_slashes r else s
  end.

Fixpoint rstrip_slashes (s : string) : string :=
  match s with
  | EmptyString => EmptyString
  | String c r =>
      match rstrip_slashes r with
      | EmptyString =>
          if Ascii.eqb c "/" then EmptyString else String c EmptyString
      | r' => String c r'
      end
  end.

(** [s.strip("/")] *)
Definition strip_slashes (s : string) : string :=
  rstrip_slashes (lstrip_slashes s).

(** The name of the output file, for an input path that exists: beside
    the file for a path that ends in [.vm], inside the directory and
    named after it otherwise. *)
Definition outputFilePath (inputPath : string) : string :=
  if String.eqb (slice_from inputPath (-3)) ".vm" then
    slice_to inputPath (-3) ++ ".asm"
  else
    let dirNameStart := rfind_in inputPath "/" 0 (len inputPath - 1) in
    let dirName := strip_slashes (slice_from inputPath dirNameStart) in
    if String.eqb (slice_from inputPath (-1)) "/" then
      inputPath ++ dirName ++ ".asm"
    else inputPath ++ "/" ++ dirName ++ ".asm".

(** The name under which the static variables of a file are kept. *)
Definition fileName (filePath : string) : string :=
  slice filePath (rfind filePath "/" + 1) (rfind filePath ".vm").

End Path.

(** [l[i]] on a Python list: a negative index counts from the end, and
    [None] stands for the [IndexError] of an index outside the list. *)
Definition list_index {T : Type} (l : list T) (i : Z) : option T :=
  let n := Z.of_nat (List.length l) in
  if i <? 0 then
    if i + n <? 0 then None else nth_error l (Z.to_nat (i + n))
  else nth_error l (Z.to_nat i).

(** The variable [lines] once the parsing loops are over: the stripped
    lines of the file read last. *)
Definition last_file_lines (files : list (string * list string)) : list string :=
  match List.rev files with
  | (_, lines) :: _ => List.map Py.strip lines
  | [] => []
  end.

(** The loop [for error in errors] of the error report: one printed line
    per error, made of its line number and of [lines[number - 1]];
    [None] when the lookup raises. *)
Fixpoint print_errors (lines : list string) (errors : list processedLine)
  : option (list string) :=
  match errors with
  | [] => Some []
  | LInvalid n :: r =>
      match list_index lines (n - 1) with
      | Some l =>
          match print_errors lines r with
          | Some out => Some (("    " ++ Py.str n ++ " " ++ l) :: out)
          | None => None
          end
      | None => None
      end
  | _ :: _ => None
  end.

(* ================================================================== *)
(** ** The Hack platform: assembly text, assembler and CPU

    The target of the translation, as defined in chapters 4 to 6 of the
    book the program implements.  Words are 16 bits wide and are kept as
    integers in [0, 65536); the data memory is addressed by the A
    register; SP, LCL, ARG, THIS, THAT and R0..R15 name the first sixteen
    memory cells. *)

Module Hack.

Definition wrap (x : Z) : Z := x mod 65536.

(** Two's complement reading of a word. *)
Definition signed (x : Z) : Z := if x <? 32768 then x else x - 65536.

(** *** Syntax *)

Inductive operand := RegA | RegM.

Inductive comp :=
| Zero | One | MinusOne
| ValD | Val (o : operand)
| NotD | NotX (o : operand)
| NegD | NegX (o : operand)
| IncD | IncX (o : operand)
| DecD | DecX (o : operand)
| DPlusX (o : operand) | DMinusX (o : operand) | XMinusD (o : operand)
| DAndX (o : operand) | DOrX (o : operand).

Record dest := mkDest { toA : bool; toD : bool; toM : bool }.

Inductive jump := JNone | JGT | JEQ | JGE | JLT | JNE | JLE | JMP.

Inductive address := Num (n : Z) | Sym (s : string).

(** A line of assembly text after comments and blanks are removed. *)
Inductive line :=
| Blank
| LabelDef (s : string)
| AInstr (a : address)
| CInstr (d : dest) (c : comp) (j : jump).

(** A machine instruction: symbols resolved, labels gone. *)
Inductive instr :=
| At (v : Z)
| Compute (d : dest) (c : comp) (j : jump).

(** *** Reading a line *)

Fixpoint remove_blanks (s : string) : string :=
  match s with
  | EmptyString => EmptyString
  | String c r =>
      if Py.is_space c then remove_blanks r else String c (remove_blanks r)
  end.

Definition is_letter (c : ascii) : bool :=
  let n := N_of_ascii c in
  ((65 <=? n)%N && (n <=? 90)%N) || ((97 <=? n)%N && (n <=? 122)%N).

(** Letters, digits, underscore, period, dollar sign and colon. *)
Definition is_symbol_char (c : ascii) : bool :=
  is_letter c || Py.is_digit c
  || Ascii.eqb c "_" || Ascii.eqb c "." || Ascii.eqb c "$" || Ascii.eqb c ":".

Fixpoint all_symbol_chars (s : string) : bool :=
  match s with
  | EmptyString => true
  | String c r => is_symbol_char c && all_symbol_chars r
  end.

(** A symbol is a non-empty run of symbol characters that does not
    begin with a digit. *)
Definition is_symbol (s : string) : bool :=
  match s with
  | EmptyString => false
  | String c _ => negb (Py.is_digit c) && all_symbol_chars s
  end.

Definition parse_address (s : string) : option address :=
  if Py.isdigit s then
    match Py.digits_value s with
    | Some v => if v <=? 32767 then Some (Num v) else None
    | None => None
    end
  else if is_symbol s then Some (Sym s)
  else None.

(** The text between the parentheses of a label line. *)
Fixpoint label_body (s : string) : option string :=
  match s with
  | EmptyString => None
  | String c r =>
      match r with
      | EmptyString => if Ascii.eqb c ")" then Some EmptyString else None
      | _ => option_map (String c) (label_body r)
      end
  end.

(** Text before and after the first occurrence of a character. *)
Fixpoint cut_at (c : ascii) (s : string) : option (string * string) :=
  match s with
  | EmptyString => None
  | String x r =>
      if Ascii.eqb x c then Some (EmptyString, r)
      else match cut_at c r with
           | Some (a, b) => Some (String x a, b)
           | None => None
           end
  end.

Definition comp_of_string (s : string) : option comp :=
  if String.eqb s "0" then Some Zero
  else if String.eqb s "1" then Some One
  else if String.eqb s "-1" then Some MinusOne
  else if String.eqb s "D" then Some ValD
  else if String.eqb s "A" then Some (Val RegA)
  else if String.eqb s "M" then Some (Val RegM)
  else if String.eqb s "!D" then Some NotD
  else if String.eqb s "!A" then Some (NotX RegA)
  else if String.eqb s "!M" then Some (NotX RegM)
  else if String.eqb s "-D" then Some NegD
  else if String.eqb s "-A" then Some (NegX RegA)
  else if String.eqb s "-M" then Some (NegX RegM)
  else if String.eqb s "D+1" then Some IncD
  else if String.eqb s "A+1" then Some (IncX RegA)
  else if String.eqb s "M+1" then Some (IncX RegM)
  else if String.eqb s "D-1" then Some DecD
  else if String.eqb s "A-1" then Some (DecX RegA)
  else if String.eqb s "M-1" then Some (DecX RegM)
  else if String.eqb s "D+A" then Some (DPlusX RegA)
  else if String.eqb s "D+M" then Some (DPlusX RegM)
  else if String.eqb s "D-A" then Some (DMinusX RegA)
  else if String.eqb s "D-M" then Some (DMinusX RegM)
  else if String.eqb s "A-D" then Some (XMinusD RegA)
  else if String.eqb s "M-D" then Some (XMinusD RegM)
  else if String.eqb s "D&A" then Some (DAndX RegA)
  else if String.eqb s "D&M" then Some (DAndX RegM)
  else if String.eqb s "D|A" then Some (DOrX RegA)
  else if String.eqb s "D|M" then Some (DOrX RegM)
  else None.

Definition dest_of_string (s : string) : option dest :=
  if String.eqb s "M" then Some (mkDest false false true)
  else if String.eqb s "D" then Some (mkDest false true false)
  else if String.eqb s "MD" then Some (mkDest false true true)
  else if String.eqb s "A" then Some (mkDest true false false)
  else if String.eqb s "AM" then Some (mkDest true false true)
  else if String.eqb s "AD" then Some (mkDest true true false)
  else if String.eqb s "AMD" then Some (mkDest true true true)
  else None.

Definition jump_of_string (s : string) : option jump :=
  if String.eqb s "JGT" then Some JGT
  else if String.eqb s "JEQ" then Some JEQ
  else if String.eqb s "JGE" then Some JGE
  else if String.eqb s "JLT" then Some JLT
  else if String.eqb s "JNE" then Some JNE
  else if String.eqb s "JLE" then Some JLE
  else if String.eqb s "JMP" then Some JMP
  else None.

(** [dest=comp;jump], where [dest=] and [;jump] may be missing. *)
Definition parse_compute (s : string) : option line :=
  let '(d, rest) :=
    match cut_at "=" s with
    | Some (a, b) => (dest_of_string a, b)
    | None => (Some (mkDest false false false), s)
    end in
  let '(c, j) :=
    match cut_at ";" rest with
    | Some (a, b) => (comp_of_string a, jump_of_string b)
    | None => (comp_of_string rest, Some JNone)
    end in
  match d, c, j with
  | Some d, Some c, Some j => Some (CInstr d c j)
  | _, _, _ => None
  end.

(** A line of the assembly file; [None] is a syntax error. *)
Definition parse (text : string) : option line :=
  match remove_blanks (Py.before_comment text) with
  | EmptyString => Some Blank
  | String "@" r => option_map AInstr (parse_address r)
  | String "(" r =>
      match label_body r with
      | Some l => if is_symbol l then Some (LabelDef l) else None
      | None => None
      end
  | s => parse_compute s
  end.

Fixpoint parse_all (text : list string) : option (list line) :=
  match text with
  | [] => Some []
  | t :: r =>
      match parse t, parse_all r with
      | Some l, Some ls => Some (l :: ls)
      | _, _ => None
      end
  end.

(** *** Symbols *)

Definition predefined (s : string) : option Z :=
  if String.eqb s "SP" then Some 0
  else if String.eqb s "LCL" then Some 1
  else if String.eqb s "ARG" then Some 2
  else if String.eqb s "THIS" then Some 3
  else if String.eqb s "THAT" then Some 4
  else if String.eqb s "R0" then Some 0
  else if String.eqb s "R1" then Some 1
  else if String.eqb s "R2" then Some 2
  else if String.eqb s "R3" then Some 3
  else if String.eqb s "R4" then Some 4
  else if String.eqb s "R5" then Some 5
  else if String.eqb s "R6" then Some 6
  else if String.eqb s "R7" then Some 7
  else if String.eqb s "R8" then Some 8
  else if String.eqb s "R9" then Some 9
  else if String.eqb s "R10" then Some 10
  else if String.eqb s "R11" then Some 11
  else if String.eqb s "R12" then Some 12
  else if String.eqb s "R13" then Some 13
  else if String.eqb s "R14" then Some 14
  else if String.eqb s "R15" then Some 15
  else if String.eqb s "SCREEN" then Some 16384
  else if String.eqb s "KBD" then Some 24576
  else None.

Fixpoint lookup (tbl : list (string * Z)) (s : string) : option Z :=
  match tbl with
  | [] => None
  | (k, v) :: r => if String.eqb k s then Some v else lookup r s
  end.

(** First pass: a label names the address of the next instruction. *)
Fixpoint label_table (ls : list line) (addr : Z) : list (string * Z) :=
  match ls with
  | [] => []
  | LabelDef l :: r => (l, addr) :: label_table r addr
  | Blank :: r => label_table r addr
  | _ :: r => label_table r (addr + 1)
  end.

(** A symbol is a predefined name, else a label of the program, else
    whatever [other] says (a variable, or a label defined elsewhere). *)
Definition resolve (labels : list (string * Z)) (other : string -> Z)
    (s : string) : Z :=
  match predefined s with
  | Some a => a
  | None =>
      match lookup labels s with
      | Some a => a
      | None => other s
      end
  end.

(** Second pass. *)
Fixpoint encode (res : string -> Z) (ls : list line) : list instr :=
  match ls with
  | [] => []
  | Blank :: r => encode res r
  | LabelDef _ :: r => encode res r
  | AInstr (Num n) :: r => At n :: encode res r
  | AInstr (Sym s) :: r => At (res s) :: encode res r
  | CInstr d c j :: r => Compute d c j :: encode res r
  end.

(** Assemble program text; [other] gives the addresses of the symbols
    that are neither predefined nor labels of the text. *)
Definition assemble (other : string -> Z) (text : list string)
  : option (list instr) :=
  match parse_all text with
  | Some ls => Some (encode (resolve (label_table ls 0) other) ls)
  | None => None
  end.

(** Variables: every other symbol gets the next free cell from 16 on,
    in order of first use. *)
Fixpoint variables (labels : list (string * Z)) (ls : list line)
    (vars : list (string * Z)) (next : Z) : list (string * Z) :=
  match ls with
  | [] => vars
  | AInstr (Sym s) :: r =>
      match predefined s, lookup labels s, lookup vars s with
      | None, None, None => variables labels r (vars ++ [(s, next)]) (next + 1)
      | _, _, _ => variables labels r vars next
      end
  | _ :: r => variables labels r vars next
  end.

(** The assembler on a whole program. *)
Definition assemble_program (text : list string) : option (list instr) :=
  match parse_all text with
  | Some ls =>
      let labels := label_table ls 0 in
      let vars := variables labels ls [] 16 in
      Some (encode (resolve labels
                      (fun s => match lookup vars s with
                                | Some a => a
                                | None => 0
                                end)) ls)
  | None => None
  end.

(** *** The CPU *)

Definition memory := Z -> Z.

Definition upd (m : memory) (a v : Z) : memory :=
  fun x => if Z.eqb x a then v else m x.

(** Registers and data memory. *)
Record machine := mkMachine { A : Z; D : Z; RAM : memory }.

Definition operand_value (o : operand) (m : machine) : Z :=
  match o with
  | RegA => A m
  | RegM => RAM m (A m)
  end.

(** Output of the ALU. *)
Definition eval (c : comp) (m : machine) : Z :=
  match c with
  | Zero => 0
  | One => 1
  | MinusOne => wrap (-1)
  | ValD => D m
  | Val o => operand_value o m
  | NotD => wrap (Z.lnot (D m))
  | NotX o => wrap (Z.lnot (operand_value o m))
  | NegD => wrap (- D m)
  | NegX o => wrap (- operand_value o m)
  | IncD => wrap (D m + 1)
  | IncX o => wrap (operand_value o m + 1)
  | DecD => wrap (D m - 1)
  | DecX o => wrap (operand_value o m - 1)
  | DPlusX o => wrap (D m + operand_value o m)
  | DMinusX o => wrap (D m - operand_value o m)
  | XMinusD o => wrap (operand_value o m - D m)
  | DAndX o => wrap (Z.land (D m) (operand_value o m))
  | DOrX o => wrap (Z.lor (D m) (operand_value o m))
  end.

Definition jumps (j : jump) (v : Z) : bool :=
  let s := signed v in
  match j with
  | JNone => false
  | JGT => 0 <? s
  | JEQ => s =? 0
  | JGE => 0 <=? s
  | JLT => s <? 0
  | JNE => negb (s =? 0)
  | JLE => s <=? 0
  | JMP => true
  end.

(** Effect of one instruction on registers and memory, and whether it
    jumps.  The memory cell written and the jump target are both given
    by the A register before the instruction. *)
Definition exec_instr (i : instr) (m : machine) : machine * bool :=
  match i with
  | At v => (mkMachine v (D m) (RAM m), false)
  | Compute d c j =>
      let v := eval c m in
      (mkMachine (if toA d then v else A m)
                 (if toD d then v else D m)
                 (if toM d then upd (RAM m) (A m) v else RAM m),
       jumps j v)
  end.

Definition fetch (rom : list instr) (pc : Z) : option instr :=
  if pc <? 0 then None else nth_error rom (Z.to_nat pc).

(** One clock cycle: [None] when the program counter is outside the
    program. *)
Definition step (rom : list instr) (s : Z * machine) : option (Z * machine) :=
  let (pc, m) := s in
  match fetch rom pc with
  | Some i =>
      let (m', taken) := exec_instr i m in
      Some (if taken then A m else pc + 1, m')
  | None => None
  end.

Fixpoint steps (rom : list instr) (n : nat) (s : Z * machine)
  : option (Z * machine) :=
  match n with
  | O => Some s
  | S k =>
      match step rom s with
      | Some s' => steps rom k s'
      | None => None
      end
  end.

(** Run from [pc] until control leaves through the end of the program,
    for at most [fuel] cycles. *)
Fixpoint run (rom : list instr) (fuel : nat) (pc : Z) (m : machine)
  : option machine :=
  if pc =? Z.of_nat (List.length rom) then Some m
  else
    match fuel with
    | O => None
    | S k =>
        match step rom (pc, m) with
        | Some (pc', m') => run rom k pc' m'
        | None => None
        end
    end.

(** Execute a piece of emitted text on its own: assemble it, start at
    its first instruction and run off its end.  The text of a single VM
    command only jumps forward, so one cycle per instruction is enough
    fuel. *)
Definition exec (other : string -> Z) (text : list string) (m : machine)
  : option machine :=
  match assemble other text with
  | Some rom => run rom (List.length rom) 0 m
  | None => None
  end.

(** Straight-line execution of instructions, jump outcomes ignored. *)
Fixpoint exec_block (code : list instr) (m : machine) : machine :=
  match code with
  | [] => m
  | i :: r => exec_block r (fst (exec_instr i m))
  end.

Definition no_jump (i : instr) : bool :=
  match i with
  | Compute _ _ JNone => true
  | Compute _ _ _ => false
  | At _ => true
  end.

(** [code] sits in [rom] from address [base] on. *)
Definition code_at (rom : list instr) (base : Z) (code : list instr) : Prop :=
  0 <= base /\
  firstn (List.length code) (skipn (Z.to_nat base) rom) = code.

(** The stack pointer and the segment pointers of the VM. *)
Definition SP (m : machine) : Z := RAM m 0.
Definition LCL (m : machine) : Z := RAM m 1.
Definition ARG (m : machine) : Z := RAM m 2.
Definition THIS (m : machine) : Z := RAM m 3.
Definition THAT (m : machine) : Z := RAM m 4.

(** A memory with given contents at a few addresses and zero elsewhere. *)
Definition memory_of (cells : list (Z * Z)) : memory :=
  fun a =>
    match find (fun kv => Z.eqb (fst kv) a) cells with
    | Some kv => snd kv
    | None => 0
    end.

End Hack.

(* ================================================================== *)
(** ** Vocabulary of the statements *)

Import Hack.

(** *** Segments *)

(** The text of a push or pop assembles: the index is a digit string,
    small enough for an A-instruction where it is used as one, and the
    file name of a static variable can be part of a symbol. *)
Definition access_ok (seg : MemorySegment.t) (idx file : string) : bool :=
  Py.isdigit idx &&
  match seg with
  | MemorySegment.Pointer | MemorySegment.Temp => true
  | MemorySegment.Static => is_symbol file
  | MemorySegment.Invalid => false
  | _ => Py.int_of_digits idx <=? 32767
  end.

(** The memory cell a push reads or a pop writes.  For the constant
    segment the generators load no address: the cell is then the one the A
    register points to on entry. *)
Definition segment_cell (other : string -> Z) (m : machine)
    (seg : MemorySegment.t) (idx file : string) : Z :=
  match seg with
  | MemorySegment.Pointer =>
      resolve [] other ("R" ++ Py.str (Py.int_of_digits idx + 3))
  | MemorySegment.Temp =>
      resolve [] other ("R" ++ Py.str (Py.int_of_digits idx + 5))
  | MemorySegment.Static => resolve [] other (file ++ "." ++ idx)
  | MemorySegment.Constant | MemorySegment.Invalid => A m
  | _ => wrap (Py.int_of_digits idx + RAM m (MemorySegment.value seg))
  end.

(** LCL, ARG, THIS and THAT: the segments reached through a pointer. *)
Definition is_indirect (seg : MemorySegment.t) : bool :=
  MemorySegment.value seg <? 5.

(** *** Comparisons *)

(** What the emitted code tests: the sign of the 16-bit difference. *)
Definition comparison_outcome (cType : ComparisonType.t) (x y : Z) : bool :=
  let d := signed (wrap (x - y)) in
  match cType with
  | ComparisonType.EQ => d =? 0
  | ComparisonType.GT => 0 <? d
  | ComparisonType.LT => d <? 0
  end.

(** The relation between two integers the command is named after. *)
Definition relation_holds (cType : ComparisonType.t) (x y : Z) : bool :=
  match cType with
  | ComparisonType.EQ => x =? y
  | ComparisonType.GT => y <? x
  | ComparisonType.LT => x <? y
  end.

Definition compare_jump (cType : ComparisonType.t) : jump :=
  match cType with
  | ComparisonType.EQ => JEQ
  | ComparisonType.GT => JGT
  | ComparisonType.LT => JLT
  end.

(** The instructions of a comparison before and after its jump. *)
Definition compare_prefix : list instr :=
  [ At 0;
    Compute (mkDest false false true) (DecX RegM) JNone;
    Compute (mkDest true false false) (Val RegM) JNone;
    Compute (mkDest false true false) (Val RegM) JNone;
    Compute (mkDest true false false) (DecX RegA) JNone;
    Compute (mkDest false true false) (XMinusD RegM) JNone;
    Compute (mkDest false false true) MinusOne JNone;
    At 12 ].

Definition compare_suffix : list instr :=
  [ At 0;
    Compute (mkDest true false false) (DecX RegM) JNone;
    Compute (mkDest false false true) Zero JNone ].

(** *** Call and return *)

Definition push_register (r : Z) : list instr :=
  [ At r; Compute (mkDest false true false) (Val RegM) JNone;
    At 0; Compute (mkDest false false true) (IncX RegM) JNone;
    Compute (mkDest true false false) (DecX RegM) JNone;
    Compute (mkDest false false true) ValD JNone ].

(** The instructions of a call before it loads the callee's address. *)
Definition call_block (ret n : Z) : list instr :=
  [ At ret; Compute (mkDest false true false) (Val RegA) JNone;
    At 0; Compute (mkDest false false true) (IncX RegM) JNone;
    Compute (mkDest true false false) (DecX RegM) JNone;
    Compute (mkDest false false true) ValD JNone ]
  ++ push_register 1 ++ push_register 2 ++ push_register 3 ++ push_register 4
  ++ [ At 0; Compute (mkDest false true false) (Val RegM) JNone;
       At 5; Compute (mkDest false true false) (DMinusX RegA) JNone;
       At n; Compute (mkDest false true false) (DMinusX RegA) JNone;
       At 2; Compute (mkDest false false true) ValD JNone;
       At 0; Compute (mkDest false true false) (Val RegM) JNone;
       At 1; Compute (mkDest false false true) ValD JNone ].

Definition jump_instr : instr := Compute (mkDest false false false) Zero JMP.

(** The instructions of a return before its final jump. *)
Definition return_block : list instr :=
  Eval vm_compute in
    match assemble (fun _ => 0) (removelast GenerateReturnCode) with
    | Some c => c
    | None => []
    end.

(** The memory a call leaves to the callee: return address and the four
    segment pointers saved on the stack, ARG and LCL moved. *)
Definition frame_after_call (ram : memory) (ret n : Z) : memory :=
  let sp := ram 0 in
  upd (upd (upd (upd (upd (upd (upd (upd (upd (upd (upd (upd ram
    0 (sp + 1)) sp ret)
    0 (sp + 1 + 1)) (sp + 1) (ram 1))
    0 (sp + 1 + 1 + 1)) (sp + 1 + 1) (ram 2))
    0 (sp + 1 + 1 + 1 + 1)) (sp + 1 + 1 + 1) (ram 3))
    0 (sp + 1 + 1 + 1 + 1 + 1)) (sp + 1 + 1 + 1 + 1) (ram 4))
    2 (sp + 1 + 1 + 1 + 1 + 1 - 5 - n))
    1 (sp + 1 + 1 + 1 + 1 + 1).

(** [text] is part of the program in [rom], from address [base] on, with
    its symbols resolved by [res]. *)
Definition loaded (res : string -> Z) (rom : list instr) (base : Z)
    (text : list string) : Prop :=
  match parse_all text with
  | Some ls => code_at rom base (encode res ls)
  | None => False
  end.

(** *** The translation loop, command by command *)

(** The return labels handed to the calls of a command stream, in order. *)
Fixpoint call_labels (c : context) (lines : list processedLine) : list string :=
  match lines with
  | [] => []
  | line :: r =>
      let c' := fst (translate_line c line) in
      match line with
      | LCall name _ => returnName name (callCount c') :: call_labels c' r
      | _ => call_labels c' r
      end
  end.

(** The branch labels handed to the comparisons, in order. *)
Fixpoint compare_labels (c : context) (lines : list processedLine) : list string :=
  match lines with
  | [] => []
  | line :: r =>
      let c' := fst (translate_line c line) in
      match line with
      | LComparison _ => compareLabel (comparisonCount c') :: compare_labels c' r
      | _ => compare_labels c' r
      end
  end.

(** The lists [translation] of the loop, one per command. *)
Fixpoint translations (c : context) (lines : list processedLine)
  : list (list string) :=
  match lines with
  | [] => []
  | line :: r =>
      let (c', translation) := translate_line c line in
      translation :: translations c' r
  end.

Definition is_call (p : processedLine) : bool :=
  match p with LCall _ _ => true | _ => false end.

Definition is_comparison (p : processedLine) : bool :=
  match p with LComparison _ => true | _ => false end.

(** The name under which the loop scopes the labels of the next command:
    the name given by the last function definition or call before it. *)
Fixpoint scope_after (scope : string) (lines : list processedLine) : string :=
  match lines with
  | [] => scope
  | LFunction name _ :: r => scope_after name r
  | LCall name _ :: r => scope_after name r
  | _ :: r => scope_after scope r
  end.

(** The name of the function a command stream ends in: the one given by
    its last function definition. *)
Fixpoint enclosing_function (scope : string) (lines : list processedLine)
  : string :=
  match lines with
  | [] => scope
  | LFunction name _ :: r => enclosing_function name r
  | _ :: r => enclosing_function scope r
  end.

(** *** Text *)

Fixpoint no_slash (s : string) : bool :=
  match s with
  | EmptyString => true
  | String c r => negb (Ascii.eqb c "/") && no_slash r
  end.

Fixpoint has_colon (s : string) : bool :=
  match s with
  | EmptyString => false
  | String c r => Ascii.eqb c ":" || has_colon r
  end.

(** The text behind the last colon of a string. *)
Fixpoint after_last_colon (s : string) : string :=
  match s with
  | EmptyString => EmptyString
  | String c r =>
      if has_colon r then after_last_colon r
      else if Ascii.eqb c ":" then r
      else String c r
  end.

(** The words [function Sys.init n] on a source line. *)
Definition defines_sys_init (line : string) : bool :=
  match Py.split (Py.strip (Py.before_comment (Py.strip line))) with
  | [w0; w1; _] => String.eqb w0 "function" && String.eqb w1 "Sys.init"
  | _ => false
  end.

(** *** Sample data *)

(** No symbols besides the predefined ones and the labels of the text. *)
Definition no_symbols : string -> Z := fun _ => 0.

(** A machine in the middle of a computation: two operands on the
    stack, segment pointers set. *)
Definition sample_machine : machine :=
  mkMachine 0 0
    (memory_of [ (0, 258); (1, 300); (2, 400); (3, 3000); (4, 4000);
                 (256, 32767); (257, 65535); (300, 11); (301, 12) ]).

(** A small program: a function that only returns, and a call of it
    with two arguments. *)
Definition sample_program : list string :=
  [ "(f)" ] ++ GenerateReturnCode
  ++ GenerateFunctionCallCode "f" 2 (returnName "f" 1).

Definition sample_labels : list (string * Z) :=
  match parse_all sample_program with
  | Some ls => label_table ls 0
  | None => []
  end.

Definition sample_rom : list instr :=
  match assemble no_symbols sample_program with
  | Some rom => rom
  | None => []
  end.

(** The lines of the bootstrap code, read by the assembler. *)
Definition bootstrap_lines : list line :=
  match parse_all GenerateBootStrapCode with
  | Some ls => ls
  | None => []
  end.

(** The four instructions that set the stack pointer. *)
Definition set_stack_pointer : list instr :=
  [ At 256; Compute (mkDest false true false) (Val RegA) JNone;
    At 0; Compute (mkDest false false true) ValD JNone ].

(** A function with a loop around a call. *)
Definition loop_source : list (string * list string) :=
  [ ("Main", [ "function Sys.init 0";
               "label LOOP";
               "call Sys.helper 0";
               "goto LOOP";
               "function Sys.helper 0";
               "return" ]) ].

(** A program without an entry point. *)
Definition headless_source : list (string * list string) :=
  [ ("Main", [ "function Main.run 0"; "push constant 1"; "return" ]) ].

Definition sample_source : list (string * list string) :=
  [ ("Main", [ "// a small program";
               "function Sys.init 0";
               "push constant 7";
               "push constant 8";
               "add";
               "label LOOP";
               "goto LOOP" ]) ].

(** *** Code of single commands *)

(** The two instructions emitted for each local variable of a function. *)
Definition clear_local : list instr :=
  [ Compute (mkDest false false true) Zero JNone;
    Compute (mkDest true false false) (IncX RegA) JNone ].

(** What an arithmetic command computes from the operand [x] below the
    top of the stack and the operand [y] on top. *)
Definition arithmetic_result (aType : ArithmeticType.t) (x y : Z) : Z :=
  match aType with
  | ArithmeticType.Add => wrap (x + y)
  | ArithmeticType.Sub => wrap (x - y)
  | ArithmeticType.Neg => wrap (- y)
  | ArithmeticType.And => Z.land x y
  | ArithmeticType.Or => Z.lor x y
  | ArithmeticType.Not => wrap (Z.lnot y)
  end.

Definition is_unary (aType : ArithmeticType.t) : bool :=
  match aType with
  | ArithmeticType.Neg | ArithmeticType.Not => true
  | _ => false
  end.

(** The symbol the loop writes for a label, a goto or an if-goto. *)
Definition scoped_label (c : context) (name : string) : string :=
  functionName c ++ "$" ++ name.

(** The commands that assign the variable [functionName] of the loop. *)
Definition sets_scope (p : processedLine) : option string :=
  match p with
  | LFunction name _ | LCall name _ => Some name
  | _ => None
  end.

Definition keeps_scope (p : processedLine) : bool :=
  match sets_scope p with Some _ => false | None => true end.

(** The number of instructions a text assembles to. *)
Definition instruction_count (text : list string) : Z :=
  match parse_all text with
  | Some ls => Z.of_nat (List.length (encode (fun _ => 0) ls))
  | None => 0
  end.

(** A command whose translation the assembler can read: numbers fit an
    A-instruction, names can be symbols. *)
Definition encodable (c : context) (p : processedLine) : bool :=
  match p with
  | LPush seg idx file | LPop seg idx file => access_ok seg idx file
  | LLabel name | LGoto name | LIfGoto name => is_symbol (scoped_label c name)
  | LFunction name _ => is_symbol name
  | LCall name n => is_symbol name && (0 <=? n) && (n <=? 32767)
  | _ => true
  end.

Fixpoint encodable_all (c : context) (lines : list processedLine) : bool :=
  match lines with
  | [] => true
  | p :: r => encodable c p && encodable_all (fst (translate_line c p)) r
  end.

(** *** Source lines *)

Fixpoint mentions (c : ascii) (s : string) : bool :=
  match s with
  | EmptyString => false
  | String x r => Ascii.eqb x c || mentions c r
  end.

(** A line of the output that is not a label, or a label with one of
    the marks of the labels the translation loop writes: the [$] of a
    scoped label, the colon of a counter, the capital F in the comment of
    a function definition. *)
Definition is_user_line (l : string) : bool :=
  match l with
  | String "(" _ => mentions "$" l || mentions ":" l || mentions "F" l
  | _ => true
  end.

(** The cell a symbol stands for in a program with the label table
    [labels], when it is not a predefined symbol: the address of the
    label of that name if there is one, the variable the assembler
    allocates otherwise. *)
Definition symbol_cell (labels : list (string * Z)) (other : string -> Z)
    (s : string) : Z :=
  match lookup labels s with
  | Some a => a
  | None => other s
  end.

Fixpoint all_space (s : string) : bool :=
  match s with
  | EmptyString => true
  | String c r => Py.is_space c && all_space r
  end.

Fixpoint no_space (s : string) : bool :=
  match s with
  | EmptyString => true
  | String c r => negb (Py.is_space c) && no_space r
  end.

(** A word of a command: not empty, without blanks and slashes. *)
Definition is_word (s : string) : bool :=
  negb (String.eqb s "") && no_space s && no_slash s.

(** Words separated by single blanks. *)
Fixpoint join_words (words : list string) : string :=
  match words with
  | [] => ""
  | [w] => w
  | w :: r => w ++ " " ++ join_words r
  end.

Definition arithmetic_keyword (a : ArithmeticType.t) : string :=
  match a with
  | ArithmeticType.Add => "add" | ArithmeticType.Sub => "sub"
  | ArithmeticType.Neg => "neg" | ArithmeticType.And => "and"
  | ArithmeticType.Or => "or" | ArithmeticType.Not => "not"
  end.

Definition comparison_keyword (c : ComparisonType.t) : string :=
  match c with
  | ComparisonType.EQ => "eq" | ComparisonType.GT => "gt"
  | ComparisonType.LT => "lt"
  end.

Definition segment_keyword (s : MemorySegment.t) : string :=
  match s with
  | MemorySegment.LCL => "local" | MemorySegment.ARG => "argument"
  | MemorySegment.THIS => "this" | MemorySegment.THAT => "that"
  | MemorySegment.Static => "static" | MemorySegment.Constant => "constant"
  | MemorySegment.Pointer => "pointer" | MemorySegment.Temp => "temp"
  | MemorySegment.Invalid => "invalid"
  end.

(** The words of the VM command a processed line stands for. *)
Definition command_words (p : processedLine) : list string :=
  match p with
  | LArithmetic a => [ arithmetic_keyword a ]
  | LComparison c => [ comparison_keyword c ]
  | LPush seg idx _ => [ "push"; segment_keyword seg; idx ]
  | LPop seg idx _ => [ "pop"; segment_keyword seg; idx ]
  | LLabel name => [ "label"; name ]
  | LGoto name => [ "goto"; name ]
  | LIfGoto name => [ "if-goto"; name ]
  | LFunction name k => [ "function"; name; Py.str k ]
  | LCall name k => [ "call"; name; Py.str k ]
  | LReturn => [ "return" ]
  | LInvalid _ => []
  end.

Definition source_text (p : processedLine) : string :=
  join_words (command_words p).

(** A processed line as the parser builds it for a file: a segment of
    the dictionary, a digit string as index, words as names. *)
Definition well_formed (fileName : string) (p : processedLine) : bool :=
  match p with
  | LPush seg idx file | LPop seg idx file =>
      negb (MemorySegment.eqb seg MemorySegment.Invalid)
      && Py.isdigit idx && String.eqb file fileName
  | LLabel name | LGoto name | LIfGoto name => is_word name
  | LFunction name _ | LCall name _ => is_word name
  | LInvalid _ => false
  | _ => true
  end.

(** *** The parsing loops *)

(** A line that is skipped or yields a valid command. *)
Definition is_accepted (r : lineResult) : bool :=
  match r with
  | Skipped => true
  | Processed p => negb (is_invalid p)
  | Raised => false
  end.

(** The lines of all files, in the order they are read. *)
Definition all_lines (files : list (string * list string)) : list string :=
  List.concat (List.map snd files).

(** An entry of [errors] names the line, among those read so far, that
    the parser rejected. *)
Definition error_located (seen : list string) (e : processedLine) : Prop :=
  exists n fileName line,
    e = LInvalid n /\ 1 <= n /\
    nth_error seen (Z.to_nat (n - 1)) = Some line /\
    parse_line fileName n line = Processed (LInvalid n).

Definition parsed_so_far (seen : list string) (st : parseState) : Prop :=
  lineNumber st = Z.of_nat (List.length seen) /\
  Forall (error_located seen) (errors st).

(** *** More sample data *)

(** The context inside a function [Main.run]. *)
Definition sample_context : context := mkContext "Main.run" 0 0.

(** A machine inside a callee: the frame of a call with two arguments
    at 300..304, one value on the stack above five locals. *)
Definition callee_machine : machine :=
  mkMachine 0 0
    (memory_of [ (0, 311); (1, 305); (2, 298); (3, 3010); (4, 4010);
                 (298, 7); (299, 8);
                 (300, 90); (301, 300); (302, 400); (303, 3000); (304, 4000);
                 (310, 42) ]).

(** A file with an unknown command on its first line. *)
Definition faulty_source : list (string * list string) :=
  [ ("Main", [ "bogus"; "function Sys.init 0"; "add" ]) ].

(* ================================================================== *)
(** ** Facts about characters, digit strings and symbols *)

Module TextFacts.
Import Hack.

Ltac all_chars c := destruct c as [[] [] [] [] [] [] [] []].

Lemma digit_is_symbol_char c :
  Py.is_digit c = true -> is_symbol_char c = true.
Proof. all_chars c; vm_compute; congruence. Qed.

Lemma symbol_char_not_slash c :
  is_symbol_char c = true -> Ascii.eqb c "/" = false.
Proof. all_chars c; vm_compute; congruence. Qed.

Lemma symbol_char_not_space c :
  is_symbol_char c = true -> Py.is_space c = false.
Proof. all_chars c; vm_compute; congruence. Qed.

Lemma space_not_symbol_char c :
  Py.is_space c = true -> is_symbol_char c = false.
Proof. all_chars c; vm_compute; congruence. Qed.

Lemma all_digits_symbol_chars s :
  Py.all_digits s = true -> all_symbol_chars s = true.
Proof.
  induction s as [|c r IH]; simpl; [reflexivity|].
  intros H; apply andb_true_iff in H as [Hc Hr].
  rewrite (digit_is_symbol_char _ Hc), (IH Hr); reflexivity.
Qed.

Lemma all_symbol_chars_app s t :
  all_symbol_chars (s ++ t) = all_symbol_chars s && all_symbol_chars t.
Proof.
  induction s as [|c r IH]; simpl; [reflexivity|].
  rewrite IH, andb_assoc; reflexivity.
Qed.

Lemma isdigit_all_digits s : Py.isdigit s = true -> Py.all_digits s = true.
Proof. destruct s; simpl; congruence. Qed.

Lemma is_symbol_all s : is_symbol s = true -> all_symbol_chars s = true.
Proof.
  destruct s as [|c r]; [discriminate|].
  unfold is_symbol; intros H; apply andb_true_iff in H; tauto.
Qed.

Lemma is_symbol_not_isdigit s : is_symbol s = true -> Py.isdigit s = false.
Proof.
  destruct s as [|c r]; [reflexivity|].
  unfold is_symbol; intros H; apply andb_true_iff in H as [H _].
  simpl. destruct (Py.is_digit c); [discriminate | reflexivity].
Qed.

(** A symbol followed by symbol characters is a symbol. *)
Lemma is_symbol_app s t :
  is_symbol s = true -> all_symbol_chars t = true -> is_symbol (s ++ t) = true.
Proof.
  destruct s as [|c r]; [discriminate|].
  intros H Ht; unfold is_symbol in H; apply andb_true_iff in H as [H1 H2].
  change (String c r ++ t) with (String c (r ++ t)).
  unfold is_symbol. rewrite H1.
  change (String c (r ++ t)) with (String c r ++ t).
  rewrite all_symbol_chars_app, H2, Ht; reflexivity.
Qed.

(** *** Comments and blanks *)

Lemma before_comment_cons c r :
  Ascii.eqb c "/" = false ->
  Py.before_comment (String c r) = String c (Py.before_comment r).
Proof. intros H; destruct r; simpl; rewrite ?H; reflexivity. Qed.

Lemma before_comment_app s t :
  all_symbol_chars s = true ->
  Py.before_comment (s ++ t) = s ++ Py.before_comment t.
Proof.
  induction s as [|c r IH]; [reflexivity|].
  intros H; simpl in H; apply andb_true_iff in H as [Hc Hr].
  change (String c r ++ t) with (String c (r ++ t)).
  rewrite before_comment_cons by (apply symbol_char_not_slash; exact Hc).
  rewrite (IH Hr); reflexivity.
Qed.

Lemma before_comment_symbol s :
  all_symbol_chars s = true -> Py.before_comment s = s.
Proof.
  induction s as [|c r IH]; [reflexivity|].
  intros H; simpl in H; apply andb_true_iff in H as [Hc Hr].
  rewrite before_comment_cons by (apply symbol_char_not_slash; exact Hc).
  rewrite (IH Hr); reflexivity.
Qed.

Lemma remove_blanks_app s t :
  remove_blanks (s ++ t) = remove_blanks s ++ remove_blanks t.
Proof.
  induction s as [|c r IH]; [reflexivity|].
  simpl. destruct (Py.is_space c); rewrite IH; reflexivity.
Qed.

Lemma remove_blanks_symbol s :
  all_symbol_chars s = true -> remove_blanks s = s.
Proof.
  induction s as [|c r IH]; [reflexivity|].
  intros H; simpl in H; apply andb_true_iff in H as [Hc Hr].
  simpl. rewrite (symbol_char_not_space _ Hc), (IH Hr); reflexivity.
Qed.

Lemma label_body_app s : label_body (s ++ ")") = Some s.
Proof.
  induction s as [|c r IH]; [reflexivity|].
  change (String c r ++ ")") with (String c (r ++ ")")).
  simpl. rewrite IH.
  destruct (r ++ ")") eqn:E; [destruct r; discriminate | reflexivity].
Qed.

(** *** Decimal numerals *)

Lemma string_of_uint_digits d :
  Py.all_digits (NilEmpty.string_of_uint d) = true.
Proof. induction d; simpl; rewrite ?IHd; reflexivity. Qed.

Lemma str_nonneg z :
  0 <= z -> Py.str z = NilEmpty.string_of_uint (N.to_uint (Z.to_N z)).
Proof.
  intros H; destruct z as [|p|p]; [reflexivity | reflexivity | lia].
Qed.

Lemma str_all_digits z : 0 <= z -> Py.all_digits (Py.str z) = true.
Proof. intros H; rewrite str_nonneg by exact H; apply string_of_uint_digits. Qed.

Lemma str_value z : 0 <= z -> Py.digits_value (Py.str z) = Some z.
Proof.
  intros H; rewrite str_nonneg by exact H.
  unfold Py.digits_value.
  rewrite NilEmpty.usu, DecimalN.Unsigned.of_to, Z2N.id by exact H.
  reflexivity.
Qed.

Lemma str_inj a b : 0 <= a -> 0 <= b -> Py.str a = Py.str b -> a = b.
Proof.
  intros Ha Hb E.
  assert (Some a = Some b) as [= ->]; [|reflexivity].
  rewrite <- (str_value a Ha), <- (str_value b Hb), E; reflexivity.
Qed.

Lemma str_not_empty z : 0 <= z -> Py.str z <> EmptyString.
Proof.
  intros H E. pose proof (str_value z H) as V. rewrite E in V.
  vm_compute in V. injection V as <-.
  revert E; vm_compute; discriminate.
Qed.

Lemma str_isdigit z : 0 <= z -> Py.isdigit (Py.str z) = true.
Proof.
  intros H. pose proof (str_not_empty z H) as N.
  pose proof (str_all_digits z H) as D.
  destruct (Py.str z); [congruence | exact D].
Qed.

(** A string of digits has a value. *)
Lemma all_digits_value s :
  Py.all_digits s = true -> exists d, NilEmpty.uint_of_string s = Some d.
Proof.
  induction s as [|c r IH]; simpl; [eexists; reflexivity|].
  intros H; apply andb_true_iff in H as [Hc Hr].
  destruct (IH Hr) as [d ->].
  revert Hc; all_chars c; vm_compute; try congruence; intros _; eexists; reflexivity.
Qed.

Lemma isdigit_value s :
  Py.isdigit s = true -> Py.digits_value s = Some (Py.int_of_digits s).
Proof.
  intros H. apply isdigit_all_digits, all_digits_value in H as [d E].
  unfold Py.int_of_digits, Py.digits_value; rewrite E; reflexivity.
Qed.

Lemma int_of_digits_nonneg s : 0 <= Py.int_of_digits s.
Proof.
  unfold Py.int_of_digits, Py.digits_value.
  destruct (NilEmpty.uint_of_string s); lia.
Qed.

Lemma int_of_digits_str z : 0 <= z -> Py.int_of_digits (Py.str z) = z.
Proof. intros H; unfold Py.int_of_digits; rewrite str_value by exact H; reflexivity. Qed.

(** *** Lines of assembly with a variable part *)

Lemma parse_at_number idx :
  Py.isdigit idx = true -> Py.int_of_digits idx <= 32767 ->
  parse ("@" ++ idx) = Some (AInstr (Num (Py.int_of_digits idx))).
Proof.
  intros Hd Hv. pose proof (isdigit_all_digits _ Hd) as Ha.
  apply all_digits_symbol_chars in Ha.
  unfold parse. change ("@" ++ idx) with (String "@" idx).
  rewrite before_comment_cons by reflexivity.
  rewrite (before_comment_symbol _ Ha).
  change (remove_blanks (String "@" idx)) with (String "@" (remove_blanks idx)).
  rewrite (remove_blanks_symbol _ Ha).
  unfold parse_address. rewrite Hd, (isdigit_value _ Hd).
  apply Z.leb_le in Hv; rewrite Hv; reflexivity.
Qed.

Lemma parse_at_symbol s :
  is_symbol s = true -> parse ("@" ++ s) = Some (AInstr (Sym s)).
Proof.
  intros Hs. pose proof (is_symbol_all _ Hs) as Ha.
  unfold parse. change ("@" ++ s) with (String "@" s).
  rewrite before_comment_cons by reflexivity.
  rewrite (before_comment_symbol _ Ha).
  change (remove_blanks (String "@" s)) with (String "@" (remove_blanks s)).
  rewrite (remove_blanks_symbol _ Ha).
  unfold parse_address. rewrite (is_symbol_not_isdigit _ Hs), Hs; reflexivity.
Qed.

Lemma parse_label s :
  is_symbol s = true -> parse ("(" ++ s ++ ")") = Some (LabelDef s).
Proof.
  intros Hs. pose proof (is_symbol_all _ Hs) as Ha.
  unfold parse. change ("(" ++ s ++ ")") with (String "(" (s ++ ")")).
  rewrite before_comment_cons by reflexivity.
  rewrite (before_comment_app _ _ Ha).
  change (remove_blanks (String "(" (s ++ Py.before_comment ")")))
    with (String "(" (remove_blanks (s ++ ")"))).
  rewrite remove_blanks_app, (remove_blanks_symbol _ Ha).
  change (remove_blanks ")") with ")".
  cbv iota beta. rewrite label_body_app, Hs; reflexivity.
Qed.

(** A label line that carries a trailing comment. *)
Lemma parse_label_comment s t :
  is_symbol s = true ->
  parse ("(" ++ s ++ ")" ++ tabs ++ "//" ++ t) = Some (LabelDef s).
Proof.
  intros Hs. pose proof (is_symbol_all _ Hs) as Ha.
  unfold parse.
  change ("(" ++ s ++ ")" ++ tabs ++ "//" ++ t)
    with (String "(" (s ++ ")" ++ tabs ++ "//" ++ t)).
  rewrite before_comment_cons by reflexivity.
  rewrite (before_comment_app _ _ Ha).
  change (Py.before_comment (")" ++ tabs ++ "//" ++ t)) with (")" ++ tabs).
  change (remove_blanks (String "(" (s ++ ")" ++ tabs)))
    with (String "(" (remove_blanks (s ++ ")" ++ tabs))).
  rewrite remove_blanks_app, (remove_blanks_symbol _ Ha).
  change (remove_blanks (")" ++ tabs)) with ")".
  cbv iota beta. rewrite label_body_app, Hs; reflexivity.
Qed.

(** A comment line, whatever follows the slashes. *)
Lemma parse_comment t : parse (tabs ++ "//" ++ t) = Some Blank.
Proof. reflexivity. Qed.

End TextFacts.

(* ================================================================== *)
(** ** Facts about the CPU model *)

Module CpuFacts.
Import Hack.
Local Open Scope list_scope.

Lemma wrap_small x : 0 <= x < 65536 -> wrap x = x.
Proof. intros H; unfold wrap; apply Z.mod_small; exact H. Qed.

Lemma wrap_range x : 0 <= wrap x < 65536.
Proof. unfold wrap; apply Z.mod_pos_bound; lia. Qed.

Lemma wrap_land x y :
  0 <= x < 65536 -> 0 <= y < 65536 -> wrap (Z.land x y) = Z.land x y.
Proof.
  intros Hx Hy. unfold wrap. change 65536 with (2 ^ 16).
  rewrite <- Z.land_ones by lia.
  rewrite <- Z.land_assoc.
  rewrite (Z.land_ones y) by lia.
  rewrite (Z.mod_small y) by (change (2 ^ 16) with 65536; lia).
  reflexivity.
Qed.

Lemma wrap_lor x y :
  0 <= x < 65536 -> 0 <= y < 65536 -> wrap (Z.lor x y) = Z.lor x y.
Proof.
  intros Hx Hy. unfold wrap. change 65536 with (2 ^ 16).
  rewrite <- Z.land_ones by lia.
  rewrite Z.land_lor_distr_l.
  rewrite !Z.land_ones by lia.
  rewrite !Z.mod_small by (change (2 ^ 16) with 65536; lia).
  reflexivity.
Qed.

Lemma upd_same m a v : upd m a v a = v.
Proof. unfold upd; rewrite Z.eqb_refl; reflexivity. Qed.

Lemma upd_other m a v x : x <> a -> upd m a v x = m x.
Proof. intros H; unfold upd; apply Z.eqb_neq in H; rewrite H; reflexivity. Qed.

Lemma exec_block_app c1 c2 m :
  exec_block (c1 ++ c2) m = exec_block c2 (exec_block c1 m).
Proof. revert m; induction c1 as [|i r IH]; intros m; simpl; [|rewrite IH]; reflexivity. Qed.

Lemma no_jump_not_taken i m : no_jump i = true -> snd (exec_instr i m) = false.
Proof. destruct i as [v|d c []]; simpl; congruence. Qed.

Lemma fetch_middle pre i post :
  fetch (pre ++ i :: post) (Z.of_nat (List.length pre)) = Some i.
Proof.
  unfold fetch.
  destruct (Z.ltb_spec (Z.of_nat (List.length pre)) 0); [lia|].
  rewrite Nat2Z.id, nth_error_app2, Nat.sub_diag by lia; reflexivity.
Qed.

(** Running a jump-free block that sits in the program. *)
Lemma run_block code : forall pre post k m,
  forallb no_jump code = true ->
  run (pre ++ code ++ post) (List.length code + k) (Z.of_nat (List.length pre)) m
  = run (pre ++ code ++ post) k
      (Z.of_nat (List.length pre + List.length code)) (exec_block code m).
Proof.
  induction code as [|i r IH]; intros pre post k m H.
  - simpl. rewrite Nat.add_0_r; reflexivity.
  - simpl in H; apply andb_true_iff in H as [Hi Hr].
    change (List.length (i :: r) + k)%nat with (S (List.length r + k)).
    cbn [run].
    destruct (Z.eqb_spec (Z.of_nat (List.length pre))
                (Z.of_nat (List.length (pre ++ (i :: r) ++ post)))) as [E|_].
    { rewrite length_app in E; simpl in E; lia. }
    unfold step. change ((i :: r) ++ post) with (i :: r ++ post).
    rewrite fetch_middle.
    pose proof (no_jump_not_taken i m Hi) as T.
    destruct (exec_instr i m) as [m' taken] eqn:E; simpl in T; subst taken.
    replace (pre ++ i :: r ++ post) with ((pre ++ [i]) ++ r ++ post)
      by (rewrite <- app_assoc; reflexivity).
    replace (Z.of_nat (List.length pre) + 1)
      with (Z.of_nat (List.length (pre ++ [i])))
      by (rewrite length_app; simpl; lia).
    rewrite IH by exact Hr.
    simpl. rewrite E. simpl.
    rewrite length_app. simpl.
    replace (List.length pre + 1 + List.length r)%nat
      with (List.length pre + S (List.length r))%nat by lia.
    reflexivity.
Qed.

Lemma run_end rom k m : run rom k (Z.of_nat (List.length rom)) m = Some m.
Proof. destruct k; simpl; rewrite Z.eqb_refl; reflexivity. Qed.

(** Jump-free text, executed on its own, is its block semantics. *)
Lemma exec_straight other text code m :
  assemble other text = Some code ->
  forallb no_jump code = true ->
  exec other text m = Some (exec_block code m).
Proof.
  intros Ha Hj. unfold exec. rewrite Ha.
  pose proof (run_block code [] [] 0 m Hj) as R.
  rewrite List.app_nil_r, Nat.add_0_r in R.
  change (Z.of_nat (List.length (@nil instr))) with 0 in R.
  change ([] ++ code) with code in R.
  change (List.length (@nil instr) + List.length code)%nat
    with (List.length code) in R.
  rewrite R. apply run_end.
Qed.

(** *** Code inside a larger program *)

Lemma code_at_fetch rom base code i ins :
  code_at rom base code ->
  nth_error code i = Some ins ->
  fetch rom (base + Z.of_nat i) = Some ins.
Proof.
  intros [Hb Hc] Hn. unfold fetch.
  destruct (Z.ltb_spec (base + Z.of_nat i) 0); [lia|].
  rewrite <- Hc in Hn.
  rewrite nth_error_firstn in Hn.
  destruct (Nat.ltb i (List.length code)); [|discriminate].
  rewrite nth_error_skipn in Hn.
  rewrite Z2Nat.inj_add, Nat2Z.id by lia. exact Hn.
Qed.

Lemma code_at_tail rom base i r :
  code_at rom base (i :: r) -> code_at rom (base + 1) r.
Proof.
  intros [Hb Hc]. split; [lia|].
  rewrite Z2Nat.inj_add by lia.
  change (Z.to_nat 1) with 1%nat.
  rewrite Nat.add_comm, <- skipn_skipn.
  simpl in Hc.
  destruct (skipn (Z.to_nat base) rom) as [|x l]; [discriminate|].
  injection Hc as _ Hc. exact Hc.
Qed.

Lemma code_at_head rom base i r :
  code_at rom base (i :: r) -> fetch rom base = Some i.
Proof.
  intros H. pose proof (code_at_fetch rom base (i :: r) 0 i H eq_refl) as F.
  rewrite Z.add_0_r in F. exact F.
Qed.

Lemma code_at_app rom base c1 c2 :
  code_at rom base (c1 ++ c2) ->
  code_at rom base c1 /\ code_at rom (base + Z.of_nat (List.length c1)) c2.
Proof.
  revert base; induction c1 as [|i r IH]; intros base H.
  - simpl. rewrite Z.add_0_r. split; [|exact H].
    destruct H as [Hb _]. split; [exact Hb | reflexivity].
  - pose proof (code_at_head _ _ _ _ H) as F.
    change ((i :: r) ++ c2) with (i :: (r ++ c2)) in H.
    pose proof (code_at_tail _ _ _ _ H) as T.
    destruct (IH _ T) as [H1 H2].
    split.
    + destruct H as [Hb Hc]. split; [exact Hb|].
      simpl in Hc. simpl.
      destruct (skipn (Z.to_nat base) rom) as [|x l] eqn:E; [discriminate|].
      injection Hc as Hx Hc. subst x. f_equal.
      destruct H1 as [_ H1].
      rewrite Z2Nat.inj_add in H1 by lia.
      change (Z.to_nat 1) with 1%nat in H1.
      rewrite Nat.add_comm, <- skipn_skipn, E in H1. exact H1.
    + replace (base + Z.of_nat (List.length (i :: r)))
        with (base + 1 + Z.of_nat (List.length r)) by (simpl List.length; lia).
      exact H2.
Qed.

Lemma steps_app rom a b s :
  steps rom (a + b) s =
  match steps rom a s with
  | Some s' => steps rom b s'
  | None => None
  end.
Proof.
  revert s; induction a as [|a IH]; intros s; simpl; [reflexivity|].
  destruct (step rom s); [apply IH | reflexivity].
Qed.

(** A jump-free block inside a program takes one cycle per
    instruction and leaves control just behind it. *)
Lemma steps_block rom code : forall base m,
  code_at rom base code ->
  forallb no_jump code = true ->
  steps rom (List.length code) (base, m)
  = Some (base + Z.of_nat (List.length code), exec_block code m).
Proof.
  induction code as [|i r IH]; intros base m Hc Hj.
  - simpl. rewrite Z.add_0_r; reflexivity.
  - simpl in Hj; apply andb_true_iff in Hj as [Hi Hr].
    cbn [steps List.length]. unfold step.
    rewrite (code_at_head _ _ _ _ Hc).
    pose proof (no_jump_not_taken i m Hi) as T.
    destruct (exec_instr i m) as [m' taken] eqn:E; simpl in T; subst taken.
    rewrite (IH _ _ (code_at_tail _ _ _ _ Hc) Hr).
    simpl. rewrite E. simpl. f_equal. f_equal. lia.
Qed.

(** An unconditional jump. *)
Lemma step_jump rom pc m d c :
  fetch rom pc = Some (Compute d c JMP) ->
  step rom (pc, m) = Some (A m, fst (exec_instr (Compute d c JMP) m)).
Proof. intros F; unfold step; rewrite F; reflexivity. Qed.

End CpuFacts.

(* ================================================================== *)
(** ** Facts about the text the program reads *)

Module SourceFacts.
Import TextFacts.

Lemma digit_not_space c : Py.is_digit c = true -> Py.is_space c = false.
Proof. all_chars c; vm_compute; congruence. Qed.

Lemma digit_not_slash c : Py.is_digit c = true -> Ascii.eqb c "/" = false.
Proof. all_chars c; vm_compute; congruence. Qed.

Lemma digit_not_colon c : Py.is_digit c = true -> Ascii.eqb c ":" = false.
Proof. all_chars c; vm_compute; congruence. Qed.

Lemma no_slash_app s t : no_slash (s ++ t) = no_slash s && no_slash t.
Proof.
  induction s as [|c r IH]; [reflexivity|].
  simpl. rewrite IH, andb_assoc; reflexivity.
Qed.

Lemma digits_no_slash s : Py.all_digits s = true -> no_slash s = true.
Proof.
  induction s as [|c r IH]; [reflexivity|].
  simpl; intros H; apply andb_true_iff in H as [Hc Hr].
  rewrite (digit_not_slash _ Hc), (IH Hr); reflexivity.
Qed.

Lemma before_comment_no_slash s : no_slash s = true -> Py.before_comment s = s.
Proof.
  induction s as [|c r IH]; [reflexivity|].
  simpl no_slash; intros H; apply andb_true_iff in H as [Hc Hr].
  apply negb_true_iff in Hc.
  rewrite before_comment_cons by exact Hc. rewrite (IH Hr); reflexivity.
Qed.

Lemma rstrip_digits s : Py.all_digits s = true -> Py.rstrip s = s.
Proof.
  induction s as [|c r IH]; [reflexivity|].
  simpl; intros H; apply andb_true_iff in H as [Hc Hr].
  rewrite (IH Hr), (digit_not_space _ Hc). destruct r; reflexivity.
Qed.

Lemma rstrip_app_digits s t :
  Py.all_digits t = true -> t <> EmptyString -> Py.rstrip (s ++ t) = s ++ t.
Proof.
  intros Ht Hne. induction s as [|c r IH].
  - apply rstrip_digits, Ht.
  - change (String c r ++ t) with (String c (r ++ t)).
    simpl. rewrite IH. destruct (r ++ t) eqn:E; [|reflexivity].
    destruct r; simpl in E; [congruence | discriminate].
Qed.

Lemma split_from_digits s cur :
  Py.all_digits s = true -> Py.split_from s cur true = [cur ++ s].
Proof.
  revert cur; induction s as [|c r IH]; intros cur H; simpl.
  - f_equal. induction cur; simpl; congruence.
  - simpl in H; apply andb_true_iff in H as [Hc Hr].
    rewrite (digit_not_space _ Hc), (IH _ Hr). f_equal.
    induction cur; simpl; congruence.
Qed.

Lemma split_digits s :
  Py.isdigit s = true -> Py.split_from s EmptyString false = [s].
Proof.
  destruct s as [|c r]; [discriminate|].
  intros H; simpl in H. apply andb_true_iff in H as [Hc Hr].
  simpl. rewrite (digit_not_space _ Hc).
  apply (split_from_digits r (String c EmptyString) Hr).
Qed.

(** *** Labels end in their counter *)

Lemma digits_no_colon s : Py.all_digits s = true -> has_colon s = false.
Proof.
  induction s as [|c r IH]; [reflexivity|].
  simpl; intros H; apply andb_true_iff in H as [Hc Hr].
  rewrite (digit_not_colon _ Hc), (IH Hr); reflexivity.
Qed.

Lemma has_colon_app s t : has_colon (s ++ t) = has_colon s || has_colon t.
Proof.
  induction s as [|c r IH]; [reflexivity|].
  simpl. rewrite IH, orb_assoc; reflexivity.
Qed.

Lemma after_last_colon_app s d :
  has_colon d = false -> after_last_colon (s ++ String ":" d) = d.
Proof.
  intros H. induction s as [|c r IH]; simpl.
  - rewrite H; reflexivity.
  - rewrite has_colon_app. simpl. rewrite orb_true_r. exact IH.
Qed.

Lemma returnName_counter f k :
  0 <= k -> after_last_colon (returnName f k) = Py.str k.
Proof.
  intros Hk. unfold returnName.
  replace (f ++ ".RETURN" ++ ":" ++ Py.str k)
    with ((f ++ ".RETURN") ++ String ":" (Py.str k)).
  - apply after_last_colon_app, digits_no_colon, str_all_digits, Hk.
  - induction f as [|c r IH]; simpl; [reflexivity | rewrite IH; reflexivity].
Qed.

(** Return labels with different counters differ, whatever the names. *)
Lemma returnName_inj f g j k :
  0 <= j -> 0 <= k -> returnName f j = returnName g k -> j = k.
Proof.
  intros Hj Hk E. apply str_inj; [exact Hj | exact Hk |].
  rewrite <- (returnName_counter f j Hj), <- (returnName_counter g k Hk), E.
  reflexivity.
Qed.

Lemma compareLabel_inj j k :
  0 <= j -> 0 <= k -> compareLabel j = compareLabel k -> j = k.
Proof.
  intros Hj Hk E. apply str_inj; [exact Hj | exact Hk |].
  unfold compareLabel in E. simpl in E. congruence.
Qed.

End SourceFacts.

(* ================================================================== *)
(** ** Facts about the emitted code *)

Module CodeFacts.
Import TextFacts CpuFacts SourceFacts.

(** *** Proof steps shared by the statements about running code *)

Ltac run_block_tac :=
  cbn [exec_block exec_instr eval operand_value A D RAM toA toD toM fst].

(** Reads through updates, and word arithmetic that does not wrap. *)
Ltac mem_step :=
  match goal with
  | |- context [upd ?m ?a ?v ?a] => rewrite (upd_same m a v)
  | |- context [upd ?m ?a ?v ?x] => rewrite (upd_other m a v x) by lia
  | |- context [wrap ?x] => rewrite (wrap_small x) by lia
  | |- context [?x + ?y - ?y] => rewrite (Z.add_simpl_r x y)
  end.

Ltac mem_norm := repeat mem_step.

Ltac text_norm :=
  cbv [GeneratePushCode GeneratePopCode];
  cbn [MemorySegment.eqb MemorySegment.value MemorySegment.name Z.eqb Z.ltb
       Z.compare Pos.compare Pos.compare_cont Pos.eqb app String.append].

(** Predefined symbols stand for their addresses. *)
Ltac resolve_names :=
  repeat match goal with
  | |- context [resolve ?l ?o ?s] =>
      let p := eval vm_compute in (predefined s) in
      match p with
      | Some ?a => change (resolve l o s) with a
      end
  end.

Lemma exec_block_cons i r m :
  exec_block (i :: r) m = exec_block r (fst (exec_instr i m)).
Proof. reflexivity. Qed.

(** One instruction of a block, then the memory terms put in order. *)
Ltac block_step :=
  rewrite exec_block_cons;
  cbn [exec_instr eval operand_value A D RAM toA toD toM fst];
  mem_norm.

(** *** Lines with a variable part, as the generators write them *)

Lemma parse_number_line idx :
  Py.isdigit idx = true -> Py.int_of_digits idx <= 32767 ->
  parse (String "@" idx) = Some (AInstr (Num (Py.int_of_digits idx))).
Proof. apply parse_at_number. Qed.

Lemma parse_symbol_line s :
  is_symbol s = true -> parse (String "@" s) = Some (AInstr (Sym s)).
Proof. apply parse_at_symbol. Qed.

Lemma parse_comment_line t :
  parse (tabs ++ String "/" (String "/" t)) = Some Blank.
Proof. reflexivity. Qed.

Lemma parse_label_line s :
  is_symbol s = true -> parse (String "(" (s ++ ")")) = Some (LabelDef s).
Proof. apply parse_label. Qed.

Lemma parse_label_comment_line s t :
  is_symbol s = true ->
  parse (String "(" (s ++ String ")" (tabs ++ String "/" (String "/" t))))
  = Some (LabelDef s).
Proof. apply parse_label_comment. Qed.

Lemma register_symbol k : 0 <= k -> is_symbol (String "R" (Py.str k)) = true.
Proof.
  intros H. change (String "R" (Py.str k)) with ("R" ++ Py.str k).
  apply is_symbol_app; [reflexivity|].
  apply all_digits_symbol_chars, str_all_digits, H.
Qed.

Lemma static_symbol file idx :
  is_symbol file = true -> Py.isdigit idx = true ->
  is_symbol (file ++ String "." idx) = true.
Proof.
  intros Hf Hd. apply is_symbol_app; [exact Hf|].
  simpl. apply all_digits_symbol_chars, isdigit_all_digits, Hd.
Qed.

Lemma compare_label_symbol n : 0 <= n -> is_symbol (compareLabel n) = true.
Proof.
  intros H. apply is_symbol_app; [reflexivity|].
  apply all_digits_symbol_chars, str_all_digits, H.
Qed.

Lemma return_label_symbol f k :
  is_symbol f = true -> 0 <= k -> is_symbol (returnName f k) = true.
Proof.
  intros Hf Hk. apply is_symbol_app; [exact Hf|].
  change (all_symbol_chars (".RETURN:" ++ Py.str k) = true).
  rewrite all_symbol_chars_app.
  rewrite (all_digits_symbol_chars _ (str_all_digits k Hk)). reflexivity.
Qed.

Lemma resolve_label s a l other :
  predefined s = None -> resolve ((s, a) :: l) other s = a.
Proof.
  intros H; unfold resolve; rewrite H; simpl.
  rewrite String.eqb_refl; reflexivity.
Qed.

Lemma resolve_predefined labels other s a :
  predefined s = Some a -> resolve labels other s = a.
Proof. intros H; unfold resolve; rewrite H; reflexivity. Qed.

(** Assembling the text of a push or pop. *)
Ltac assemble_access :=
  unfold assemble; text_norm; cbn [parse_all];
  rewrite ?parse_comment_line;
  rewrite ?parse_number_line by assumption;
  rewrite ?parse_symbol_line
    by first [ apply register_symbol; lia | apply static_symbol; assumption ];
  lazy -[resolve Py.int_of_digits Py.str String.append wrap Z.add];
  resolve_names.

(** Assembling text without a variable part. *)
Ltac exec_concrete :=
  match goal with
  | |- exec ?o ?t ?m = Some _ =>
      let c := eval vm_compute in (assemble o t) in
      match c with
      | Some ?code =>
          apply (exec_straight o t code m);
          [vm_compute; reflexivity | reflexivity]
      end
  end.

Lemma run_step rom k pc m pc' m' :
  pc <> Z.of_nat (List.length rom) ->
  step rom (pc, m) = Some (pc', m') ->
  run rom (S k) pc m = run rom k pc' m'.
Proof.
  intros Hpc Hs. cbn [run]. apply Z.eqb_neq in Hpc.
  rewrite Hpc, Hs. reflexivity.
Qed.

(** *** Comparisons *)

Lemma comparison_assembled other cType n :
  0 <= n ->
  assemble other (GenerateComparisonCode cType n)
  = Some (compare_prefix
            ++ [Compute (mkDest false false false) ValD (compare_jump cType)]
            ++ compare_suffix)%list.
Proof.
  intros Hn. pose proof (compare_label_symbol n Hn) as Hs.
  unfold assemble, GenerateComparisonCode.
  set (L := compareLabel n) in *.
  destruct cType; cbn [ComparisonType.name app String.append parse_all];
    rewrite parse_comment_line, (parse_symbol_line L Hs), (parse_label_line L Hs);
    lazy -[resolve L]; resolve_names;
    rewrite resolve_label by reflexivity; reflexivity.
Qed.

Lemma signed_difference x y :
  0 <= x < 65536 -> 0 <= y < 65536 ->
  -32768 <= signed x - signed y <= 32767 ->
  signed (wrap (x - y)) = signed x - signed y.
Proof.
  unfold signed, wrap. intros Hx Hy.
  destruct (Z.ltb_spec x 32768), (Z.ltb_spec y 32768),
           (Z.ltb_spec ((x - y) mod 65536) 32768);
    intros Hdiff; Z.div_mod_to_equations; lia.
Qed.

Lemma comparison_outcome_exact cType x y :
  0 <= x < 65536 -> 0 <= y < 65536 ->
  -32768 <= signed x - signed y <= 32767 ->
  comparison_outcome cType x y = relation_holds cType (signed x) (signed y).
Proof.
  intros Hx Hy H. unfold comparison_outcome, relation_holds.
  rewrite (signed_difference x y Hx Hy H).
  destruct cType.
  - destruct (Z.eqb_spec (signed x - signed y) 0),
             (Z.eqb_spec (signed x) (signed y)); lia.
  - destruct (Z.ltb_spec 0 (signed x - signed y)),
             (Z.ltb_spec (signed y) (signed x)); lia.
  - destruct (Z.ltb_spec (signed x - signed y) 0),
             (Z.ltb_spec (signed x) (signed y)); lia.
Qed.

Lemma equality_outcome_exact x y :
  0 <= x < 65536 -> 0 <= y < 65536 ->
  comparison_outcome ComparisonType.EQ x y = (signed x =? signed y).
Proof.
  intros Hx Hy. unfold comparison_outcome, signed, wrap.
  destruct (Z.ltb_spec x 32768), (Z.ltb_spec y 32768),
           (Z.ltb_spec ((x - y) mod 65536) 32768);
  match goal with |- (?a =? ?b) = (?c =? ?d) =>
    destruct (Z.eqb_spec a b), (Z.eqb_spec c d); try reflexivity;
    exfalso; Z.div_mod_to_equations; lia end.
Qed.

(** Running a comparison: the stack shrinks by one cell, and the new
    top holds all ones or zero according to the sign test. *)
Lemma comparison_exec other cType n a d ram :
  0 <= n ->
  2 < ram 0 < 65536 ->
  exists m',
  exec other (GenerateComparisonCode cType n) (mkMachine a d ram) = Some m' /\
  RAM m' 0 = ram 0 - 1 /\
  RAM m' (ram 0 - 2) =
    (if comparison_outcome cType (ram (ram 0 - 2)) (ram (ram 0 - 1))
     then 65535 else 0) /\
  (forall c, c <> 0 -> c <> ram 0 - 2 -> RAM m' c = ram c).
Proof.
  intros Hn Hsp. unfold exec. rewrite (comparison_assembled other cType n Hn).
  set (J := Compute (mkDest false false false) ValD (compare_jump cType)).
  set (rom := (compare_prefix ++ [J] ++ compare_suffix)%list).
  change (List.length rom) with (8 + 4)%nat.
  pose proof (run_block compare_prefix [] ([J] ++ compare_suffix) 4
                (mkMachine a d ram) eq_refl) as R.
  change ([] ++ compare_prefix ++ [J] ++ compare_suffix)%list with rom in R.
  change (List.length compare_prefix + 4)%nat with (8 + 4)%nat in R.
  change (Z.of_nat (List.length (@nil instr))) with 0 in R.
  change (Z.of_nat (List.length (@nil instr) + List.length compare_prefix))
    with 8 in R.
  rewrite R; clear R.
  unfold compare_prefix at 1. run_block_tac.
  change (wrap (-1)) with 65535.
  mem_norm.
  replace (ram 0 - 1 - 1) with (ram 0 - 2) by lia.
  mem_norm.
  set (dv := wrap (ram (ram 0 - 2) - ram (ram 0 - 1))).
  set (m1 := mkMachine 12 dv _).
  assert (Hstep : step rom (8, m1) =
            Some (if jumps (compare_jump cType) dv then 12 else 9, m1)).
  { unfold step. change (fetch rom 8) with (Some J). unfold J, m1.
    cbn [exec_instr eval toA toD toM A D RAM]. reflexivity. }
  rewrite (run_step rom 3 8 m1 _ _ ltac:(discriminate) Hstep).
  assert (Hout : jumps (compare_jump cType) dv
                 = comparison_outcome cType (ram (ram 0 - 2)) (ram (ram 0 - 1))).
  { unfold comparison_outcome. fold dv. destruct cType; reflexivity. }
  rewrite <- Hout.
  destruct (jumps (compare_jump cType) dv).
  - exists m1. split; [apply (run_end rom 3 m1)|].
    unfold m1; cbn [RAM]. repeat split; intros; mem_norm; reflexivity.
  - pose proof (run_block compare_suffix (compare_prefix ++ [J]) [] 0 m1 eq_refl)
      as R.
    change ((compare_prefix ++ [J]) ++ compare_suffix ++ [])%list with rom in R.
    change (List.length compare_suffix + 0)%nat with 3%nat in R.
    change (Z.of_nat (List.length (compare_prefix ++ [J])%list)) with 9 in R.
    rewrite R; clear R.
    eexists. split; [apply (run_end rom 0)|].
    unfold m1, compare_suffix. run_block_tac. mem_norm.
    replace (ram 0 - 1 - 1) with (ram 0 - 2) by lia.
    repeat split; intros; mem_norm; reflexivity.
Qed.

(** *** Call and return *)

Lemma call_block_spec ret n a d ram :
  0 <= n -> 16 <= ram 0 - n -> ram 0 + 5 < 65536 ->
  exec_block (call_block ret n) (mkMachine a d ram)
  = mkMachine 1 (ram 0 + 1 + 1 + 1 + 1 + 1) (frame_after_call ram ret n).
Proof.
  intros Hn Hlo Hhi. unfold call_block, push_register, frame_after_call.
  cbn [app].
  do 42 block_step.
  reflexivity.
Qed.

Lemma frame_after_call_reads ram ret n :
  0 <= n -> 16 <= ram 0 - n -> ram 0 + 5 < 65536 ->
  let fr := frame_after_call ram ret n in
  fr 0 = ram 0 + 5 /\ fr 1 = ram 0 + 5 /\ fr 2 = ram 0 - n /\
  fr (ram 0) = ret /\ fr (ram 0 + 1) = ram 1 /\ fr (ram 0 + 2) = ram 2 /\
  fr (ram 0 + 3) = ram 3 /\ fr (ram 0 + 4) = ram 4.
Proof.
  intros Hn Hlo Hhi fr. subst fr. unfold frame_after_call.
  replace (ram 0 + 2) with (ram 0 + 1 + 1) by lia.
  replace (ram 0 + 3) with (ram 0 + 1 + 1 + 1) by lia.
  replace (ram 0 + 4) with (ram 0 + 1 + 1 + 1 + 1) by lia.
  repeat split; mem_norm; lia.
Qed.

(** A return rebuilds the caller's pointers from the five cells below
    LCL and moves the top of the stack to where ARG points. *)
Lemma return_block_spec a d ram :
  21 <= ram 1 < 65536 -> 16 <= ram 2 <= ram 1 - 5 -> 16 < ram 0 < 65536 ->
  exists m',
    exec_block return_block (mkMachine a d ram) = m' /\
    A m' = ram (ram 1 - 5) /\
    RAM m' 0 = ram 2 + 1 /\
    RAM m' (ram 2) = ram (ram 0 - 1) /\
    RAM m' 1 = ram (ram 1 - 4) /\
    RAM m' 2 = ram (ram 1 - 3) /\
    RAM m' 3 = ram (ram 1 - 2) /\
    RAM m' 4 = ram (ram 1 - 1) /\
    (forall c, c <> 0 -> c <> 1 -> c <> 2 -> c <> 3 -> c <> 4 -> c <> 13 ->
               c <> ram 2 -> RAM m' c = ram c).
Proof.
  intros Hl Ha Hs.
  unfold return_block.
  do 45 block_step.
  cbn [exec_block].
  eexists; split; [reflexivity|].
  cbn [A RAM].
  repeat split; intros; mem_norm; reflexivity.
Qed.

Lemma call_loaded labels other f n ret :
  is_symbol f = true -> is_symbol ret = true -> 0 <= n <= 32767 ->
  exists ls,
    parse_all (GenerateFunctionCallCode f n ret) = Some ls /\
    encode (resolve labels other) ls
    = (call_block (resolve labels other ret) n
         ++ [At (resolve labels other f); jump_instr])%list.
Proof.
  intros Hf Hr Hn.
  assert (Hd : Py.isdigit (Py.str n) = true) by (apply str_isdigit; lia).
  assert (Hv : Py.int_of_digits (Py.str n) <= 32767)
    by (rewrite int_of_digits_str; lia).
  unfold GenerateFunctionCallCode, PushAddress.
  cbn [app String.append parse_all].
  rewrite parse_comment_line, (parse_symbol_line ret Hr),
    (parse_symbol_line f Hf), (parse_number_line _ Hd Hv),
    (parse_label_comment_line ret _ Hr).
  rewrite int_of_digits_str by lia.
  eexists; split; [lazy -[resolve]; reflexivity|].
  lazy -[resolve]. resolve_names. reflexivity.
Qed.

Lemma return_loaded res :
  (forall s a, predefined s = Some a -> res s = a) ->
  exists ls,
    parse_all GenerateReturnCode = Some ls /\
    encode res ls = (return_block ++ [jump_instr])%list.
Proof.
  intros H. eexists; split; [lazy; reflexivity|]. lazy.
  rewrite (H "LCL" 1 eq_refl), (H "ARG" 2 eq_refl), (H "THIS" 3 eq_refl),
    (H "THAT" 4 eq_refl), (H "SP" 0 eq_refl), (H "R13" 13 eq_refl).
  reflexivity.
Qed.

Lemma call_steps rom base ret n faddr a d ram :
  code_at rom base (call_block ret n ++ [At faddr; jump_instr])%list ->
  0 <= n -> 16 <= ram 0 - n -> ram 0 + 5 < 65536 ->
  steps rom 44 (base, mkMachine a d ram)
  = Some (faddr, mkMachine faddr (ram 0 + 1 + 1 + 1 + 1 + 1)
                   (frame_after_call ram ret n)).
Proof.
  intros Hc Hn Hlo Hhi.
  apply code_at_app in Hc as [Hc1 Hc2].
  change (Z.of_nat (List.length (call_block ret n))) with 42 in Hc2.
  pose proof (steps_block rom _ base (mkMachine a d ram) Hc1 eq_refl) as S1.
  change (List.length (call_block ret n)) with 42%nat in S1.
  change (base + Z.of_nat 42) with (base + 42) in S1.
  rewrite call_block_spec in S1 by lia.
  change 44%nat with (42 + 2)%nat. rewrite steps_app, S1.
  cbn [steps]. unfold step at 1.
  rewrite (code_at_head _ _ _ _ Hc2). cbn [exec_instr D RAM].
  unfold step. rewrite (code_at_head _ _ _ _ (code_at_tail _ _ _ _ Hc2)).
  reflexivity.
Qed.

Lemma return_steps rom base a d ram :
  code_at rom base (return_block ++ [jump_instr])%list ->
  21 <= ram 1 < 65536 -> 16 <= ram 2 <= ram 1 - 5 -> 16 < ram 0 < 65536 ->
  exists m',
    steps rom 46 (base, mkMachine a d ram) = Some (ram (ram 1 - 5), m') /\
    RAM m' 0 = ram 2 + 1 /\
    RAM m' (ram 2) = ram (ram 0 - 1) /\
    RAM m' 1 = ram (ram 1 - 4) /\
    RAM m' 2 = ram (ram 1 - 3) /\
    RAM m' 3 = ram (ram 1 - 2) /\
    RAM m' 4 = ram (ram 1 - 1) /\
    (forall c, c <> 0 -> c <> 1 -> c <> 2 -> c <> 3 -> c <> 4 -> c <> 13 ->
               c <> ram 2 -> RAM m' c = ram c).
Proof.
  intros Hc Hl Ha Hs.
  apply code_at_app in Hc as [Hr1 Hr2].
  change (Z.of_nat (List.length return_block)) with 45 in Hr2.
  pose proof (steps_block rom _ base (mkMachine a d ram) Hr1 eq_refl) as S3.
  change (List.length return_block) with 45%nat in S3.
  change (base + Z.of_nat 45) with (base + 45) in S3.
  destruct (return_block_spec a d ram Hl Ha Hs) as (m45 & E & RA & R).
  rewrite E in S3. clear E.
  exists (fst (exec_instr jump_instr m45)). split.
  - change 46%nat with (45 + 1)%nat. rewrite steps_app, S3.
    cbn [steps].
    rewrite (step_jump rom _ m45 _ _ (code_at_head _ _ _ _ Hr2)).
    rewrite RA. reflexivity.
  - exact R.
Qed.

End CodeFacts.

(* ================================================================== *)
(** ** Running a push, a pop, an arithmetic command *)

Module StackFacts.
Import TextFacts CpuFacts SourceFacts CodeFacts.

(** A push: the stack pointer moves up by one, the cell it pointed to
    receives the value, nothing else changes. *)
Lemma push_exec other seg idx file m :
  access_ok seg idx file = true ->
  0 < SP m < 65535 ->
  exists m', exec other (GeneratePushCode seg idx file) m = Some m' /\
     SP m' = SP m + 1 /\
     (forall a, a <> 0 -> a <> SP m -> RAM m' a = RAM m a) /\
     RAM m' (SP m) =
       match seg with
       | MemorySegment.Constant => Py.int_of_digits idx
       | _ => RAM m (segment_cell other m seg idx file)
       end.
Proof.
  intros Hok Hsp.
  unfold access_ok in Hok. apply andb_true_iff in Hok as [Hd Hok].
  pose proof (int_of_digits_nonneg idx) as Hi.
  destruct m as [a d ram]. unfold SP, segment_cell in *. cbn [RAM A] in *.
  destruct seg; try discriminate; try congruence;
    try (apply Z.leb_le in Hok);
    (eexists; split;
      [ eapply exec_straight; [assemble_access; reflexivity | reflexivity] | ]).
  all: run_block_tac.
  all: cbn [MemorySegment.value String.append] in *.
  all: mem_norm.
  all: repeat split; intros; mem_norm; reflexivity.
Qed.

(** A pop: the stack pointer moves down by one; the destination cell
    and the scratch cell R13 are the only other cells written. *)
Lemma pop_exec other seg idx file m :
  access_ok seg idx file = true ->
  seg <> MemorySegment.Constant ->
  0 < SP m < 65536 ->
  segment_cell other m seg idx file <> 0 ->
  exists m', exec other (GeneratePopCode seg idx file) m = Some m' /\
     SP m' = SP m - 1 /\
     (forall a, a <> 0 -> a <> 13 -> a <> segment_cell other m seg idx file ->
                RAM m' a = RAM m a) /\
     (segment_cell other m seg idx file <> 13 ->
      RAM m' 13 = segment_cell other m seg idx file) /\
     (16 < SP m ->
      RAM m' (segment_cell other m seg idx file) = RAM m (SP m - 1)).
Proof.
  intros Hok Hc Hsp Hcell.
  unfold access_ok in Hok. apply andb_true_iff in Hok as [Hd Hok].
  pose proof (int_of_digits_nonneg idx) as Hi.
  destruct m as [a d ram]. unfold SP, segment_cell in *. cbn [RAM A] in *.
  destruct seg; try discriminate; try congruence;
    try (apply Z.leb_le in Hok);
    (eexists; split;
      [ eapply exec_straight; [assemble_access; reflexivity | reflexivity] | ]).
  all: run_block_tac.
  all: cbn [MemorySegment.value String.append] in *.
  all: match type of Hcell with ?c <> 0 => set (cell := c) in * end.
  all: mem_norm.
  all: repeat split; intros; mem_norm; reflexivity.
Qed.

(** The text of a pop from the constant segment. *)
Lemma pop_constant_text idx file :
  GeneratePopCode MemorySegment.Constant idx file
  = [ tabs ++ "//Pop Constant " ++ idx;
      "D=A"; "@R13"; "M=D"; "@SP"; "M=M-1"; "A=M"; "D=M";
      "@R13"; "A=M"; "M=D" ].
Proof. reflexivity. Qed.

(** Running it: the value goes to the cell the A register pointed to. *)
Lemma pop_constant_exec other idx file m :
  16 < SP m < 65536 ->
  exists m', exec other (GeneratePopCode MemorySegment.Constant idx file) m
             = Some m' /\
     RAM m' (A m) = RAM m (SP m - 1) /\
     (A m <> 0 -> SP m' = SP m - 1).
Proof.
  intros Hsp. destruct m as [a d ram]. unfold SP in *. cbn [RAM A] in *.
  eexists; split.
  - eapply exec_straight;
      [ unfold assemble; rewrite pop_constant_text;
        cbn [parse_all String.append]; rewrite parse_comment_line;
        lazy -[resolve]; resolve_names; reflexivity
      | reflexivity ].
  - run_block_tac. mem_norm. split; [reflexivity|].
    intros Ha. mem_norm. reflexivity.
Qed.

Lemma pop_constant_parsed fileName n idx :
  Py.isdigit idx = true ->
  parse_line fileName n ("pop constant " ++ idx)
  = Processed (LPop MemorySegment.Constant idx fileName).
Proof.
  intros Hd. pose proof (isdigit_all_digits _ Hd) as Ha.
  assert (Hne : idx <> EmptyString)
    by (destruct idx; [discriminate | congruence]).
  assert (Hstrip : Py.strip ("pop constant " ++ idx) = "pop constant " ++ idx).
  { unfold Py.strip.
    change (Py.lstrip ("pop constant " ++ idx)) with ("pop constant " ++ idx).
    apply rstrip_app_digits; assumption. }
  unfold parse_line. rewrite Hstrip.
  rewrite before_comment_no_slash
    by (rewrite no_slash_app, (digits_no_slash _ Ha); reflexivity).
  rewrite Hstrip.
  change (Py.split ("pop constant " ++ idx))
    with ("pop" :: "constant" :: Py.split_from idx EmptyString false).
  rewrite (split_digits _ Hd).
  change ("pop constant " ++ idx) with (String "p" ("op constant " ++ idx)).
  cbv iota.
  unfold classify.
  change (InitializeCommandTypeDictionary "pop") with (Some CommandType.Pop).
  cbv iota beta.
  change (InitializeMemorySegmentDictionary "constant")
    with (Some MemorySegment.Constant).
  cbv iota. rewrite Hd. reflexivity.
Qed.

(** An arithmetic command on two operands [x] (below) and [y] (top). *)
Lemma arithmetic_exec other aType m x y :
  2 < SP m < 65536 ->
  RAM m (SP m - 2) = x -> RAM m (SP m - 1) = y ->
  0 <= x < 65536 -> 0 <= y < 65536 ->
  exists m', exec other (GenerateArithmeticCode aType) m = Some m' /\
    match aType with
    | ArithmeticType.Add =>
        SP m' = SP m - 1 /\ RAM m' (SP m' - 1) = wrap (x + y)
    | ArithmeticType.Sub =>
        SP m' = SP m - 1 /\ RAM m' (SP m' - 1) = wrap (x - y)
    | ArithmeticType.And =>
        SP m' = SP m - 1 /\ RAM m' (SP m' - 1) = Z.land x y
    | ArithmeticType.Or =>
        SP m' = SP m - 1 /\ RAM m' (SP m' - 1) = Z.lor x y
    | ArithmeticType.Neg =>
        SP m' = SP m /\ RAM m' (SP m' - 1) = wrap (- y)
    | ArithmeticType.Not =>
        SP m' = SP m /\ RAM m' (SP m' - 1) = wrap (Z.lnot y)
    end /\
    (forall a, a <> 0 -> a <> SP m' - 1 -> RAM m' a = RAM m a).
Proof.
  intros Hsp Hx Hy Rx Ry. destruct m as [a d ram].
  unfold SP in *. cbn [RAM] in *.
  destruct aType; (eexists; split; [exec_concrete|]);
    unfold SP; run_block_tac; mem_norm.
  all: split; [split; [reflexivity|]; mem_norm
              | intros c Hc0 Hc; mem_norm; reflexivity].
  all: try replace (ram 0 - 1 - 1) with (ram 0 - 2) by lia.
  all: try rewrite Hx; try rewrite Hy.
  - f_equal; lia.
  - reflexivity.
  - reflexivity.
  - rewrite Z.land_comm; apply wrap_land; assumption.
  - rewrite Z.lor_comm; apply wrap_lor; assumption.
  - reflexivity.
Qed.

End StackFacts.

(* ================================================================== *)
(** ** Facts about the parsing and translation loops *)

Module LoopFacts.
Import TextFacts CpuFacts SourceFacts CodeFacts.
Local Open Scope list_scope.

Lemma translate_lines_spec lines : forall c hackCommands,
  translate_lines c hackCommands lines
  = (fst (translate_lines c [] lines),
     hackCommands ++ List.concat (translations c lines)).
Proof.
  induction lines as [|line r IH]; intros c hc; simpl.
  - rewrite List.app_nil_r; reflexivity.
  - destruct (translate_line c line) as [c' t].
    rewrite (IH c' (hc ++ t)), (IH c' t).
    simpl. rewrite <- app_assoc. reflexivity.
Qed.

Lemma translations_length lines : forall c,
  List.length (translations c lines) = List.length lines.
Proof.
  induction lines as [|line r IH]; intros c; simpl; [reflexivity|].
  destruct (translate_line c line) as [c' t]. simpl. rewrite IH; reflexivity.
Qed.

Lemma final_context_cons c line r :
  fst (translate_lines c [] (line :: r))
  = fst (translate_lines (fst (translate_line c line)) [] r).
Proof.
  simpl. destruct (translate_line c line) as [c' t]. simpl.
  rewrite translate_lines_spec. reflexivity.
Qed.

(** The counters only grow, by one per call and per comparison. *)
Lemma callCount_step c line :
  callCount (fst (translate_line c line))
  = callCount c + (if is_call line then 1 else 0).
Proof. destruct line; simpl; lia. Qed.

Lemma comparisonCount_step c line :
  comparisonCount (fst (translate_line c line))
  = comparisonCount c + (if is_comparison line then 1 else 0).
Proof. destruct line; simpl; lia. Qed.

Lemma callCount_final lines : forall c,
  callCount (fst (translate_lines c [] lines))
  = callCount c + Z.of_nat (List.length (filter is_call lines)).
Proof.
  induction lines as [|line r IH]; intros c.
  - simpl. lia.
  - rewrite final_context_cons, IH, callCount_step.
    simpl filter. destruct (is_call line); simpl List.length; lia.
Qed.

Lemma comparisonCount_final lines : forall c,
  comparisonCount (fst (translate_lines c [] lines))
  = comparisonCount c + Z.of_nat (List.length (filter is_comparison lines)).
Proof.
  induction lines as [|line r IH]; intros c.
  - simpl. lia.
  - rewrite final_context_cons, IH, comparisonCount_step.
    simpl filter. destruct (is_comparison line); simpl List.length; lia.
Qed.

Lemma call_labels_above lines : forall c l,
  In l (call_labels c lines) ->
  exists f k, l = returnName f k /\ callCount c < k.
Proof.
  induction lines as [|line r IH]; intros c l H; [contradiction|].
  pose proof (callCount_step c line) as S.
  destruct line; simpl in S, H;
    try (apply IH in H as (f & k & -> & Hk); exists f, k; split;
         [reflexivity | simpl in Hk; lia]).
  destruct H as [<- | H].
  - eexists _, _. split; [reflexivity|]. simpl. lia.
  - apply IH in H as (f & k & -> & Hk). exists f, k. split; [reflexivity|].
    simpl in Hk. lia.
Qed.

Lemma compare_labels_above lines : forall c l,
  In l (compare_labels c lines) ->
  exists k, l = compareLabel k /\ comparisonCount c < k.
Proof.
  induction lines as [|line r IH]; intros c l H; [contradiction|].
  pose proof (comparisonCount_step c line) as S.
  destruct line; simpl in S, H;
    try (apply IH in H as (k & -> & Hk); exists k; split;
         [reflexivity | simpl in Hk; lia]).
  destruct H as [<- | H].
  - eexists. split; [reflexivity|]. simpl. lia.
  - apply IH in H as (k & -> & Hk). exists k. split; [reflexivity|].
    simpl in Hk. lia.
Qed.

Lemma call_labels_distinct lines : forall c,
  0 <= callCount c -> NoDup (call_labels c lines).
Proof.
  induction lines as [|line r IH]; intros c Hc; [constructor|].
  pose proof (callCount_step c line) as S.
  simpl. destruct line; simpl in S; try (apply IH; simpl; lia).
  constructor.
  - intros H. apply call_labels_above in H as (f & k & E & Hk).
    simpl in Hk.
    assert (callCount c + 1 = k) by (apply (returnName_inj name f); [lia | lia | exact E]).
    lia.
  - apply IH. simpl. lia.
Qed.

Lemma compare_labels_distinct lines : forall c,
  0 <= comparisonCount c -> NoDup (compare_labels c lines).
Proof.
  induction lines as [|line r IH]; intros c Hc; [constructor|].
  pose proof (comparisonCount_step c line) as S.
  simpl. destruct line; simpl in S; try (apply IH; simpl; lia).
  constructor.
  - intros H. apply compare_labels_above in H as (k & E & Hk).
    simpl in Hk.
    assert (comparisonCount c + 1 = k) by (apply compareLabel_inj; [lia | lia | exact E]).
    lia.
  - apply IH. simpl. lia.
Qed.

(** Each label is the one written into the code of its command. *)
Lemma call_label_emitted c name n :
  let c' := fst (translate_line c (LCall name n)) in
  In ("@" ++ returnName name (callCount c'))%string
     (snd (translate_line c (LCall name n))).
Proof. simpl. right. left. reflexivity. Qed.

Lemma compare_label_emitted c cType :
  let c' := fst (translate_line c (LComparison cType)) in
  In ("@" ++ compareLabel (comparisonCount c'))%string
     (snd (translate_line c (LComparison cType))).
Proof.
  simpl. unfold GenerateComparisonCode.
  do 8 right. left. reflexivity.
Qed.

(** The scope of labels follows function definitions and calls alike. *)
Lemma functionName_final lines : forall c,
  functionName (fst (translate_lines c [] lines))
  = scope_after (functionName c) lines.
Proof.
  induction lines as [|line r IH]; intros c; [reflexivity|].
  rewrite final_context_cons, IH. destruct line; reflexivity.
Qed.

(** *** Assembling a program in two parts *)

Lemma parse_all_app t1 t2 :
  parse_all (t1 ++ t2) =
  match parse_all t1, parse_all t2 with
  | Some l1, Some l2 => Some (l1 ++ l2)
  | _, _ => None
  end.
Proof.
  induction t1 as [|t r IH]; simpl.
  - destruct (parse_all t2); reflexivity.
  - rewrite IH. destruct (parse t); [|reflexivity].
    destruct (parse_all r); [|reflexivity].
    destruct (parse_all t2); reflexivity.
Qed.

Lemma encode_app res l1 l2 :
  encode res (l1 ++ l2) = encode res l1 ++ encode res l2.
Proof.
  induction l1 as [|l r IH]; [reflexivity|].
  simpl. destruct l as [| |[n|s]|]; simpl; rewrite ?IH; reflexivity.
Qed.

(** *** Where Sys.init can come from *)

Lemma function_keyword w :
  InitializeCommandTypeDictionary w = Some CommandType.Function ->
  w = "function"%string.
Proof.
  unfold InitializeCommandTypeDictionary.
  repeat match goal with
  | |- context [String.eqb w ?s] =>
      destruct (String.eqb_spec w s); [try discriminate|]
  end; try discriminate.
  intros _. assumption.
Qed.

Lemma classify_function words fileName n name k :
  classify words fileName n = Processed (LFunction name k) ->
  exists w2, words = ["function"%string; name; w2].
Proof.
  unfold classify. destruct words as [|w0 rest]; [discriminate|].
  destruct (InitializeCommandTypeDictionary w0) as [cType|] eqn:E;
    [|destruct rest; discriminate].
  destruct cType;
    try (destruct rest as [|w1 [|w2 [|w3 rest]]]; try discriminate;
         repeat match goal with
         | |- context [match ?x with _ => _ end] => destruct x
         end; discriminate).
  apply function_keyword in E. subst w0.
  destruct rest as [|w1 [|w2 [|w3 rest]]]; try discriminate.
  destruct (Py.int w2); [|discriminate].
  intros [= -> ->]. eexists; reflexivity.
Qed.

Lemma parse_line_sys_init fileName n line p :
  parse_line fileName n line = Processed p ->
  is_sys_init_definition p = true ->
  defines_sys_init line = true.
Proof.
  intros Hp Hs. destruct p; try discriminate. simpl in Hs.
  apply String.eqb_eq in Hs. subst name.
  unfold parse_line in Hp. unfold defines_sys_init.
  destruct (Py.strip (Py.before_comment (Py.strip line))) eqn:E;
    [discriminate|].
  apply classify_function in Hp as [w2 ->]. reflexivity.
Qed.

Lemma parse_lines_sys_init fileName lines : forall st st',
  parse_lines fileName st lines = Some st' ->
  sys_init st' = true ->
  sys_init st = true \/ exists line, In line lines /\ defines_sys_init line = true.
Proof.
  induction lines as [|l r IH]; intros st st' H Hs; simpl in H.
  - injection H as <-. left; exact Hs.
  - destruct (parse_step fileName st l) as [st1|] eqn:E; [|discriminate].
    destruct (IH _ _ H Hs) as [H1 | (line & Hin & Hd)].
    + unfold parse_step in E.
      destruct (parse_line fileName (lineNumber st + 1) l) as [|p|] eqn:P;
        [injection E as <-; left; exact H1 | | discriminate].
      destruct (is_invalid p); injection E as <-; simpl in H1;
        [left; exact H1|].
      apply orb_true_iff in H1 as [H1|H1]; [left; exact H1|].
      right. exists l. split; [left; reflexivity|].
      exact (parse_line_sys_init _ _ _ _ P H1).
    + right. exists line. split; [right; exact Hin | exact Hd].
Qed.

Lemma parse_files_sys_init files : forall st st',
  parse_files st files = Some st' ->
  sys_init st' = true ->
  sys_init st = true \/
  exists fileName lines line,
    In (fileName, lines) files /\ In line lines /\ defines_sys_init line = true.
Proof.
  induction files as [|[fileName lines] r IH]; intros st st' H Hs; simpl in H.
  - injection H as <-. left; exact Hs.
  - destruct (parse_lines fileName st lines) as [st1|] eqn:E; [|discriminate].
    destruct (IH _ _ H Hs) as [H1 | (f & ls & line & Hin & Hl & Hd)].
    + destruct (parse_lines_sys_init _ _ _ _ E H1) as [H0 | (line & Hl & Hd)];
        [left; exact H0|].
      right. exists fileName, lines, line.
      split; [left; reflexivity | split; assumption].
    + right. exists f, ls, line. split; [right; exact Hin | split; assumption].
Qed.

End LoopFacts.

(* ================================================================== *)
(** ** Facts about whole programs *)

Module ProgramFacts.
Import TextFacts CpuFacts SourceFacts CodeFacts LoopFacts.
Local Open Scope list_scope.

Lemma translations_cons c line r :
  translations c (line :: r)
  = snd (translate_line c line) :: translations (fst (translate_line c line)) r.
Proof. simpl. destruct (translate_line c line); reflexivity. Qed.

Lemma call_labels_emitted lines : forall c l,
  In l (call_labels c lines) ->
  In ("@" ++ l)%string (List.concat (translations c lines)).
Proof.
  induction lines as [|line r IH]; intros c l H; [contradiction|].
  rewrite translations_cons. simpl List.concat. apply in_or_app.
  destruct line; simpl in H; try (right; apply IH; exact H).
  destruct H as [<- | H]; [|right; apply IH; exact H].
  left. apply call_label_emitted.
Qed.

Lemma compare_labels_emitted lines : forall c l,
  In l (compare_labels c lines) ->
  In ("@" ++ l)%string (List.concat (translations c lines)).
Proof.
  induction lines as [|line r IH]; intros c l H; [contradiction|].
  rewrite translations_cons. simpl List.concat. apply in_or_app.
  destruct line; simpl in H; try (right; apply IH; exact H).
  destruct H as [<- | H]; [|right; apply IH; exact H].
  left. apply compare_label_emitted.
Qed.

(** What a run writes, when it writes. *)
Lemma main_written files out :
  main files = Written out ->
  exists st,
    parse_files initialParseState files = Some st /\
    sys_init st = true /\ errors st = [] /\
    out = GenerateBootStrapCode
            ++ List.concat (translations initialContext (processedLines st)).
Proof.
  unfold main. intros H.
  destruct (parse_files initialParseState files) as [st|]; [|discriminate].
  exists st. split; [reflexivity|].
  destruct (sys_init st); [|discriminate]. split; [reflexivity|].
  destruct (errors st) as [|e r]; [|discriminate]. split; [reflexivity|].
  simpl in H. injection H as <-.
  rewrite translate_lines_spec. reflexivity.
Qed.

Lemma some_eq (T : Type) (a b : T) : Some a = Some b -> a = b.
Proof. congruence. Qed.

Lemma bootstrap_parsed : parse_all GenerateBootStrapCode = Some bootstrap_lines.
Proof. vm_compute. reflexivity. Qed.

Lemma bootstrap_encoded labels other :
  encode (resolve labels other) bootstrap_lines
  = set_stack_pointer
      ++ call_block (resolve labels other "Dummy") 0
      ++ [At (resolve labels other "Sys.init"); jump_instr].
Proof. lazy -[resolve]. resolve_names. reflexivity. Qed.

Lemma code_at_middle pre code post :
  code_at (pre ++ code ++ post) (Z.of_nat (List.length pre)) code.
Proof.
  split; [lia|].
  rewrite Nat2Z.id, skipn_app, skipn_all, Nat.sub_diag. simpl.
  rewrite firstn_app, firstn_all, Nat.sub_diag. simpl.
  apply List.app_nil_r.
Qed.

End ProgramFacts.

(* ================================================================== *)
(** ** Facts about names and numbers in the emitted text *)

Module NameFacts.
Import TextFacts CpuFacts SourceFacts CodeFacts StackFacts LoopFacts ProgramFacts.

(** *** Appending text *)

Lemma append_empty (a : string) : (a ++ "")%string = a.
Proof. induction a as [|x a IH]; simpl; [reflexivity | rewrite IH; reflexivity]. Qed.

Lemma append_assoc3 (a b c : string) : (a ++ b ++ c)%string = ((a ++ b) ++ c)%string.
Proof. induction a as [|x a IH]; simpl; [reflexivity | rewrite IH; reflexivity]. Qed.

(** *** Characters that occur in a name *)

Lemma mentions_app c s t : mentions c (s ++ t) = mentions c s || mentions c t.
Proof.
  induction s as [|x r IH]; [reflexivity|].
  simpl. rewrite IH, orb_assoc. reflexivity.
Qed.

Lemma predefined_plain s a :
  predefined s = Some a -> mentions "." s = false /\ mentions "$" s = false.
Proof.
  unfold predefined.
  repeat match goal with
  | |- context [String.eqb s ?k] =>
      destruct (String.eqb_spec s k) as [-> | _]; [intros _; split; reflexivity|]
  end.
  discriminate.
Qed.

Lemma digits_plain s :
  Py.all_digits s = true -> mentions "." s = false.
Proof.
  induction s as [|x r IH]; [reflexivity|].
  simpl. intros H. apply andb_true_iff in H as [Hx Hr].
  rewrite (IH Hr), orb_false_r.
  revert Hx. all_chars x; vm_compute; congruence.
Qed.

Lemma dotted_names_split f : forall g i j,
  Py.all_digits i = true -> Py.all_digits j = true ->
  f ++ "." ++ i = g ++ "." ++ j -> f = g /\ i = j.
Proof.
  induction f as [|x f IH]; intros g i j Hi Hj E.
  - destruct g as [|y g]; simpl in E.
    + injection E as E. split; [reflexivity | exact E].
    + injection E as _ E. apply digits_plain in Hi.
      rewrite E, mentions_app in Hi. simpl in Hi.
      rewrite orb_true_r in Hi. discriminate.
  - destruct g as [|y g]; simpl in E.
    + injection E as _ E. apply digits_plain in Hj.
      rewrite <- E, mentions_app in Hj. simpl in Hj.
      rewrite orb_true_r in Hj. discriminate.
    + injection E as -> E. destruct (IH g i j Hi Hj E) as [-> ->].
      split; reflexivity.
Qed.

Lemma scoped_label_not_predefined c name :
  predefined (scoped_label c name) = None.
Proof.
  destruct (predefined (scoped_label c name)) eqn:P; [|reflexivity].
  apply predefined_plain in P as [_ P]. unfold scoped_label in P.
  rewrite mentions_app in P. simpl in P. rewrite orb_true_r in P.
  discriminate.
Qed.

(** *** The names R0 to R15 are registers, later ones are not *)



(** *** Lines the assembler cannot read *)

Lemma parse_all_fails text : forall t,
  In t text -> parse t = None -> parse_all text = None.
Proof.
  induction text as [|x r IH]; intros t H P; [destruct H|].
  destruct H as [<- | H]; simpl.
  - rewrite P. reflexivity.
  - rewrite (IH t H P). destruct (parse x); reflexivity.
Qed.

Lemma parse_oversized_number idx :
  Py.isdigit idx = true -> 32767 < Py.int_of_digits idx ->
  parse ("@" ++ idx) = None.
Proof.
  intros Hd Hv. pose proof (isdigit_all_digits _ Hd) as Ha.
  apply all_digits_symbol_chars in Ha.
  unfold parse. change ("@" ++ idx) with (String "@" idx).
  rewrite before_comment_cons by reflexivity.
  rewrite (before_comment_symbol _ Ha).
  change (remove_blanks (String "@" idx)) with (String "@" (remove_blanks idx)).
  rewrite (remove_blanks_symbol _ Ha).
  unfold parse_address. rewrite Hd, (isdigit_value _ Hd).
  destruct (Z.leb_spec (Py.int_of_digits idx) 32767); [lia | reflexivity].
Qed.

Lemma str_negative n :
  n < 0 -> exists ds, Py.str n = String "-" ds /\ Py.all_digits ds = true.
Proof.
  intros H. destruct n as [|p|p]; try lia.
  eexists. split; [reflexivity|]. apply string_of_uint_digits.
Qed.

Lemma parse_negative_number n : n < 0 -> parse ("@" ++ Py.str n) = None.
Proof.
  intros H. destruct (str_negative n H) as (ds & -> & Hd).
  pose proof (all_digits_symbol_chars _ Hd) as Ha.
  unfold parse. change ("@" ++ String "-" ds) with (String "@" (String "-" ds)).
  rewrite !before_comment_cons by reflexivity.
  rewrite (before_comment_symbol _ Ha).
  change (remove_blanks (String "@" (String "-" ds)))
    with (String "@" (String "-" (remove_blanks ds))).
  rewrite (remove_blanks_symbol _ Ha).
  reflexivity.
Qed.

(** An address line that carries a trailing comment. *)
Lemma parse_symbol_comment_line s t :
  is_symbol s = true ->
  parse ("@" ++ s ++ tabs ++ "//" ++ t) = Some (AInstr (Sym s)).
Proof.
  intros Hs. pose proof (is_symbol_all _ Hs) as Ha.
  unfold parse.
  change ("@" ++ s ++ tabs ++ "//" ++ t)
    with (String "@" (s ++ tabs ++ "//" ++ t)).
  rewrite before_comment_cons by reflexivity.
  rewrite (before_comment_app _ _ Ha).
  change (Py.before_comment (tabs ++ "//" ++ t)) with tabs.
  change (remove_blanks (String "@" (s ++ tabs)))
    with (String "@" (remove_blanks (s ++ tabs))).
  rewrite remove_blanks_app, (remove_blanks_symbol _ Ha).
  change (remove_blanks tabs) with "".
  rewrite append_empty.
  unfold parse_address. rewrite (is_symbol_not_isdigit _ Hs), Hs; reflexivity.
Qed.

(** *** No translation repeats the return label of the bootstrap call *)

Lemma user_line_label s :
  mentions "$" s || mentions ":" s || mentions "F" s = true ->
  is_user_line ("(" ++ s) = true.
Proof.
  intros H. change ("(" ++ s) with (String "(" s). unfold is_user_line.
  cbn [mentions]. change (Ascii.eqb "(" "$") with false.
  change (Ascii.eqb "(" ":") with false. change (Ascii.eqb "(" "F") with false.
  exact H.
Qed.

Lemma translation_user_lines c p :
  forallb is_user_line (snd (translate_line c p)) = true.
Proof.
  destruct p as [a|a|s i f|s i f|x|x|x|x k|x k| |k];
    cbn [translate_line snd].
  - destruct a; reflexivity.
  - unfold GenerateComparisonCode.
    destruct a; cbn [app forallb]; rewrite !user_line_label;
      try reflexivity;
      unfold compareLabel; cbn [String.append mentions];
      rewrite ?orb_true_r; reflexivity.
  - destruct s; reflexivity.
  - destruct s; reflexivity.
  - cbn [forallb]. rewrite user_line_label; [reflexivity|].
    rewrite !mentions_app. cbn [mentions].
    change (Ascii.eqb "$" "$") with true. rewrite !orb_true_r. reflexivity.
  - reflexivity.
  - reflexivity.
  - unfold GenerateFunctionDefinitionCode. cbn [app forallb].
    rewrite user_line_label.
    + rewrite forallb_app.
      assert (R : forall n, forallb is_user_line
                  (List.concat (List.repeat ["M=0"; "A=A+1"] n)) = true)
        by (intros n; induction n as [|n IH]; [reflexivity | exact IH]).
      rewrite R. reflexivity.
    + rewrite !mentions_app. cbn [mentions String.append].
      change (Ascii.eqb "F" "F") with true. rewrite !orb_true_r. reflexivity.
  - unfold GenerateFunctionCallCode, PushAddress. cbn [app forallb].
    rewrite !andb_true_r.
    change (is_user_line (tabs ++ "//Call function " ++ x ++ " with  "
                            ++ Py.str k ++ " arguments")) with true.
    rewrite user_line_label; [reflexivity|].
    unfold returnName. rewrite !mentions_app. cbn [mentions String.append].
    change (Ascii.eqb ":" ":") with true. rewrite !orb_true_r. reflexivity.
  - reflexivity.
  - reflexivity.
Qed.

Lemma translations_user_lines lines : forall c l,
  In l (List.concat (translations c lines)) -> is_user_line l = true.
Proof.
  induction lines as [|p r IH]; intros c l H; [contradiction|].
  rewrite translations_cons in H. cbn [List.concat] in H.
  apply in_app_or in H as [H | H].
  - pose proof (translation_user_lines c p) as F.
    rewrite forallb_forall in F. apply F, H.
  - apply (IH _ _ H).
Qed.

(** *** Static variables *)

Lemma static_name_resolved labels other file idx :
  resolve labels other (file ++ "." ++ idx)
  = symbol_cell labels other (file ++ "." ++ idx).
Proof.
  unfold resolve, symbol_cell.
  destruct (predefined (file ++ "." ++ idx)) eqn:P; [|reflexivity].
  apply predefined_plain in P as [P _].
  rewrite mentions_app in P. simpl in P. rewrite orb_true_r in P.
  discriminate.
Qed.

Lemma push_static_loaded labels other file idx :
  is_symbol file = true -> Py.isdigit idx = true ->
  exists ls,
    parse_all (GeneratePushCode MemorySegment.Static idx file) = Some ls /\
    encode (resolve labels other) ls
    = [ At (symbol_cell labels other (file ++ "." ++ idx));
        Compute (mkDest false true false) (Val RegM) JNone;
        At 0;
        Compute (mkDest false false true) (IncX RegM) JNone;
        Compute (mkDest true false false) (DecX RegM) JNone;
        Compute (mkDest false false true) ValD JNone ].
Proof.
  intros Hf Hd. eexists. split.
  - text_norm. cbn [parse_all]. rewrite parse_comment_line.
    rewrite parse_symbol_line by (apply static_symbol; assumption).
    reflexivity.
  - cbn [encode]. rewrite <- static_name_resolved. reflexivity.
Qed.

Lemma pop_static_loaded labels other file idx :
  is_symbol file = true -> Py.isdigit idx = true ->
  exists ls,
    parse_all (GeneratePopCode MemorySegment.Static idx file) = Some ls /\
    encode (resolve labels other) ls
    = [ At (symbol_cell labels other (file ++ "." ++ idx));
        Compute (mkDest false true false) (Val RegA) JNone;
        At 13;
        Compute (mkDest false false true) ValD JNone;
        At 0;
        Compute (mkDest false false true) (DecX RegM) JNone;
        Compute (mkDest true false false) (Val RegM) JNone;
        Compute (mkDest false true false) (Val RegM) JNone;
        At 13;
        Compute (mkDest true false false) (Val RegM) JNone;
        Compute (mkDest false false true) ValD JNone ].
Proof.
  intros Hf Hd. eexists. split.
  - text_norm. cbn [parse_all]. rewrite parse_comment_line.
    rewrite parse_symbol_line by (apply static_symbol; assumption).
    reflexivity.
  - cbn [encode]. rewrite <- static_name_resolved. reflexivity.
Qed.

End NameFacts.

(* ================================================================== *)
(** ** Facts about the code of a function definition *)

Module FunctionFacts.
Import TextFacts CpuFacts SourceFacts CodeFacts StackFacts LoopFacts ProgramFacts.
Import NameFacts.

Lemma clear_locals_parsed n :
  parse_all (List.concat (List.repeat [ "M=0"; "A=A+1" ] n))
  = Some (List.concat (List.repeat
            [ CInstr (mkDest false false true) Zero JNone;
              CInstr (mkDest true false false) (IncX RegA) JNone ] n)).
Proof.
  induction n as [|n IH]; [reflexivity|].
  cbn [List.repeat List.concat app parse_all]. rewrite IH. reflexivity.
Qed.

Lemma clear_locals_encoded res n :
  encode res (List.concat (List.repeat
            [ CInstr (mkDest false false true) Zero JNone;
              CInstr (mkDest true false false) (IncX RegA) JNone ] n))
  = List.concat (List.repeat clear_local n).
Proof.
  induction n as [|n IH]; [reflexivity|].
  cbn [List.repeat List.concat app encode]. rewrite IH. reflexivity.
Qed.

Lemma clear_locals_no_jump n :
  forallb no_jump (List.concat (List.repeat clear_local n)) = true.
Proof. induction n as [|n IH]; [reflexivity|]. exact IH. Qed.

Lemma function_definition_assembled other f k :
  is_symbol f = true ->
  assemble other (GenerateFunctionDefinitionCode f k)
  = Some ([ At 0; Compute (mkDest true false false) (Val RegM) JNone ]
          ++ List.concat (List.repeat clear_local (Z.to_nat k))
          ++ [ Compute (mkDest false true false) (Val RegA) JNone;
               At 0;
               Compute (mkDest false false true) ValD JNone ])%list.
Proof.
  intros Hf. unfold assemble, GenerateFunctionDefinitionCode.
  cbn [app parse_all].
  change (parse "") with (Some Blank).
  change ("(" ++ f ++ ")" ++ tabs ++ "//Function definition, " ++ Py.str k
            ++ " local variables")
    with (String "(" (f ++ String ")" (tabs ++ String "/" (String "/"
            ("Function definition, " ++ Py.str k ++ " local variables"))))).
  rewrite (parse_label_comment_line _ _ Hf).
  change (parse "@SP") with (Some (AInstr (Sym "SP"))).
  change (parse "A=M")
    with (Some (CInstr (mkDest true false false) (Val RegM) JNone)).
  rewrite parse_all_app, clear_locals_parsed.
  change (parse_all ["D=A"; "@SP"; "M=D"])
    with (Some [ CInstr (mkDest false true false) (Val RegA) JNone;
                 AInstr (Sym "SP");
                 CInstr (mkDest false false true) ValD JNone ]).
  cbv iota beta.
  cbn [label_table encode].
  rewrite encode_app, clear_locals_encoded.
  reflexivity.
Qed.

(** Clearing [n] cells from address [a] on. *)
Lemma clear_locals_run n : forall a d ram,
  0 <= a -> a + Z.of_nat n < 65536 ->
  exists ram',
    exec_block (List.concat (List.repeat clear_local n))
      (mkMachine a d ram) = mkMachine (a + Z.of_nat n) d ram' /\
    (forall c, a <= c < a + Z.of_nat n -> ram' c = 0) /\
    (forall c, ~ (a <= c < a + Z.of_nat n) -> ram' c = ram c).
Proof.
  induction n as [|n IH]; intros a d ram Ha Hn.
  - exists ram. cbn [List.repeat List.concat exec_block]. 
    replace (a + Z.of_nat 0) with a by lia.
    split; [reflexivity|]. split; [intros; lia | reflexivity].
  - cbn [List.repeat List.concat]. unfold clear_local at 1. cbn [app].
    rewrite !exec_block_cons.
    cbn [exec_instr eval operand_value A D RAM toA toD toM fst].
    rewrite (wrap_small (a + 1)) by lia.
    destruct (IH (a + 1) d (upd ram a 0) ltac:(lia) ltac:(lia))
      as (ram' & E & Z0 & Keep).
    exists ram'. rewrite E. split; [f_equal; lia|]. split.
    + intros c Hc. destruct (Z.eq_dec c a) as [-> | Hca].
      * rewrite Keep by lia. apply upd_same.
      * apply Z0. lia.
    + intros c Hc. rewrite Keep by lia. apply upd_other. lia.
Qed.

End FunctionFacts.

(* ================================================================== *)
(** ** Facts about reading a source line *)

Module LineFacts.
Import TextFacts CpuFacts SourceFacts CodeFacts StackFacts LoopFacts ProgramFacts.
Import NameFacts.

(** *** Stripping blanks *)

Lemma lstrip_space ws s : all_space ws = true -> Py.lstrip (ws ++ s) = Py.lstrip s.
Proof.
  induction ws as [|c r IH]; [reflexivity|].
  simpl. intros H. apply andb_true_iff in H as [Hc Hr].
  rewrite Hc. apply IH, Hr.
Qed.

Lemma rstrip_all_space ws : all_space ws = true -> Py.rstrip ws = "".
Proof.
  induction ws as [|c r IH]; [reflexivity|].
  simpl. intros H. apply andb_true_iff in H as [Hc Hr].
  rewrite (IH Hr), Hc. reflexivity.
Qed.

Lemma rstrip_space s ws : all_space ws = true -> Py.rstrip (s ++ ws) = Py.rstrip s.
Proof.
  intros H. induction s as [|c r IH].
  - simpl. apply rstrip_all_space, H.
  - change (String c r ++ ws) with (String c (r ++ ws)).
    simpl. rewrite IH. reflexivity.
Qed.

Lemma strip_margins ws1 s ws2 :
  all_space ws1 = true -> all_space ws2 = true ->
  Py.strip (ws1 ++ s ++ ws2) = Py.strip s.
Proof.
  intros H1 H2. unfold Py.strip. rewrite (lstrip_space _ _ H1).
  induction s as [|c r IH].
  - simpl. rewrite (rstrip_all_space (Py.lstrip ws2)); [reflexivity|].
    clear H1. induction ws2 as [|x w IHw]; [reflexivity|].
    simpl in *. apply andb_true_iff in H2 as [Hx Hw]. rewrite Hx. apply IHw, Hw.
  - change (String c r ++ ws2) with (String c (r ++ ws2)).
    simpl. destruct (Py.is_space c); [exact IH|].
    change (String c (r ++ ws2)) with (String c r ++ ws2).
    apply rstrip_space, H2.
Qed.

Lemma rstrip_idempotent s : Py.rstrip (Py.rstrip s) = Py.rstrip s.
Proof.
  induction s as [|c r IH]; [reflexivity|].
  simpl. destruct (Py.rstrip r) as [|a s0] eqn:E.
  - destruct (Py.is_space c) eqn:Hc; [reflexivity|]. simpl. rewrite Hc. reflexivity.
  - change (Py.rstrip (String c (String a s0)))
      with (match Py.rstrip (String a s0) with
            | EmptyString => if Py.is_space c then EmptyString else String c EmptyString
            | String a' s' => String c (String a' s')
            end).
    rewrite IH. reflexivity.
Qed.

Lemma lstrip_rstrip_lstrip s :
  Py.lstrip (Py.rstrip (Py.lstrip s)) = Py.rstrip (Py.lstrip s).
Proof.
  induction s as [|c r IH]; [reflexivity|].
  simpl. destruct (Py.is_space c) eqn:Hc; [exact IH|].
  simpl. destruct (Py.rstrip r); rewrite ?Hc; simpl; rewrite Hc; reflexivity.
Qed.

Lemma strip_idempotent s : Py.strip (Py.strip s) = Py.strip s.
Proof.
  unfold Py.strip. rewrite lstrip_rstrip_lstrip. apply rstrip_idempotent.
Qed.

Lemma no_slash_lstrip s : no_slash s = true -> no_slash (Py.lstrip s) = true.
Proof.
  induction s as [|c r IH]; [reflexivity|].
  intros H. simpl. destruct (Py.is_space c); [|exact H].
  simpl in H. apply andb_true_iff in H as [_ H]. apply IH, H.
Qed.

Lemma no_slash_rstrip s : no_slash s = true -> no_slash (Py.rstrip s) = true.
Proof.
  induction s as [|c r IH]; [reflexivity|].
  intros H. simpl in H. apply andb_true_iff in H as [Hc Hr].
  simpl. destruct (Py.rstrip r) as [|a s0].
  - destruct (Py.is_space c); [reflexivity|]. simpl. rewrite Hc. reflexivity.
  - change (no_slash (String c (String a s0)))
      with (negb (Ascii.eqb c "/") && no_slash (String a s0)).
    rewrite Hc, (IH Hr). reflexivity.
Qed.

(** *** Cutting the comment *)

Lemma lstrip_comment s t :
  Py.lstrip (s ++ "//" ++ t) = Py.lstrip s ++ "//" ++ t.
Proof.
  induction s as [|c r IH]; [reflexivity|].
  change (String c r ++ "//" ++ t) with (String c (r ++ "//" ++ t)).
  simpl. destruct (Py.is_space c); [exact IH | reflexivity].
Qed.

Lemma rstrip_comment s t :
  exists t', Py.rstrip (s ++ "//" ++ t) = s ++ "//" ++ t'.
Proof.
  induction s as [|c r IH].
  - simpl. destruct (Py.rstrip t) as [|a s0] eqn:E.
    + exists "". reflexivity.
    + exists (String a s0). reflexivity.
  - destruct IH as [t' E].
    change (String c r ++ "//" ++ t) with (String c (r ++ "//" ++ t)).
    change (Py.rstrip (String c (r ++ "//" ++ t)))
      with (match Py.rstrip (r ++ "//" ++ t) with
            | EmptyString =>
                if Py.is_space c then EmptyString else String c EmptyString
            | String a s0 => String c (String a s0)
            end).
    rewrite E. exists t'.
    destruct r; reflexivity.
Qed.

Lemma before_comment_cut s t :
  no_slash s = true -> Py.before_comment (s ++ "//" ++ t) = s.
Proof.
  induction s as [|c r IH]; [reflexivity|].
  intros H. simpl in H. apply andb_true_iff in H as [Hc Hr].
  apply negb_true_iff in Hc.
  change (String c r ++ "//" ++ t) with (String c (r ++ "//" ++ t)).
  rewrite before_comment_cons by exact Hc. rewrite (IH Hr). reflexivity.
Qed.

(** *** Splitting into words *)

Lemma split_from_word w : no_space w = true -> forall rest cur b,
  Py.split_from (w ++ rest) cur b
  = Py.split_from rest (cur ++ w) (b || negb (String.eqb w "")).
Proof.
  induction w as [|c r IH]; intros H rest cur b.
  - simpl. rewrite append_empty, orb_false_r. reflexivity.
  - simpl in H. apply andb_true_iff in H as [Hc Hr].
    apply negb_true_iff in Hc.
    change (String c r ++ rest) with (String c (r ++ rest)).
    cbn [Py.split_from]. rewrite Hc, (IH Hr).
    rewrite <- append_assoc3. cbn [String.append].
    rewrite orb_true_r. reflexivity.
Qed.

Lemma rstrip_app_fixed s t :
  Py.rstrip t = t -> t <> EmptyString -> Py.rstrip (s ++ t) = s ++ t.
Proof.
  intros Ht Hne. induction s as [|c r IH]; [exact Ht|].
  change (String c r ++ t) with (String c (r ++ t)).
  simpl. rewrite IH. destruct (r ++ t) eqn:E; [|reflexivity].
  destruct r; simpl in E; [congruence | discriminate].
Qed.

Lemma rstrip_no_space w : no_space w = true -> Py.rstrip w = w.
Proof.
  induction w as [|c r IH]; [reflexivity|].
  simpl. intros H. apply andb_true_iff in H as [Hc Hr].
  apply negb_true_iff in Hc. rewrite (IH Hr), Hc. destruct r; reflexivity.
Qed.

Lemma word_parts w :
  is_word w = true -> w <> "" /\ no_space w = true /\ no_slash w = true.
Proof.
  unfold is_word. intros H.
  apply andb_true_iff in H as [H Hs]. apply andb_true_iff in H as [Hn Hp].
  repeat split; try assumption.
  intros ->. discriminate.
Qed.

Lemma join_words_tokens words :
  words <> [] -> forallb is_word words = true ->
  join_words words <> "" /\
  Py.rstrip (join_words words) = join_words words /\
  Py.lstrip (join_words words) = join_words words /\
  no_slash (join_words words) = true /\
  Py.split (join_words words) = words.
Proof.
  induction words as [|w r IH]; [congruence|].
  intros _ H. simpl in H. apply andb_true_iff in H as [Hw Hr].
  destruct (word_parts _ Hw) as (Hne & Hsp & Hsl).
  assert (Hl : forall t, Py.lstrip (w ++ t) = w ++ t).
  { intros t. destruct w as [|c w']; [congruence|].
    simpl in Hsp. apply andb_true_iff in Hsp as [Hc _].
    apply negb_true_iff in Hc. simpl. rewrite Hc. reflexivity. }
  destruct r as [|w2 r2].
  - cbn [join_words]. repeat split.
    + exact Hne.
    + apply rstrip_no_space, Hsp.
    + rewrite <- (append_empty w) at 1 2. rewrite Hl. reflexivity.
    + exact Hsl.
    + unfold Py.split. rewrite <- (append_empty w) at 1.
      rewrite (split_from_word _ Hsp). simpl.
      destruct (String.eqb_spec w ""); [congruence | reflexivity].
  - destruct (IH ltac:(discriminate) Hr) as (Jne & Jr & Jl & Js & Jsplit).
    change (join_words (w :: w2 :: r2))
      with (w ++ " " ++ join_words (w2 :: r2)).
    repeat split.
    + destruct w; [congruence | discriminate].
    + rewrite append_assoc3. apply rstrip_app_fixed; assumption.
    + apply Hl.
    + rewrite !no_slash_app, Hsl, Js. reflexivity.
    + unfold Py.split. rewrite (split_from_word _ Hsp).
      change (" " ++ join_words (w2 :: r2))
        with (String " " (join_words (w2 :: r2))).
      cbn [Py.split_from]. change (Py.is_space " ") with true. cbv iota.
      destruct (String.eqb_spec w ""); [congruence|].
      simpl orb. cbv iota. cbn [String.append app].
      unfold Py.split in Jsplit. rewrite Jsplit. reflexivity.
Qed.

Lemma words_classified fileName n words :
  words <> [] -> forallb is_word words = true ->
  parse_line fileName n (join_words words) = classify words fileName n.
Proof.
  intros Hne Hw.
  destruct (join_words_tokens words Hne Hw) as (Jne & Jr & Jl & Js & Jsplit).
  unfold parse_line, Py.strip. rewrite Jl, Jr.
  rewrite (before_comment_no_slash _ Js). rewrite Jl, Jr, Jsplit.
  destruct (join_words words); [congruence | reflexivity].
Qed.

Lemma digits_word idx : Py.isdigit idx = true -> is_word idx = true.
Proof.
  intros H. pose proof (isdigit_all_digits _ H) as Ha.
  unfold is_word. rewrite (digits_no_slash _ Ha), andb_true_r.
  apply andb_true_iff. split.
  - destruct idx; [discriminate | reflexivity].
  - clear H. induction idx as [|c r IH]; [reflexivity|].
    simpl in *. apply andb_true_iff in Ha as [Hc Hr].
    rewrite (digit_not_space _ Hc), (IH Hr). reflexivity.
Qed.

Lemma str_word k : is_word (Py.str k) = true.
Proof.
  destruct (Z.lt_ge_cases k 0) as [H | H].
  - destruct (str_negative k H) as (ds & E & Hd). rewrite E.
    unfold is_word. cbn [String.eqb negb andb no_space no_slash].
    change (Py.is_space "-") with false. change (Ascii.eqb "-" "/") with false.
    cbn [negb andb].
    rewrite (digits_no_slash _ Hd), andb_true_r.
    clear E. induction ds as [|c r IH]; [reflexivity|].
    simpl in *. apply andb_true_iff in Hd as [Hc Hr].
    rewrite (digit_not_space _ Hc), (IH Hr). reflexivity.
  - apply digits_word, str_isdigit, H.
Qed.

(** *** [int] on what [str] prints *)

Lemma drop_underscores_digits s :
  Py.all_digits s = true -> Py.drop_underscores s true = Some s.
Proof.
  induction s as [|c r IH]; [reflexivity|].
  simpl. intros H. apply andb_true_iff in H as [Hc Hr].
  rewrite Hc, (IH Hr). reflexivity.
Qed.

Lemma unsigned_literal_digits s :
  Py.isdigit s = true -> Py.unsigned_literal s = Some (Py.int_of_digits s).
Proof.
  intros H. unfold Py.unsigned_literal.
  destruct s as [|c r]; [discriminate|].
  pose proof H as Ha. simpl in Ha. apply andb_true_iff in Ha as [Hc Hr].
  cbn [Py.drop_underscores]. rewrite Hc, (drop_underscores_digits _ Hr).
  apply isdigit_value, H.
Qed.

Lemma int_digits s :
  Py.isdigit s = true -> Py.int s = Some (Py.int_of_digits s).
Proof.
  intros H. rewrite <- (unsigned_literal_digits _ H).
  destruct s as [|c r]; [discriminate|].
  simpl in H. apply andb_true_iff in H as [Hc _].
  revert Hc. all_chars c; vm_compute; try congruence; reflexivity.
Qed.

Lemma int_str k : Py.int (Py.str k) = Some k.
Proof.
  destruct k as [|p|p].
  - reflexivity.
  - rewrite int_digits by (apply str_isdigit; lia).
    rewrite int_of_digits_str by lia. reflexivity.
  - change (Py.str (Z.neg p)) with (String "-" (Py.str (Z.pos p))).
    cbn [Py.int]. rewrite unsigned_literal_digits by (apply str_isdigit; lia).
    rewrite int_of_digits_str by lia. reflexivity.
Qed.

End LineFacts.

(* ================================================================== *)
(** ** Facts about the errors the parser records *)

Module ReportFacts.
Import TextFacts CpuFacts SourceFacts CodeFacts StackFacts LoopFacts ProgramFacts.
Import NameFacts LineFacts.

(** *** The line number is only used to report an invalid line *)

Lemma classify_invalid words fileName n k :
  classify words fileName n = Processed (LInvalid k) ->
  k = n /\ forall n', classify words fileName n' = Processed (LInvalid n').
Proof.
  unfold classify.
  destruct words as [|w0 [|w1 [|w2 [|w3 r]]]];
    try (destruct (InitializeCommandTypeDictionary w0) as [[]|]);
    repeat match goal with
    | |- context [match ?x with _ => _ end] => destruct x
    end;
    intros E; try discriminate E; injection E as <-; split; reflexivity.
Qed.

Lemma classify_accepted words fileName n n' :
  is_accepted (classify words fileName n)
  = is_accepted (classify words fileName n').
Proof.
  unfold classify.
  destruct words as [|w0 [|w1 [|w2 [|w3 r]]]];
    try (destruct (InitializeCommandTypeDictionary w0) as [[]|]);
    repeat match goal with
    | |- context [match ?x with _ => _ end] => destruct x
    end; reflexivity.
Qed.

Lemma parse_line_accepted fileName n n' line :
  is_accepted (parse_line fileName n line)
  = is_accepted (parse_line fileName n' line).
Proof.
  unfold parse_line.
  destruct (Py.strip (Py.before_comment (Py.strip line))); [reflexivity|].
  apply classify_accepted.
Qed.

Lemma parse_line_invalid fileName n line k :
  parse_line fileName n line = Processed (LInvalid k) -> k = n.
Proof.
  unfold parse_line.
  destruct (Py.strip (Py.before_comment (Py.strip line))); [discriminate|].
  intros H. apply classify_invalid in H. tauto.
Qed.

Lemma parse_line_invalid_any fileName n n' line :
  parse_line fileName n line = Processed (LInvalid n) ->
  parse_line fileName n' line = Processed (LInvalid n').
Proof.
  unfold parse_line.
  destruct (Py.strip (Py.before_comment (Py.strip line))); [discriminate|].
  intros H. apply classify_invalid in H as [_ H]. apply H.
Qed.

(** *** One line, one file, all files *)

Lemma parse_step_errors fileName st line st' :
  parse_step fileName st line = Some st' ->
  lineNumber st' = lineNumber st + 1 /\
  is_accepted (parse_line fileName (lineNumber st + 1) line)
  = true /\ errors st' = errors st \/
  lineNumber st' = lineNumber st + 1 /\
  parse_line fileName (lineNumber st + 1) line
  = Processed (LInvalid (lineNumber st + 1)) /\
  errors st' = (errors st ++ [LInvalid (lineNumber st + 1)])%list.
Proof.
  unfold parse_step.
  destruct (parse_line fileName (lineNumber st + 1) line) as [|p|] eqn:E;
    [ | | discriminate].
  - intros [= <-]. left. repeat split.
  - destruct (is_invalid p) eqn:I; intros [= <-]; [right | left].
    + destruct p; try discriminate I.
      rewrite (parse_line_invalid _ _ _ _ E). repeat split.
    + simpl. rewrite I. repeat split.
Qed.

Lemma error_located_more seen more e :
  error_located seen e -> error_located (seen ++ more) e.
Proof.
  intros (n & f & line & E & Hn & Hl & Hp).
  exists n, f, line. repeat split; try assumption.
  rewrite nth_error_app1; [exact Hl|].
  apply nth_error_Some. congruence.
Qed.

Lemma parse_step_located fileName st line st' seen :
  parsed_so_far seen st ->
  parse_step fileName st line = Some st' ->
  parsed_so_far (seen ++ [line]) st'.
Proof.
  intros [Hn He] H.
  assert (Hlen : Z.of_nat (List.length (seen ++ [line]))
                 = lineNumber st + 1).
  { rewrite List.length_app. simpl. lia. }
  assert (Hold : Forall (error_located (seen ++ [line])) (errors st)).
  { eapply Forall_impl; [|exact He]. intros e. apply error_located_more. }
  destruct (parse_step_errors _ _ _ _ H) as [(L & _ & E) | (L & P & E)];
    (split; [lia|]); rewrite E; [exact Hold|].
  apply Forall_app. split; [exact Hold|].
  constructor; [|constructor].
  exists (lineNumber st + 1), fileName, line.
  repeat split; try lia; try assumption.
  replace (Z.to_nat (lineNumber st + 1 - 1)) with (List.length seen) by lia.
  rewrite nth_error_app2 by lia. rewrite Nat.sub_diag. reflexivity.
Qed.

Lemma parse_lines_located fileName lines : forall st st' seen,
  parsed_so_far seen st ->
  parse_lines fileName st lines = Some st' ->
  parsed_so_far (seen ++ lines) st'.
Proof.
  induction lines as [|l r IH]; intros st st' seen I H; simpl in H.
  - injection H as <-. rewrite List.app_nil_r. exact I.
  - destruct (parse_step fileName st l) as [st1|] eqn:E; [|discriminate].
    replace (seen ++ l :: r)%list with ((seen ++ [l]) ++ r)%list
      by (rewrite <- List.app_assoc; reflexivity).
    eapply IH; [|exact H]. eapply parse_step_located; eassumption.
Qed.

Lemma parse_files_located files : forall st st' seen,
  parsed_so_far seen st ->
  parse_files st files = Some st' ->
  parsed_so_far (seen ++ all_lines files) st'.
Proof.
  induction files as [|[f lines] r IH]; intros st st' seen I H; simpl in H.
  - injection H as <-. unfold all_lines. simpl. rewrite List.app_nil_r. exact I.
  - destruct (parse_lines f st lines) as [st1|] eqn:E; [|discriminate].
    unfold all_lines. simpl. rewrite List.app_assoc.
    eapply IH; [|exact H]. eapply parse_lines_located; eassumption.
Qed.

Lemma parse_step_clean fileName st line st' :
  parse_step fileName st line = Some st' ->
  errors st' = [] ->
  errors st = [] /\
  is_accepted (parse_line fileName (lineNumber st + 1) line) = true.
Proof.
  intros H E.
  destruct (parse_step_errors _ _ _ _ H) as [(_ & A & E') | (_ & _ & E')].
  - split; [congruence | exact A].
  - rewrite E in E'. destruct (errors st); discriminate.
Qed.

Lemma parse_lines_clean fileName lines : forall st st',
  parse_lines fileName st lines = Some st' ->
  errors st' = [] ->
  errors st = [] /\
  forall line n, In line lines ->
    is_accepted (parse_line fileName n line) = true.
Proof.
  induction lines as [|l r IH]; intros st st' H E; simpl in H.
  - injection H as <-. split; [exact E | contradiction].
  - destruct (parse_step fileName st l) as [st1|] eqn:S; [|discriminate].
    destruct (IH _ _ H E) as [E1 A].
    destruct (parse_step_clean _ _ _ _ S E1) as [E0 A0].
    split; [exact E0|].
    intros line n [<- | Hin]; [|apply A, Hin].
    rewrite (parse_line_accepted _ n (lineNumber st + 1)). exact A0.
Qed.

Lemma parse_files_clean files : forall st st',
  parse_files st files = Some st' ->
  errors st' = [] ->
  errors st = [] /\
  forall fileName lines line n,
    In (fileName, lines) files -> In line lines ->
    is_accepted (parse_line fileName n line) = true.
Proof.
  induction files as [|[f lines] r IH]; intros st st' H E; simpl in H.
  - injection H as <-. split; [exact E | contradiction].
  - destruct (parse_lines f st lines) as [st1|] eqn:S; [|discriminate].
    destruct (IH _ _ H E) as [E1 A].
    destruct (parse_lines_clean _ _ _ _ S E1) as [E0 A0].
    split; [exact E0|].
    intros fileName lines' line n [[= <- <-] | Hin] Hl.
    + apply A0, Hl.
    + eapply A; eassumption.
Qed.

Lemma parse_lines_app fileName l1 : forall st l2,
  parse_lines fileName st (l1 ++ l2)
  = match parse_lines fileName st l1 with
    | Some st1 => parse_lines fileName st1 l2
    | None => None
    end.
Proof.
  induction l1 as [|l r IH]; intros st l2; [reflexivity|].
  simpl. destruct (parse_step fileName st l); [apply IH | reflexivity].
Qed.

Lemma parse_files_app f1 : forall st f2,
  parse_files st (f1 ++ f2)
  = match parse_files st f1 with
    | Some st1 => parse_files st1 f2
    | None => None
    end.
Proof.
  induction f1 as [|[f l] r IH]; intros st f2; [reflexivity|].
  simpl. destruct (parse_lines f st l); [apply IH | reflexivity].
Qed.

(** *** A line on which [int] raises *)

Lemma classify_raised words fileName n fileName' n' :
  classify words fileName n = Raised -> classify words fileName' n' = Raised.
Proof.
  unfold classify.
  destruct words as [|w0 [|w1 [|w2 [|w3 r]]]];
    try (destruct (InitializeCommandTypeDictionary w0) as [[]|]);
    repeat match goal with
    | |- context [match ?x with _ => _ end] => destruct x
    end;
    intros E; try discriminate E; reflexivity.
Qed.

Lemma parse_line_raised fileName n n' line :
  parse_line fileName n line = Raised -> parse_line fileName n' line = Raised.
Proof.
  unfold parse_line.
  destruct (Py.strip (Py.before_comment (Py.strip line))); [discriminate|].
  apply classify_raised.
Qed.

Lemma parse_lines_raised fileName lines : forall st line n,
  In line lines -> parse_line fileName n line = Raised ->
  parse_lines fileName st lines = None.
Proof.
  induction lines as [|l r IH]; intros st line n Hin Hr; [contradiction|].
  simpl. destruct Hin as [-> | Hin].
  - unfold parse_step.
    rewrite (parse_line_raised _ n (lineNumber st + 1) _ Hr). reflexivity.
  - destruct (parse_step fileName st l); [|reflexivity].
    apply (IH _ line n Hin Hr).
Qed.

Lemma parse_files_raised files : forall st fileName lines line n,
  In (fileName, lines) files -> In line lines ->
  parse_line fileName n line = Raised ->
  parse_files st files = None.
Proof.
  induction files as [|[f ls] r IH]; intros st fileName lines line n Hf Hl Hr;
    [contradiction|].
  simpl. destruct Hf as [[= -> ->] | Hf].
  - rewrite (parse_lines_raised _ _ st line n Hl Hr). reflexivity.
  - destruct (parse_lines f st ls); [|reflexivity].
    apply (IH _ fileName lines line n Hf Hl Hr).
Qed.

(** *** The report *)

Lemma print_errors_out_of_range lines errors n :
  In (LInvalid n) errors -> Z.of_nat (List.length lines) < n ->
  print_errors lines errors = None.
Proof.
  intros Hin Hn. induction errors as [|e r IH]; [contradiction|].
  destruct Hin as [-> | Hin].
  - cbn [print_errors]. unfold list_index.
    destruct (Z.ltb_spec (n - 1) 0); [lia|].
    destruct (nth_error lines (Z.to_nat (n - 1))) eqn:E; [|reflexivity].
    assert (nth_error lines (Z.to_nat (n - 1)) <> None) as X by congruence.
    apply nth_error_Some in X. lia.
  - destruct e as [a|a|s i f|s i f|x|x|x|x k|x k| |k]; try reflexivity.
    cbn [print_errors].
    rewrite (IH Hin). destruct (list_index lines (k - 1)); reflexivity.
Qed.

Lemma last_file_lines_app files fileName lines :
  last_file_lines (files ++ [(fileName, lines)])%list = List.map Py.strip lines.
Proof. unfold last_file_lines. rewrite List.rev_app_distr. reflexivity. Qed.

End ReportFacts.

(* ================================================================== *)
(** ** Facts about labels, branches and whole programs *)

Module BranchFacts.
Import TextFacts CpuFacts SourceFacts CodeFacts StackFacts LoopFacts ProgramFacts.
Import NameFacts FunctionFacts.
Local Open Scope list_scope.

(** *** The translation of the command at a given position *)

Lemma translations_app l1 : forall c l2,
  translations c (l1 ++ l2)
  = translations c l1 ++ translations (fst (translate_lines c [] l1)) l2.
Proof.
  induction l1 as [|l r IH]; intros c l2; [reflexivity|].
  rewrite final_context_cons. rewrite <- List.app_comm_cons.
  rewrite !translations_cons, IH. reflexivity.
Qed.

Lemma translation_at c before b after :
  nth_error (translations c (before ++ b :: after)) (List.length before)
  = Some (snd (translate_line (fst (translate_lines c [] before)) b)).
Proof.
  rewrite translations_app, nth_error_app2
    by (rewrite translations_length; lia).
  rewrite translations_length, Nat.sub_diag, translations_cons. reflexivity.
Qed.

Lemma scope_after_quiet q : forall s,
  forallb keeps_scope q = true -> scope_after s q = s.
Proof.
  induction q as [|l r IH]; intros s H; [reflexivity|].
  simpl in H. apply andb_true_iff in H as [Hl Hr].
  destruct l; try discriminate Hl; simpl; apply IH, Hr.
Qed.

Lemma scope_after_app p : forall s q,
  scope_after s (p ++ q) = scope_after (scope_after s p) q.
Proof.
  induction p as [|l r IH]; intros s q; [reflexivity|].
  destruct l; simpl; apply IH.
Qed.

(** *** Label tables of a text in two parts *)

Lemma encode_length res1 res2 ls :
  List.length (encode res1 ls) = List.length (encode res2 ls).
Proof.
  induction ls as [|l r IH]; [reflexivity|].
  destruct l as [| |[n|s]|]; simpl; rewrite ?IH; reflexivity.
Qed.

Lemma label_table_app res l1 : forall l2 addr,
  label_table (l1 ++ l2) addr
  = label_table l1 addr
    ++ label_table l2 (addr + Z.of_nat (List.length (encode res l1))).
Proof.
  induction l1 as [|l r IH]; intros l2 addr.
  - simpl. f_equal. lia.
  - destruct l as [| |[n|s]|]; simpl; rewrite IH; try reflexivity;
      try (f_equal; f_equal; lia).
Qed.

Lemma lookup_app t1 t2 s :
  lookup (t1 ++ t2) s
  = match lookup t1 s with Some a => Some a | None => lookup t2 s end.
Proof.
  induction t1 as [|[k v] r IH]; [reflexivity|].
  simpl. destruct (String.eqb k s); [reflexivity | exact IH].
Qed.

(** *** The text of label, goto and if-goto *)

Lemma label_text_parsed c name :
  is_symbol (scoped_label c name) = true ->
  parse_all (snd (translate_line c (LLabel name)))
  = Some [Blank; LabelDef (scoped_label c name); Blank].
Proof.
  intros Hs. cbn [translate_line snd parse_all].
  replace ("(" ++ functionName c ++ "$" ++ name ++ ")")%string
    with (String "(" (scoped_label c name ++ ")"))
    by (unfold scoped_label; rewrite <- !append_assoc3; reflexivity).
  rewrite (parse_label_line _ Hs). reflexivity.
Qed.

Lemma goto_text_parsed c name :
  is_symbol (scoped_label c name) = true ->
  parse_all (snd (translate_line c (LGoto name)))
  = Some [AInstr (Sym (scoped_label c name));
          CInstr (mkDest false false false) Zero JMP].
Proof.
  intros Hs. cbn [translate_line snd parse_all].
  replace ("@" ++ functionName c ++ "$" ++ name ++ tabs ++ "//Goto label "
             ++ functionName c ++ "$" ++ name)%string
    with ("@" ++ scoped_label c name ++ tabs ++ "//"
             ++ "Goto label " ++ functionName c ++ "$" ++ name)%string
    by (unfold scoped_label; rewrite <- !append_assoc3; reflexivity).
  rewrite (parse_symbol_comment_line _ _ Hs). reflexivity.
Qed.

Lemma if_goto_text_parsed c name :
  is_symbol (scoped_label c name) = true ->
  exists ls, parse_all (snd (translate_line c (LIfGoto name))) = Some ls.
Proof.
  intros Hs. cbn [translate_line snd parse_all].
  change (tabs ++ "//If-Goto label " ++ functionName c ++ "$" ++ name)%string
    with (tabs ++ String "/" (String "/"
            ("If-Goto label " ++ functionName c ++ "$" ++ name)))%string.
  rewrite parse_comment_line.
  change ("@" ++ functionName c ++ "$" ++ name)%string
    with (String "@" (scoped_label c name)).
  rewrite (parse_symbol_line _ Hs). eexists. reflexivity.
Qed.

(** A label stands for the number of instructions before it. *)
Lemma label_position other s ls1 ls2 :
  predefined s = None ->
  lookup (label_table ls1 0) s = None ->
  resolve (label_table (ls1 ++ [Blank; LabelDef s; Blank] ++ ls2) 0) other s
  = Z.of_nat (List.length (encode (fun _ => 0) ls1)).
Proof.
  intros Hp Hnew. unfold resolve. rewrite Hp.
  rewrite (label_table_app (fun _ => 0)), lookup_app, Hnew.
  cbn [app label_table lookup]. rewrite String.eqb_refl. lia.
Qed.

(** *** Every translation can be read by the assembler *)

Lemma assembled_parsed other text code :
  assemble other text = Some code -> exists ls, parse_all text = Some ls.
Proof.
  unfold assemble. destruct (parse_all text) as [ls|]; [|discriminate].
  intros _. exists ls. reflexivity.
Qed.

Lemma access_text_parsed seg idx file :
  access_ok seg idx file = true ->
  (exists ls, parse_all (GeneratePushCode seg idx file) = Some ls) /\
  (exists ls, parse_all (GeneratePopCode seg idx file) = Some ls).
Proof.
  intros Hok. unfold access_ok in Hok. apply andb_true_iff in Hok as [Hd Hok].
  pose proof (int_of_digits_nonneg idx) as Hi.
  destruct seg; try discriminate; try (apply Z.leb_le in Hok);
    (split;
     text_norm; cbn [parse_all];
     rewrite ?parse_comment_line;
     rewrite ?parse_number_line by assumption;
     rewrite ?parse_symbol_line
       by first [ apply register_symbol; lia | apply static_symbol; assumption ];
     eexists; reflexivity).
Qed.

Lemma translation_parsed c p :
  0 <= comparisonCount c -> 0 <= callCount c ->
  encodable c p = true ->
  exists ls, parse_all (snd (translate_line c p)) = Some ls.
Proof.
  intros Hc Hk H.
  destruct p as [a|a|s i f|s i f|x|x|x|x k|x k| |k];
    cbn [translate_line snd encodable] in *.
  - destruct a; eexists; vm_compute; reflexivity.
  - apply (assembled_parsed (fun _ => 0) _ _
             (comparison_assembled _ a (comparisonCount c + 1) ltac:(lia))).
  - apply (access_text_parsed _ _ _ H).
  - apply (access_text_parsed _ _ _ H).
  - eexists. apply label_text_parsed, H.
  - eexists. apply goto_text_parsed, H.
  - apply if_goto_text_parsed, H.
  - apply (assembled_parsed (fun _ => 0) _ _
             (function_definition_assembled _ x k H)).
  - apply andb_true_iff in H as [H H2]. apply andb_true_iff in H as [Hx H1].
    apply Z.leb_le in H1. apply Z.leb_le in H2.
    assert (Hr : 0 <= callCount c + 1) by lia.
    assert (Hn : 0 <= k <= 32767) by lia.
    destruct (call_loaded [] (fun _ => 0) x k (returnName x (callCount c + 1))
                Hx (return_label_symbol _ _ Hx Hr) Hn)
      as (ls & P & _).
    exists ls. exact P.
  - destruct (return_loaded (resolve [] (fun _ => 0))
                (resolve_predefined [] (fun _ => 0))) as (ls & P & _).
    exists ls. exact P.
  - exists []. reflexivity.
Qed.

Lemma translations_parsed lines : forall c,
  0 <= comparisonCount c -> 0 <= callCount c ->
  encodable_all c lines = true ->
  exists ls, parse_all (List.concat (translations c lines)) = Some ls.
Proof.
  induction lines as [|p r IH]; intros c Hc Hk H.
  - exists []. reflexivity.
  - cbn [encodable_all] in H. apply andb_true_iff in H as [Hp Hr].
    rewrite translations_cons. cbn [List.concat].
    destruct (translation_parsed c p Hc Hk Hp) as (l1 & P1).
    destruct (IH (fst (translate_line c p))) as (l2 & P2).
    + rewrite comparisonCount_step. destruct (is_comparison p); lia.
    + rewrite callCount_step. destruct (is_call p); lia.
    + exact Hr.
    + exists (l1 ++ l2). rewrite parse_all_app, P1, P2. reflexivity.
Qed.

End BranchFacts.

(* ================================================================== *)
(** ** Facts about slices and searches in a path *)

Module PathFacts.
Import TextFacts CpuFacts SourceFacts CodeFacts StackFacts LoopFacts ProgramFacts.
Import NameFacts.

Lemma len_app a b : Path.len (a ++ b) = Path.len a + Path.len b.
Proof.
  unfold Path.len. induction a as [|c r IH]; simpl String.length; lia.
Qed.

Lemma len_nonneg a : 0 <= Path.len a.
Proof. unfold Path.len. lia. Qed.

Lemma substring_skip a : forall n b,
  String.substring (String.length a) n (a ++ b) = String.substring 0 n b.
Proof. induction a as [|c r IH]; intros n b; simpl; [reflexivity | apply IH]. Qed.

Lemma substring_head a b :
  String.substring 0 (String.length a) (a ++ b) = a.
Proof.
  induction a as [|c r IH]; simpl.
  - destruct b; reflexivity.
  - rewrite IH. reflexivity.
Qed.

Lemma slice_parts a b c i j :
  Path.clamp (a ++ b ++ c) i = Path.len a ->
  Path.clamp (a ++ b ++ c) j = Path.len a + Path.len b ->
  Path.slice (a ++ b ++ c) i j = b.
Proof.
  intros Hi Hj. unfold Path.slice. rewrite Hi, Hj.
  replace (Path.len a + Path.len b - Path.len a) with (Path.len b) by lia.
  unfold Path.len. rewrite !Nat2Z.id.
  rewrite substring_skip. apply substring_head.
Qed.

Lemma slice_from_tail a b i :
  Path.clamp (a ++ b) i = Path.len a -> Path.slice_from (a ++ b) i = b.
Proof.
  intros Hi. unfold Path.slice_from.
  rewrite <- (append_empty b) at 1 2.
  pose proof (len_nonneg a). pose proof (len_nonneg b).
  assert (L : Path.len (a ++ b ++ "") = Path.len a + Path.len b)
    by (rewrite !len_app; unfold Path.len at 3; simpl; lia).
  rewrite <- (append_empty b) in Hi at 1.
  apply slice_parts; [exact Hi|].
  unfold Path.clamp. rewrite L.
  destruct (Z.ltb_spec (Path.len a + Path.len b) 0); lia.
Qed.

Lemma slice_to_head a b j :
  Path.clamp (a ++ b) j = Path.len a -> Path.slice_to (a ++ b) j = a.
Proof.
  intros Hj. unfold Path.slice_to.
  change (a ++ b) with ("" ++ a ++ b).
  apply slice_parts.
  - unfold Path.clamp. pose proof (len_nonneg ("" ++ a ++ b)).
    change (0 <? 0) with false. cbv iota. change (Path.len "") with 0. lia.
  - change (Path.len "") with 0. exact Hj.
Qed.

Lemma clamp_inside s i : 0 <= i <= Path.len s -> Path.clamp s i = i.
Proof.
  intros H. unfold Path.clamp. destruct (Z.ltb_spec i 0); lia.
Qed.

Lemma slice_last a x :
  Path.slice_from (a ++ String x "") (-1) = String x "".
Proof.
  apply slice_from_tail. unfold Path.clamp. rewrite len_app.
  change (Path.len (String x "")) with 1. pose proof (len_nonneg a).
  change (-1 <? 0) with true. cbv iota. lia.
Qed.

(** *** The last slash and the extension *)

Lemma rfind_no_slash s : forall i start stop,
  no_slash s = true -> Path.rfind_at "/" s i start stop = -1.
Proof.
  induction s as [|c r IH]; intros i start stop H; [reflexivity|].
  simpl in H. apply andb_true_iff in H as [Hc Hr].
  apply negb_true_iff in Hc.
  cbn [Path.rfind_at]. rewrite (IH _ _ _ Hr).
  change (0 <=? -1) with false. cbv iota.
  cbn [String.prefix]. 
  destruct (ascii_dec "/" c) as [E|E]; [|reflexivity].
  subst c. discriminate.
Qed.

Lemma rfind_last_slash a : forall b i start stop,
  0 <= i ->
  Path.rfind_at "/" b (i + Path.len a + 1) start stop = -1 ->
  start <= i + Path.len a -> i + Path.len a + 1 <= stop ->
  Path.rfind_at "/" (a ++ "/" ++ b) i start stop = i + Path.len a.
Proof.
  induction a as [|c r IH]; intros b i start stop Hi Hb Hs He.
  - change (Path.len "") with 0 in *. rewrite Z.add_0_r in *.
    change ("" ++ "/" ++ b) with (String "/" b).
    cbn [Path.rfind_at]. rewrite Hb.
    change (0 <=? -1) with false. cbv iota.
    cbn [String.prefix]. destruct (ascii_dec "/" "/"); [|congruence].
    assert (P : String.prefix "" b = true) by (destruct b; reflexivity).
    rewrite P. change (Path.len "/") with 1.
    destruct (Z.leb_spec start i); try lia;
      destruct (Z.leb_spec (i + 1) stop); try lia; reflexivity.
  - change (String c r ++ "/" ++ b) with (String c (r ++ "/" ++ b)).
    assert (L : Path.len (String c r) = Path.len r + 1)
      by (unfold Path.len; simpl String.length; lia).
    rewrite L in *. pose proof (len_nonneg r).
    cbn [Path.rfind_at].
    rewrite (IH b (i + 1) start stop) by (try lia; rewrite <- Hb; f_equal; lia).
    destruct (Z.leb_spec 0 (i + 1 + Path.len r)); lia.
Qed.

Lemma rfind_trailing_slash d : forall j start stop,
  no_slash d = true -> stop <= j + Path.len d ->
  Path.rfind_at "/" (d ++ "/") j start stop = -1.
Proof.
  induction d as [|c r IH]; intros j start stop H Hs.
  - change (Path.len "") with 0 in Hs.
    change ("" ++ "/") with "/". cbn [Path.rfind_at String.prefix].
    change (Path.len "/") with 1.
    destruct (ascii_dec "/" "/"); [|congruence].
    destruct (Z.leb_spec (j + 1) stop); [lia|].
    rewrite !andb_false_r. reflexivity.
  - simpl in H. apply andb_true_iff in H as [Hc Hr].
    apply negb_true_iff in Hc.
    assert (L : Path.len (String c r) = Path.len r + 1)
      by (unfold Path.len; simpl String.length; lia).
    rewrite L in Hs.
    change (String c r ++ "/") with (String c (r ++ "/")).
    cbn [Path.rfind_at]. rewrite (IH (j + 1) start stop Hr) by lia.
    change (0 <=? -1) with false. cbv iota.
    cbn [String.prefix].
    destruct (ascii_dec "/" c) as [E|E]; [|reflexivity].
    subst c. discriminate.
Qed.

Lemma rfind_extension a : forall i start stop,
  0 <= i -> start <= i + Path.len a -> i + Path.len a + 3 <= stop ->
  Path.rfind_at ".vm" (a ++ ".vm") i start stop = i + Path.len a.
Proof.
  induction a as [|c r IH]; intros i start stop Hi Hs He.
  - change (Path.len "") with 0 in *. rewrite Z.add_0_r in *.
    change ("" ++ ".vm") with ".vm".
    cbn [Path.rfind_at String.prefix].
    repeat match goal with
    | |- context [ascii_dec ?x ?y] => destruct (ascii_dec x y); try congruence
    end.
    cbn [andb]. change (0 <=? -1) with false. cbv iota.
    change (Path.len ".vm") with 3.
    destruct (Z.leb_spec start i); try lia;
      destruct (Z.leb_spec (i + 3) stop); try lia; reflexivity.
  - change (String c r ++ ".vm") with (String c (r ++ ".vm")).
    assert (L : Path.len (String c r) = Path.len r + 1)
      by (unfold Path.len; simpl String.length; lia).
    rewrite L in *. pose proof (len_nonneg r).
    cbn [Path.rfind_at].
    rewrite (IH (i + 1) start stop) by lia.
    destruct (Z.leb_spec 0 (i + 1 + Path.len r)); lia.
Qed.

(** *** Names without a slash *)

Lemma nonempty_last d : d <> "" -> exists d' x, d = d' ++ String x "".
Proof.
  induction d as [|c r IH]; [congruence|]. intros _.
  destruct r as [|c' r'].
  - exists "", c. reflexivity.
  - destruct (IH ltac:(discriminate)) as (d' & x & E).
    exists (String c d'), x. simpl. rewrite <- E. reflexivity.
Qed.

Lemma no_slash_last d x : no_slash (d ++ String x "") = true -> Ascii.eqb x "/" = false.
Proof.
  rewrite no_slash_app. intros H. apply andb_true_iff in H as [_ H].
  simpl in H. rewrite andb_true_r in H. apply negb_true_iff, H.
Qed.

Lemma lstrip_slashes_word d t :
  d <> "" -> no_slash d = true -> Path.lstrip_slashes (d ++ t) = d ++ t.
Proof.
  destruct d as [|c r]; [congruence|]. intros _ H.
  simpl in H. apply andb_true_iff in H as [Hc _]. apply negb_true_iff in Hc.
  simpl. rewrite Hc. reflexivity.
Qed.

Lemma rstrip_slashes_word d : no_slash d = true -> Path.rstrip_slashes d = d.
Proof.
  induction d as [|c r IH]; [reflexivity|].
  intros H. simpl in H. apply andb_true_iff in H as [Hc Hr].
  apply negb_true_iff in Hc.
  simpl. rewrite (IH Hr), Hc. destruct r; reflexivity.
Qed.

Lemma rstrip_slashes_trailing s :
  Path.rstrip_slashes (s ++ "/") = Path.rstrip_slashes s.
Proof.
  induction s as [|c r IH]; [reflexivity|].
  change (String c r ++ "/") with (String c (r ++ "/")).
  simpl. rewrite IH. reflexivity.
Qed.

End PathFacts.

(* ================================================================== *)
(** * Properties of the translator *)

Import TextFacts CpuFacts SourceFacts CodeFacts StackFacts LoopFacts ProgramFacts.
Import NameFacts BranchFacts.

(** Closed side conditions, by evaluation. *)
Ltac by_evaluation :=
  vm_compute; repeat split; first [reflexivity | discriminate].

(* ------------------------------------------------------------------ *)
(** ** Arithmetic *)

(** C7: for 16-bit operands [x] (next-to-top) and [y] (top), the code of
    a binary arithmetic command leaves the stack pointer one cell lower
    with the result at the new top: Add the 16-bit sum of [x] and [y], Sub
    the 16-bit difference [x - y], And and Or the bitwise combination; Neg
    and Not rewrite the top cell and leave the stack pointer where it is.
    No other cell than the stack pointer and the result cell changes. *)
Theorem arithmetic_code_correct other aType m x y :
  2 < SP m < 65536 ->
  RAM m (SP m - 2) = x -> RAM m (SP m - 1) = y ->
  0 <= x < 65536 -> 0 <= y < 65536 ->
  exists m', exec other (GenerateArithmeticCode aType) m = Some m' /\
    match aType with
    | ArithmeticType.Add =>
        SP m' = SP m - 1 /\ RAM m' (SP m' - 1) = wrap (x + y)
    | ArithmeticType.Sub =>
        SP m' = SP m - 1 /\ RAM m' (SP m' - 1) = wrap (x - y)
    | ArithmeticType.And =>
        SP m' = SP m - 1 /\ RAM m' (SP m' - 1) = Z.land x y
    | ArithmeticType.Or =>
        SP m' = SP m - 1 /\ RAM m' (SP m' - 1) = Z.lor x y
    | ArithmeticType.Neg =>
        SP m' = SP m /\ RAM m' (SP m' - 1) = wrap (- y)
    | ArithmeticType.Not =>
        SP m' = SP m /\ RAM m' (SP m' - 1) = wrap (Z.lnot y)
    end /\
    (forall a, a <> 0 -> a <> SP m' - 1 -> RAM m' a = RAM m a).
Proof. apply arithmetic_exec. Qed.

Lemma arithmetic_code_correct_witness :
  exists m',
    exec no_symbols (GenerateArithmeticCode ArithmeticType.Sub) sample_machine
      = Some m' /\
    (SP m' = SP sample_machine - 1 /\
     RAM m' (SP m' - 1) = wrap (32767 - 65535)) /\
    (forall a, a <> 0 -> a <> SP m' - 1 -> RAM m' a = RAM sample_machine a).
Proof.
  apply (arithmetic_code_correct no_symbols ArithmeticType.Sub sample_machine
           32767 65535); by_evaluation.
Defined.

(* ------------------------------------------------------------------ *)
(** ** Push and pop *)

(** C3, as the code has it: a push moves the stack pointer up by exactly
    one cell and writes no other cell than the old top-of-stack cell; a
    pop to a segment other than Constant moves the stack pointer down by
    exactly one cell and writes, besides its destination cell, the
    scratch cell R13, where it keeps the destination address.  The
    destination of the pop is assumed not to be the stack pointer itself. *)
Theorem push_pop_frame other seg idx file m :
  access_ok seg idx file = true ->
  (0 < SP m < 65535 ->
   exists m', exec other (GeneratePushCode seg idx file) m = Some m' /\
     SP m' = SP m + 1 /\
     (forall a, a <> 0 -> a <> SP m -> RAM m' a = RAM m a)) /\
  (seg <> MemorySegment.Constant ->
   0 < SP m < 65536 ->
   segment_cell other m seg idx file <> 0 ->
   exists m', exec other (GeneratePopCode seg idx file) m = Some m' /\
     SP m' = SP m - 1 /\
     (forall a, a <> 0 -> a <> 13 -> a <> segment_cell other m seg idx file ->
                RAM m' a = RAM m a)).
Proof.
  intros Hok. split.
  - intros Hsp.
    destruct (push_exec other seg idx file m Hok Hsp) as (m' & E & S & F & _).
    exists m'. auto.
  - intros Hc Hsp Hcell.
    destruct (pop_exec other seg idx file m Hok Hc Hsp Hcell)
      as (m' & E & S & F & _).
    exists m'. auto.
Qed.

Lemma push_pop_frame_witness :
  (exists m',
     exec no_symbols (GeneratePushCode MemorySegment.LCL "1" "Main") sample_machine
       = Some m' /\
     SP m' = SP sample_machine + 1 /\
     (forall a, a <> 0 -> a <> SP sample_machine ->
                RAM m' a = RAM sample_machine a)) /\
  (exists m',
     exec no_symbols (GeneratePopCode MemorySegment.LCL "1" "Main") sample_machine
       = Some m' /\
     SP m' = SP sample_machine - 1 /\
     (forall a, a <> 0 -> a <> 13 ->
                a <> segment_cell no_symbols sample_machine
                       MemorySegment.LCL "1" "Main" ->
                RAM m' a = RAM sample_machine a)).
Proof.
  destruct (push_pop_frame no_symbols MemorySegment.LCL "1" "Main"
              sample_machine eq_refl) as [Hpush Hpop].
  split; [apply Hpush | apply Hpop]; by_evaluation.
Defined.

(** C3 as stated fails: popping into [local 0] changes cell 13, which is
    neither the stack pointer nor the destination cell 300. *)
Lemma pop_overwrites_scratch_cell :
  option_map (fun m' => RAM m' 13)
    (exec no_symbols (GeneratePopCode MemorySegment.LCL "0" "Main")
       sample_machine) = Some 300 /\
  RAM sample_machine 13 = 0 /\
  segment_cell no_symbols sample_machine MemorySegment.LCL "0" "Main" = 300.
Proof. by_evaluation. Qed.

(** C6: for a segment reached through LCL, ARG, THIS or THAT, the code
    of a push followed by the code of a pop with the same index leaves the
    addressed cell and the stack pointer as they were. *)
Theorem push_pop_round_trip other seg idx file m :
  is_indirect seg = true ->
  Py.isdigit idx = true -> Py.int_of_digits idx <= 32767 ->
  16 <= SP m < 65535 ->
  exists m',
    exec other (GeneratePushCode seg idx file ++ GeneratePopCode seg idx file) m
      = Some m' /\
    SP m' = SP m /\
    RAM m' (segment_cell other m seg idx file)
      = RAM m (segment_cell other m seg idx file).
Proof.
  intros Hseg Hd Hok Hsp.
  pose proof (int_of_digits_nonneg idx) as Hi.
  destruct m as [a d ram]. unfold SP, segment_cell in *. cbn [RAM A] in *.
  destruct seg; try discriminate;
    (eexists; split;
      [ eapply exec_straight; [assemble_access; reflexivity | reflexivity] | ]).
  all: run_block_tac.
  all: cbn [MemorySegment.value String.append] in *.
  all: mem_norm.
  all: match goal with |- context [wrap (?i + ?r ?b)] =>
         set (cell := wrap (i + r b)) in * end.
  all: destruct (Z.eq_dec cell 0) as [E|E]; [rewrite !E|]; mem_norm.
  all: split; reflexivity.
Qed.

Lemma push_pop_round_trip_witness :
  exists m',
    exec no_symbols
      (GeneratePushCode MemorySegment.LCL "1" "Main"
         ++ GeneratePopCode MemorySegment.LCL "1" "Main") sample_machine
      = Some m' /\
    SP m' = SP sample_machine /\
    RAM m' (segment_cell no_symbols sample_machine MemorySegment.LCL "1" "Main")
      = RAM sample_machine
          (segment_cell no_symbols sample_machine MemorySegment.LCL "1" "Main").
Proof.
  apply (push_pop_round_trip no_symbols MemorySegment.LCL "1" "Main"
           sample_machine); by_evaluation.
Defined.

(** C10: the parser accepts [pop constant i] for every digit string [i];
    the code generated for it loads no address before [D=A], so the
    popped value is stored in the cell the A register pointed to when the
    code was entered. *)
Theorem pop_constant_uses_stale_address fileName lineNumber idx other m :
  Py.isdigit idx = true ->
  parse_line fileName lineNumber ("pop constant " ++ idx)
    = Processed (LPop MemorySegment.Constant idx fileName) /\
  GeneratePopCode MemorySegment.Constant idx fileName
    = [ tabs ++ "//Pop Constant " ++ idx;
        "D=A"; "@R13"; "M=D"; "@SP"; "M=M-1"; "A=M"; "D=M";
        "@R13"; "A=M"; "M=D" ] /\
  (16 < SP m < 65536 ->
   exists m',
     exec other (GeneratePopCode MemorySegment.Constant idx fileName) m
       = Some m' /\
     RAM m' (A m) = RAM m (SP m - 1)).
Proof.
  intros Hd. split; [apply pop_constant_parsed; exact Hd|].
  split; [apply pop_constant_text|].
  intros Hsp.
  destruct (pop_constant_exec other idx fileName m Hsp) as (m' & E & V & _).
  exists m'. auto.
Qed.

Lemma pop_constant_uses_stale_address_witness :
  parse_line "Main" 3 ("pop constant " ++ "5")
    = Processed (LPop MemorySegment.Constant "5" "Main") /\
  exists m',
    exec no_symbols (GeneratePopCode MemorySegment.Constant "5" "Main")
      sample_machine = Some m' /\
    RAM m' (A sample_machine) = RAM sample_machine (SP sample_machine - 1).
Proof.
  destruct (pop_constant_uses_stale_address "Main" 3 "5" no_symbols
              sample_machine eq_refl) as (P & _ & X).
  split; [exact P | apply X; by_evaluation].
Defined.

(* ------------------------------------------------------------------ *)
(** ** Comparisons *)

(** C4, as the code has it: a comparison of 16-bit operands [x]
    (next-to-top) and [y] (top) leaves all ones on the new top cell
    exactly when the 16-bit difference [x - y], read in two's complement,
    is zero (EQ), positive (GT) or negative (LT), and zero otherwise.  That
    is the relation between the signed operands whenever their true
    difference fits in 16 bits, and always for EQ. *)
Theorem comparison_tests_wrapped_difference other cType n m x y :
  0 <= n ->
  2 < SP m < 65536 ->
  RAM m (SP m - 2) = x -> RAM m (SP m - 1) = y ->
  0 <= x < 65536 -> 0 <= y < 65536 ->
  exists m', exec other (GenerateComparisonCode cType n) m = Some m' /\
    SP m' = SP m - 1 /\
    RAM m' (SP m' - 1) = (if comparison_outcome cType x y then 65535 else 0) /\
    (-32768 <= signed x - signed y <= 32767 ->
     comparison_outcome cType x y = relation_holds cType (signed x) (signed y)) /\
    comparison_outcome ComparisonType.EQ x y
      = relation_holds ComparisonType.EQ (signed x) (signed y).
Proof.
  intros Hn Hsp Hx Hy Rx Ry. destruct m as [a d ram].
  unfold SP in *. cbn [RAM] in *.
  destruct (comparison_exec other cType n a d ram Hn Hsp) as (m' & E & S & V & _).
  exists m'. split; [exact E|]. split; [exact S|].
  rewrite S. replace (ram 0 - 1 - 1) with (ram 0 - 2) by lia.
  rewrite V, Hx, Hy. split; [reflexivity|]. split.
  - apply comparison_outcome_exact; assumption.
  - apply equality_outcome_exact; assumption.
Qed.

Lemma comparison_tests_wrapped_difference_witness :
  exists m',
    exec no_symbols (GenerateComparisonCode ComparisonType.LT 7) sample_machine
      = Some m' /\
    SP m' = SP sample_machine - 1 /\
    RAM m' (SP m' - 1)
      = (if comparison_outcome ComparisonType.LT 32767 65535 then 65535 else 0) /\
    (-32768 <= signed 32767 - signed 65535 <= 32767 ->
     comparison_outcome ComparisonType.LT 32767 65535
       = relation_holds ComparisonType.LT (signed 32767) (signed 65535)) /\
    comparison_outcome ComparisonType.EQ 32767 65535
      = relation_holds ComparisonType.EQ (signed 32767) (signed 65535).
Proof.
  apply (comparison_tests_wrapped_difference no_symbols ComparisonType.LT 7
           sample_machine 32767 65535); by_evaluation.
Defined.

(** C4 as stated fails at the extreme values: with 32767 below -1 (the
    word 65535) on the stack, GT leaves 0 although 32767 > -1. *)
Lemma greater_than_overflows :
  option_map (fun m' => RAM m' (SP m' - 1))
    (exec no_symbols (GenerateComparisonCode ComparisonType.GT 1)
       sample_machine) = Some 0 /\
  RAM sample_machine (SP sample_machine - 2) = 32767 /\
  RAM sample_machine (SP sample_machine - 1) = 65535 /\
  relation_holds ComparisonType.GT (signed 32767) (signed 65535) = true.
Proof. by_evaluation. Qed.

(* ------------------------------------------------------------------ *)
(** ** Call and return *)

(** C1: in a program that holds the code of [call f n] at [base] and the
    code of a return at the address of [f], with the return label
    resolved to the instruction behind the call, running the call and
    then the return brings control back behind the call with LCL, ARG,
    THIS and THAT as before the call, the stack pointer at its old value
    minus [n] plus one, and the value that was on top of the callee's
    stack in the new top cell.  The [n] arguments are assumed to lie on
    the stack, above the sixteen register cells. *)
Theorem call_then_return labels other rom f n k base m :
  let res := resolve labels other in
  is_symbol f = true -> 0 <= k -> 0 <= n <= 32767 ->
  loaded res rom base (GenerateFunctionCallCode f n (returnName f k)) ->
  loaded res rom (res f) GenerateReturnCode ->
  res (returnName f k) = base + 44 ->
  16 <= SP m - n -> SP m + 5 < 65536 ->
  exists callee m',
    steps rom 44 (base, m) = Some (res f, callee) /\
    steps rom 46 (res f, callee) = Some (base + 44, m') /\
    LCL m' = LCL m /\ ARG m' = ARG m /\ THIS m' = THIS m /\ THAT m' = THAT m /\
    SP m' = SP m - n + 1 /\
    RAM m' (SP m' - 1) = RAM callee (SP callee - 1).
Proof.
  intros res Hf Hk Hn Hcall Hret Hlabel Hlo Hhi.
  pose proof (return_label_symbol f k Hf Hk) as Hsym.
  unfold loaded in Hcall, Hret.
  destruct (call_loaded labels other f n (returnName f k) Hf Hsym Hn)
    as (lc & Pc & Ec).
  destruct (return_loaded res (resolve_predefined labels other))
    as (lr & Pr & Er).
  fold res in Ec.
  rewrite Pc, Ec in Hcall. rewrite Pr, Er in Hret. clear Pc Ec Pr Er lc lr.
  destruct m as [a d ram]. unfold SP, LCL, ARG, THIS, THAT in *.
  cbn [RAM] in *.
  pose proof (call_steps rom base _ n _ a d ram Hcall ltac:(lia) Hlo Hhi)
    as Scall.
  destruct (frame_after_call_reads ram (res (returnName f k)) n
              ltac:(lia) Hlo Hhi)
    as (F0 & F1 & F2 & G0 & G1 & G2 & G3 & G4).
  remember (frame_after_call ram (res (returnName f k)) n) as fr eqn:Efr.
  clear Efr.
  remember (ram 0 + 1 + 1 + 1 + 1 + 1) as dv eqn:Edv. clear Edv.
  destruct (return_steps rom (res f) (res f) dv fr Hret
              ltac:(lia) ltac:(lia) ltac:(lia))
    as (m' & Sret & R0 & Rarg & R1 & R2 & R3 & R4 & _).
  exists (mkMachine (res f) dv fr), m'.
  split; [exact Scall|]. split.
  { rewrite Sret, F1. replace (ram 0 + 5 - 5) with (ram 0) by lia.
    rewrite G0, Hlabel. reflexivity. }
  cbn [RAM].
  rewrite R0, R1, R2, R3, R4, F0, F1, F2.
  replace (ram 0 + 5 - 4) with (ram 0 + 1) by lia.
  replace (ram 0 + 5 - 3) with (ram 0 + 2) by lia.
  replace (ram 0 + 5 - 2) with (ram 0 + 3) by lia.
  replace (ram 0 + 5 - 1) with (ram 0 + 4) by lia.
  replace (ram 0 - n + 1 - 1) with (ram 0 - n) by lia.
  rewrite <- F2, Rarg, F0.
  replace (ram 0 + 5 - 1) with (ram 0 + 4) by lia.
  rewrite G1, G2, G3, G4, F2.
  repeat split; try reflexivity; lia.
Qed.

Lemma call_then_return_witness :
  exists callee m',
    steps sample_rom 44 (46, sample_machine) = Some (0, callee) /\
    steps sample_rom 46 (0, callee) = Some (46 + 44, m') /\
    LCL m' = LCL sample_machine /\ ARG m' = ARG sample_machine /\
    THIS m' = THIS sample_machine /\ THAT m' = THAT sample_machine /\
    SP m' = SP sample_machine - 2 + 1 /\
    RAM m' (SP m' - 1) = RAM callee (SP callee - 1).
Proof.
  apply (call_then_return sample_labels no_symbols sample_rom "f" 2 1 46
           sample_machine); by_evaluation.
Defined.

(* ------------------------------------------------------------------ *)
(** ** Labels *)

(** C5: in a translation run over any command stream, the return labels
    given to the calls are pairwise distinct, and so are the branch labels
    given to the comparisons; each label is the one written into the
    emitted code, and each counter ends at the number of its commands. *)
Theorem labels_never_repeat (lines : list processedLine) :
  let out := translate_lines initialContext GenerateBootStrapCode lines in
  NoDup (call_labels initialContext lines) /\
  NoDup (compare_labels initialContext lines) /\
  (forall l, In l (call_labels initialContext lines) -> In ("@" ++ l) (snd out)) /\
  (forall l, In l (compare_labels initialContext lines) ->
             In ("@" ++ l) (snd out)) /\
  callCount (fst out) = Z.of_nat (List.length (filter is_call lines)) /\
  comparisonCount (fst out)
    = Z.of_nat (List.length (filter is_comparison lines)).
Proof.
  intros out. subst out. rewrite translate_lines_spec. cbn [fst snd].
  split; [apply call_labels_distinct; reflexivity|].
  split; [apply compare_labels_distinct; reflexivity|].
  split; [intros l H; apply in_or_app; right; apply call_labels_emitted, H|].
  split; [intros l H; apply in_or_app; right; apply compare_labels_emitted, H|].
  rewrite callCount_final, comparisonCount_final. split; reflexivity.
Qed.

(** C2 does not hold of the code: a call also overwrites the name under
    which labels are scoped.  In a function [Sys.init] that defines the
    label [LOOP], calls [Sys.helper] and then jumps to [LOOP], the label
    is defined as [Sys.init$LOOP] but the jump goes to [Sys.helper$LOOP]. *)
Theorem goto_after_call_leaves_function_scope :
  match main loop_source with
  | Written out =>
      In "(Sys.init$LOOP)" out /\
      In ("@Sys.helper$LOOP" ++ tabs ++ "//Goto label Sys.helper$LOOP") out /\
      ~ In "(Sys.helper$LOOP)" out
  | _ => False
  end.
Proof.
  vm_compute. split; [|split].
  - repeat (first [left; reflexivity | right]).
  - repeat (first [left; reflexivity | right]).
  - intros H. repeat (destruct H as [H|H]; [discriminate H|]). exact H.
Qed.

(* ------------------------------------------------------------------ *)
(** ** The whole run *)

(** C8: whatever a run writes is the bootstrap code followed by the
    translation of the commands of the input, and nothing else.  The
    bootstrap code is four lines that set the stack pointer to 256, then
    the code of a call of [Sys.init] with no arguments without its last
    line, the return label: that line occurs nowhere in the output.  In
    the assembled program the bootstrap code makes the first 48
    instructions; the first four cycles set the stack pointer to 256, and
    the next 44 build the frame of the call and jump to the address of
    [Sys.init]. *)
Theorem bootstrap_comes_first files out :
  main files = Written out ->
  (exists st,
     parse_files initialParseState files = Some st /\
     out = ([ "@256"; "D=A"; "@SP"; "M=D" ]
            ++ removelast (GenerateFunctionCallCode "Sys.init" 0 "Dummy")
            ++ List.concat (translations initialContext (processedLines st)))%list) /\
  GenerateFunctionCallCode "Sys.init" 0 "Dummy"
    = (removelast (GenerateFunctionCallCode "Sys.init" 0 "Dummy")
       ++ [ ("(Dummy)" ++ tabs
             ++ "//Call function Sys.init with  0 arguments")%string ])%list /\
  ~ In ("(Dummy)" ++ tabs ++ "//Call function Sys.init with  0 arguments") out /\
  (forall other ls m,
     parse_all out = Some ls ->
     let res := resolve (label_table ls 0) other in
     let rom := encode res ls in
     (exists user_code,
        rom = (encode res bootstrap_lines ++ user_code)%list /\
        List.length (encode res bootstrap_lines) = 48%nat) /\
     exists m1 m2,
       steps rom 4 (0, m) = Some (4, m1) /\ SP m1 = 256 /\
       steps rom 44 (4, m1) = Some (res "Sys.init", m2) /\
       SP m2 = 261 /\ LCL m2 = 261 /\ ARG m2 = 256).
Proof.
  intros H. destruct (main_written files out H) as (st & Hst & _ & _ & ->).
  split.
  { exists st. split; [exact Hst|].
    unfold GenerateBootStrapCode. rewrite <- app_assoc. reflexivity. }
  split; [reflexivity|].
  split.
  { intros Hin. apply in_app_or in Hin as [Hin | Hin].
    - unfold GenerateBootStrapCode in Hin.
      apply in_app_or in Hin as [Hin | Hin].
      + repeat (destruct Hin as [Hin|Hin]; [discriminate Hin|]). exact Hin.
      + cbv [GenerateFunctionCallCode PushAddress] in Hin.
        cbn [app removelast] in Hin.
        repeat (destruct Hin as [Hin|Hin]; [discriminate Hin|]). exact Hin.
    - apply translations_user_lines in Hin. discriminate Hin. }
  intros other ls m P res rom.
  rewrite parse_all_app, bootstrap_parsed in P.
  destruct (parse_all (List.concat
              (translations initialContext (processedLines st))))
    as [lu|]; [|discriminate].
  apply some_eq in P. subst ls.
  subst rom. rewrite encode_app.
  split; [eexists; split; [reflexivity | reflexivity]|].
  unfold res at 1 2. rewrite bootstrap_encoded. fold res.
  set (user_code := encode res lu).
  set (ret := res "Dummy"). set (faddr := res "Sys.init").
  set (rom := ((set_stack_pointer ++ call_block ret 0 ++ [At faddr; jump_instr])
               ++ user_code)%list).
  assert (C1 : code_at rom 0 set_stack_pointer).
  { subst rom. rewrite <- app_assoc.
    apply (code_at_middle [] set_stack_pointer). }
  assert (C2 : code_at rom 4 (call_block ret 0 ++ [At faddr; jump_instr])%list).
  { subst rom. rewrite <- app_assoc.
    apply (code_at_middle set_stack_pointer
             (call_block ret 0 ++ [At faddr; jump_instr])%list user_code). }
  destruct m as [a d ram].
  pose proof (steps_block rom _ 0 (mkMachine a d ram) C1 eq_refl) as S1.
  change (List.length set_stack_pointer) with 4%nat in S1.
  change (0 + Z.of_nat 4) with 4 in S1.
  unfold set_stack_pointer in S1. cbn [exec_block exec_instr eval
    operand_value A D RAM toA toD toM fst] in S1.
  pose proof (call_steps rom 4 ret 0 faddr 0 256 (upd ram 0 256) C2
                ltac:(lia)
                ltac:(rewrite upd_same; lia) ltac:(rewrite upd_same; lia)) as S2.
  destruct (frame_after_call_reads (upd ram 0 256) ret 0 ltac:(lia)
              ltac:(rewrite upd_same; lia) ltac:(rewrite upd_same; lia))
    as (F0 & F1 & F2 & _).
  rewrite upd_same in F0, F1, F2.
  eexists _, _. split; [exact S1|].
  split; [unfold SP; cbn [RAM]; apply upd_same|].
  split; [exact S2|].
  unfold SP, LCL, ARG. cbn [RAM]. rewrite F0, F1, F2. repeat split; reflexivity.
Qed.

Lemma bootstrap_comes_first_witness :
  exists out,
    main sample_source = Written out /\
    (exists st,
       parse_files initialParseState sample_source = Some st /\
       out = ([ "@256"; "D=A"; "@SP"; "M=D" ]
              ++ removelast (GenerateFunctionCallCode "Sys.init" 0 "Dummy")
              ++ List.concat
                   (translations initialContext (processedLines st)))%list) /\
    ~ In ("(Dummy)" ++ tabs ++ "//Call function Sys.init with  0 arguments")
         out /\
    forall other ls m,
      parse_all out = Some ls ->
      let res := resolve (label_table ls 0) other in
      let rom := encode res ls in
      exists m1 m2,
        steps rom 4 (0, m) = Some (4, m1) /\ SP m1 = 256 /\
        steps rom 44 (4, m1) = Some (res "Sys.init", m2) /\
        SP m2 = 261 /\ LCL m2 = 261 /\ ARG m2 = 256.
Proof.
  destruct (main sample_source) as [out| | |] eqn:E;
    try (vm_compute in E; discriminate E).
  exists out. split; [reflexivity|].
  destruct (bootstrap_comes_first sample_source out E) as (U & _ & N & X).
  split; [exact U|]. split; [exact N|].
  intros other ls m P. exact (proj2 (X other ls m P)).
Defined.

(** C9: if no line of the input reads [function Sys.init _], the run
    ends without translating and without a file; and when a run does write
    a file, the parser has met no error and the file holds the bootstrap
    code followed by the translation of every command of the input, in
    order. *)
Theorem output_all_or_nothing files :
  ((forall fileName lines line,
      In (fileName, lines) files -> In line lines ->
      defines_sys_init line = false) ->
   main files = NoSysInit \/ main files = Crashed) /\
  (forall out,
     main files = Written out ->
     exists st,
       parse_files initialParseState files = Some st /\
       errors st = [] /\
       out = (GenerateBootStrapCode
              ++ List.concat (translations initialContext (processedLines st)))%list /\
       List.length (translations initialContext (processedLines st))
         = List.length (processedLines st)).
Proof.
  split.
  - intros Hno. unfold main.
    destruct (parse_files initialParseState files) as [st|] eqn:P;
      [|right; reflexivity].
    destruct (sys_init st) eqn:S; [|left; reflexivity].
    exfalso.
    destruct (parse_files_sys_init files _ _ P S)
      as [H0 | (f & ls & line & Hin & Hl & Hd)]; [discriminate H0|].
    rewrite (Hno f ls line Hin Hl) in Hd. discriminate Hd.
  - intros out H. destruct (main_written files out H) as (st & P & _ & E & O).
    exists st. repeat split; try assumption. apply translations_length.
Qed.

Lemma output_all_or_nothing_witness :
  (main headless_source = NoSysInit \/ main headless_source = Crashed) /\
  exists out st,
    main sample_source = Written out /\
    parse_files initialParseState sample_source = Some st /\
    errors st = [] /\
    out = (GenerateBootStrapCode
           ++ List.concat (translations initialContext (processedLines st)))%list.
Proof.
  split.
  - apply (proj1 (output_all_or_nothing headless_source)).
    intros f ls line [E|[]] Hl. injection E as <- <-.
    repeat (destruct Hl as [<-|Hl]; [vm_compute; reflexivity|]).
    destruct Hl.
  - destruct (main sample_source) as [out| | |] eqn:E;
      try (vm_compute in E; discriminate E).
    destruct (proj2 (output_all_or_nothing sample_source) out E)
      as (st & P & Er & O & _).
    exists out, st. auto.
Defined.

(* ================================================================== *)
(** * Further properties of the translator *)

Import NameFacts FunctionFacts LineFacts ReportFacts BranchFacts PathFacts.

(* ------------------------------------------------------------------ *)
(** ** Memory access *)

(** X1: a push leaves the pushed value in the cell below the new stack
    pointer: the number itself for the constant segment, the content of
    the addressed cell for every other segment. *)
Theorem push_puts_value_on_top other seg idx file m :
  access_ok seg idx file = true ->
  0 < SP m < 65535 ->
  exists m', exec other (GeneratePushCode seg idx file) m = Some m' /\
    SP m' = SP m + 1 /\
    RAM m' (SP m' - 1) =
      match seg with
      | MemorySegment.Constant => Py.int_of_digits idx
      | _ => RAM m (segment_cell other m seg idx file)
      end.
Proof.
  intros Hok Hsp.
  destruct (push_exec other seg idx file m Hok Hsp) as (m' & E & S & _ & V).
  exists m'. split; [exact E|]. split; [exact S|].
  rewrite S. replace (SP m + 1 - 1) with (SP m) by lia. exact V.
Qed.

Lemma push_puts_value_on_top_witness :
  exists m',
    exec no_symbols (GeneratePushCode MemorySegment.LCL "1" "Main")
      sample_machine = Some m' /\
    SP m' = SP sample_machine + 1 /\
    RAM m' (SP m' - 1)
    = RAM sample_machine
        (segment_cell no_symbols sample_machine MemorySegment.LCL "1" "Main").
Proof.
  apply (push_puts_value_on_top no_symbols MemorySegment.LCL "1" "Main"
           sample_machine); by_evaluation.
Defined.

(** X2: a pop into a segment other than Constant stores the old top of
    the stack in the addressed cell and moves the stack pointer down by
    one.  The stack is assumed to lie above the sixteen register cells,
    the destination not to be the stack pointer. *)
Theorem pop_moves_top_to_destination other seg idx file m :
  access_ok seg idx file = true ->
  seg <> MemorySegment.Constant ->
  16 < SP m < 65536 ->
  segment_cell other m seg idx file <> 0 ->
  exists m', exec other (GeneratePopCode seg idx file) m = Some m' /\
    SP m' = SP m - 1 /\
    RAM m' (segment_cell other m seg idx file) = RAM m (SP m - 1).
Proof.
  intros Hok Hc Hsp Hcell.
  destruct (pop_exec other seg idx file m Hok Hc ltac:(lia) Hcell)
    as (m' & E & S & _ & _ & V).
  exists m'. split; [exact E|]. split; [exact S|]. apply V. lia.
Qed.

Lemma pop_moves_top_to_destination_witness :
  exists m',
    exec no_symbols (GeneratePopCode MemorySegment.LCL "1" "Main")
      sample_machine = Some m' /\
    SP m' = SP sample_machine - 1 /\
    RAM m' (segment_cell no_symbols sample_machine MemorySegment.LCL "1" "Main")
    = RAM sample_machine (SP sample_machine - 1).
Proof.
  apply (pop_moves_top_to_destination no_symbols MemorySegment.LCL "1" "Main"
           sample_machine); by_evaluation.
Defined.



(** X4: a static access goes through the symbol made of the file
    name, a dot and the index as written.  In a program that holds the
    code of a push or a pop of a static variable, the push reads and the
    pop writes the cell this symbol stands for: the variable the
    assembler allocates for the name, unless the program defines a label
    of the same name, as a function called like the symbol would; then
    the access goes to the cell whose address is that of the label.  The
    name determines file name and index. *)
Theorem static_variable_named_by_file_and_index labels other rom file idx m :
  is_symbol file = true -> Py.isdigit idx = true ->
  let cell := symbol_cell labels other (file ++ "." ++ idx) in
  (forall base,
     loaded (resolve labels other) rom base
       (GeneratePushCode MemorySegment.Static idx file) ->
     0 < SP m < 65535 ->
     exists m',
       steps rom 6 (base, m) = Some (base + 6, m') /\
       SP m' = SP m + 1 /\ RAM m' (SP m) = RAM m cell) /\
  (forall base,
     loaded (resolve labels other) rom base
       (GeneratePopCode MemorySegment.Static idx file) ->
     16 < SP m < 65536 -> cell <> 0 ->
     exists m',
       steps rom 11 (base, m) = Some (base + 11, m') /\
       SP m' = SP m - 1 /\ RAM m' cell = RAM m (SP m - 1)) /\
  (forall g j,
     Py.isdigit j = true -> file ++ "." ++ idx = g ++ "." ++ j ->
     file = g /\ idx = j).
Proof.
  intros Hf Hd cell. destruct m as [a d ram]. unfold SP. cbn [RAM].
  split; [|split].
  - intros base L Hsp. unfold loaded in L.
    destruct (push_static_loaded labels other file idx Hf Hd) as (ls & P & E).
    rewrite P, E in L. fold cell in L.
    pose proof (steps_block rom _ base (mkMachine a d ram) L eq_refl) as S.
    cbn [List.length] in S. change (Z.of_nat 6) with 6 in S.
    eexists. split; [exact S|].
    run_block_tac. mem_norm. split; reflexivity.
  - intros base L Hsp Hcell. unfold loaded in L.
    destruct (pop_static_loaded labels other file idx Hf Hd) as (ls & P & E).
    rewrite P, E in L. fold cell in L.
    pose proof (steps_block rom _ base (mkMachine a d ram) L eq_refl) as S.
    cbn [List.length] in S. change (Z.of_nat 11) with 11 in S.
    eexists. split; [exact S|].
    run_block_tac. mem_norm. split; reflexivity.
  - intros g j Hj E.
    apply (dotted_names_split file g idx j); try assumption;
      apply isdigit_all_digits; assumption.
Qed.

Lemma static_variable_named_by_file_and_index_witness :
  let rom :=
    [ At 59; Compute (mkDest false true false) (Val RegM) JNone;
      At 0; Compute (mkDest false false true) (IncX RegM) JNone;
      Compute (mkDest true false false) (DecX RegM) JNone;
      Compute (mkDest false false true) ValD JNone;
      At 59; Compute (mkDest false true false) (Val RegA) JNone;
      At 13; Compute (mkDest false false true) ValD JNone;
      At 0; Compute (mkDest false false true) (DecX RegM) JNone;
      Compute (mkDest true false false) (Val RegM) JNone;
      Compute (mkDest false true false) (Val RegM) JNone;
      At 13; Compute (mkDest true false false) (Val RegM) JNone;
      Compute (mkDest false false true) ValD JNone ] in
  (exists m',
     steps rom 6 (0, sample_machine) = Some (0 + 6, m') /\
     SP m' = SP sample_machine + 1 /\
     RAM m' (SP sample_machine) = RAM sample_machine 59) /\
  (exists m',
     steps rom 11 (6, sample_machine) = Some (6 + 11, m') /\
     SP m' = SP sample_machine - 1 /\
     RAM m' 59 = RAM sample_machine (SP sample_machine - 1)).
Proof.
  intros rom.
  destruct (static_variable_named_by_file_and_index [("Main.3", 59)]
              no_symbols rom "Main" "3" sample_machine eq_refl eq_refl)
    as (Hpush & Hpop & _).
  split; [apply Hpush | apply Hpop]; by_evaluation.
Defined.

(** X5: the parser accepts every digit string as an index, whatever
    its value; for the constant segment and the segments reached through
    a pointer an index above 32767 is written into an A-instruction, and
    the emitted text is not Hack assembly. *)
Theorem oversized_index_is_not_checked other seg idx file fileName lineNumber kw :
  Py.isdigit idx = true -> 32767 < Py.int_of_digits idx ->
  InitializeMemorySegmentDictionary kw = Some seg ->
  seg = MemorySegment.Constant \/ is_indirect seg = true ->
  classify ["push"; kw; idx] fileName lineNumber
    = Processed (LPush seg idx fileName) /\
  assemble other (GeneratePushCode seg idx file) = None.
Proof.
  intros Hd Hv Hkw Hseg. split.
  - unfold classify.
    change (InitializeCommandTypeDictionary "push") with (Some CommandType.Push).
    cbv iota beta. rewrite Hkw, Hd. reflexivity.
  - unfold assemble.
    rewrite (parse_all_fails _ ("@" ++ idx)); [reflexivity | |].
    + destruct Hseg as [-> | Hs]; [right; left; reflexivity|].
      destruct seg; try discriminate Hs; right; left; reflexivity.
    + apply parse_oversized_number; assumption.
Qed.

Lemma oversized_index_is_not_checked_witness :
  classify ["push"; "constant"; "32768"] "Main" 1
    = Processed (LPush MemorySegment.Constant "32768" "Main") /\
  assemble no_symbols (GeneratePushCode MemorySegment.Constant "32768" "Main")
    = None.
Proof.
  apply (oversized_index_is_not_checked no_symbols MemorySegment.Constant
           "32768" "Main" "Main" 1 "constant");
    [ reflexivity | vm_compute; reflexivity | reflexivity
    | left; reflexivity ].
Defined.

(** X6: the argument count of a call is whatever [int] reads from
    the third word, a negative number included; a count below 0 or above
    32767 is written into an A-instruction as it is, and the emitted text
    is not Hack assembly. *)
Theorem unencodable_counts_are_not_checked other f n ret w fileName lineNumber :
  Py.int w = Some n ->
  classify ["call"; f; w] fileName lineNumber = Processed (LCall f n) /\
  (n < 0 \/ 32767 < n ->
   assemble other (GenerateFunctionCallCode f n ret) = None).
Proof.
  intros Hw. split.
  - unfold classify.
    change (InitializeCommandTypeDictionary "call") with (Some CommandType.Call).
    cbv iota beta. rewrite Hw. reflexivity.
  - intros Hn. unfold assemble.
    rewrite (parse_all_fails _ ("@" ++ Py.str n)); [reflexivity | |].
    + unfold GenerateFunctionCallCode, PushAddress. apply in_or_app. right.
      cbn [app]. do 24 (apply in_cons). do 4 right. left. reflexivity.
    + destruct Hn as [Hn | Hn]; [apply parse_negative_number; exact Hn|].
      apply parse_oversized_number; [apply str_isdigit; lia|].
      rewrite int_of_digits_str by lia. exact Hn.
Qed.

Lemma unencodable_counts_are_not_checked_witness :
  classify ["call"; "Main.run"; "-1"] "Main" 1
    = Processed (LCall "Main.run" (-1)) /\
  assemble no_symbols (GenerateFunctionCallCode "Main.run" (-1) "r") = None.
Proof.
  destruct (unencodable_counts_are_not_checked no_symbols "Main.run" (-1) "r"
              "-1" "Main" 1 eq_refl) as [C N].
  split; [exact C | apply N; left; reflexivity].
Defined.


(* ------------------------------------------------------------------ *)
(** ** Functions *)

(** X7: the code of a function definition with [k] local variables
    writes 0 into the [k] cells from the stack pointer on and moves the
    stack pointer behind them; no other cell changes, and for [k <= 0] it
    changes nothing. *)
Theorem function_definition_clears_locals other f k m :
  is_symbol f = true ->
  0 < SP m ->
  SP m + Z.max 0 k < 65536 ->
  exists m', exec other (GenerateFunctionDefinitionCode f k) m = Some m' /\
    SP m' = SP m + Z.max 0 k /\
    (forall a, SP m <= a < SP m + k -> RAM m' a = 0) /\
    (forall a, a <> 0 -> ~ (SP m <= a < SP m + k) -> RAM m' a = RAM m a).
Proof.
  intros Hf Hsp Hk. destruct m as [a d ram]. unfold SP in *. cbn [RAM] in *.
  eexists. split.
  - eapply exec_straight; [apply function_definition_assembled, Hf|].
    cbn [app forallb no_jump andb]. rewrite forallb_app, clear_locals_no_jump.
    reflexivity.
  - cbn [app]. rewrite !exec_block_cons.
    cbn [exec_instr eval operand_value A D RAM toA toD toM fst].
    rewrite exec_block_app.
    destruct (clear_locals_run (Z.to_nat k) (ram 0) d ram ltac:(lia) ltac:(lia))
      as (ram' & E & Z0 & Keep).
    rewrite E. rewrite !exec_block_cons.
    cbn [exec_instr eval operand_value A D RAM toA toD toM fst exec_block].
    rewrite upd_same. split; [lia|]. split.
    + intros c Hc. rewrite upd_other by lia. apply Z0. lia.
    + intros c Hc0 Hc. rewrite upd_other by lia. apply Keep. lia.
Qed.

Lemma function_definition_clears_locals_witness :
  exists m',
    exec no_symbols (GenerateFunctionDefinitionCode "Main.run" 2)
      sample_machine = Some m' /\
    SP m' = SP sample_machine + Z.max 0 2 /\
    (forall a, SP sample_machine <= a < SP sample_machine + 2 -> RAM m' a = 0) /\
    (forall a, a <> 0 -> ~ (SP sample_machine <= a < SP sample_machine + 2) ->
               RAM m' a = RAM sample_machine a).
Proof.
  apply (function_definition_clears_locals no_symbols "Main.run" 2
           sample_machine); by_evaluation.
Defined.

(** X8: the code of [call f n] pushes the return address, LCL, ARG,
    THIS and THAT, in this order, sets ARG to the first of the [n]
    arguments and LCL to the new stack pointer, and jumps to [f]; the
    arguments and every cell outside the five new ones, the stack pointer,
    LCL and ARG are left as they were. *)
Theorem call_builds_frame labels other rom f n ret base m :
  let res := resolve labels other in
  is_symbol f = true -> is_symbol ret = true -> 0 <= n <= 32767 ->
  loaded res rom base (GenerateFunctionCallCode f n ret) ->
  16 <= SP m - n -> SP m + 5 < 65536 ->
  exists m',
    steps rom 44 (base, m) = Some (res f, m') /\
    SP m' = SP m + 5 /\ LCL m' = SP m + 5 /\ ARG m' = SP m - n /\
    RAM m' (SP m) = res ret /\
    RAM m' (SP m + 1) = LCL m /\ RAM m' (SP m + 2) = ARG m /\
    RAM m' (SP m + 3) = THIS m /\ RAM m' (SP m + 4) = THAT m /\
    (forall a, 2 < a -> ~ (SP m <= a < SP m + 5) -> RAM m' a = RAM m a).
Proof.
  intros res Hf Hr Hn Hcall Hlo Hhi.
  unfold loaded in Hcall.
  destruct (call_loaded labels other f n ret Hf Hr Hn) as (lc & Pc & Ec).
  fold res in Ec. rewrite Pc, Ec in Hcall. clear Pc Ec lc.
  destruct m as [a d ram]. unfold SP, LCL, ARG, THIS, THAT in *.
  cbn [RAM] in *.
  pose proof (call_steps rom base _ n _ a d ram Hcall ltac:(lia) Hlo Hhi)
    as Scall.
  destruct (frame_after_call_reads ram (res ret) n ltac:(lia) Hlo Hhi)
    as (F0 & F1 & F2 & G0 & G1 & G2 & G3 & G4).
  eexists. split; [exact Scall|]. cbn [RAM].
  repeat (split; [assumption|]).
  intros c Hc Hout. unfold frame_after_call.
  rewrite !upd_other by lia. reflexivity.
Qed.

Lemma call_builds_frame_witness :
  exists m',
    steps sample_rom 44 (46, sample_machine)
    = Some (resolve sample_labels no_symbols "f", m') /\
    SP m' = SP sample_machine + 5 /\ LCL m' = SP sample_machine + 5 /\
    ARG m' = SP sample_machine - 2 /\
    RAM m' (SP sample_machine)
    = resolve sample_labels no_symbols (returnName "f" 1) /\
    RAM m' (SP sample_machine + 1) = LCL sample_machine /\
    RAM m' (SP sample_machine + 2) = ARG sample_machine /\
    RAM m' (SP sample_machine + 3) = THIS sample_machine /\
    RAM m' (SP sample_machine + 4) = THAT sample_machine /\
    (forall a, 2 < a ->
               ~ (SP sample_machine <= a < SP sample_machine + 5) ->
               RAM m' a = RAM sample_machine a).
Proof.
  apply (call_builds_frame sample_labels no_symbols sample_rom "f" 2
           (returnName "f" 1) 46 sample_machine); by_evaluation.
Defined.

(** X9: the code of [return] works on any frame, whatever the
    callee has pushed or kept in its locals: it jumps to the address saved
    five cells below LCL, puts the top of the stack where ARG points,
    sets the stack pointer one cell above, and restores THAT, THIS, ARG
    and LCL from the four cells below LCL.  This holds for a function
    without arguments too, where the returned value overwrites the saved
    return address. *)
Theorem return_unwinds_frame labels other rom base m :
  loaded (resolve labels other) rom base GenerateReturnCode ->
  21 <= LCL m < 65536 -> 16 <= ARG m <= LCL m - 5 -> 16 < SP m < 65536 ->
  exists m',
    steps rom 46 (base, m) = Some (RAM m (LCL m - 5), m') /\
    SP m' = ARG m + 1 /\
    RAM m' (ARG m) = RAM m (SP m - 1) /\
    LCL m' = RAM m (LCL m - 4) /\ ARG m' = RAM m (LCL m - 3) /\
    THIS m' = RAM m (LCL m - 2) /\ THAT m' = RAM m (LCL m - 1) /\
    (forall c, 4 < c -> c <> 13 -> c <> ARG m -> RAM m' c = RAM m c).
Proof.
  intros Hret Hl Ha Hs. unfold loaded in Hret.
  destruct (return_loaded (resolve labels other)
              (resolve_predefined labels other)) as (lr & Pr & Er).
  rewrite Pr, Er in Hret. clear Pr Er lr.
  destruct m as [a d ram]. unfold SP, LCL, ARG, THIS, THAT in *.
  cbn [RAM] in *.
  destruct (return_steps rom base a d ram Hret Hl Ha Hs)
    as (m' & S & R0 & Rarg & R1 & R2 & R3 & R4 & K).
  exists m'. split; [exact S|].
  repeat (split; [assumption|]).
  intros c Hc H13 Harg. apply K; lia.
Qed.

Lemma return_unwinds_frame_witness :
  exists m',
    steps sample_rom 46 (0, callee_machine)
    = Some (RAM callee_machine (LCL callee_machine - 5), m') /\
    SP m' = ARG callee_machine + 1 /\
    RAM m' (ARG callee_machine) = RAM callee_machine (SP callee_machine - 1) /\
    LCL m' = RAM callee_machine (LCL callee_machine - 4) /\
    ARG m' = RAM callee_machine (LCL callee_machine - 3) /\
    THIS m' = RAM callee_machine (LCL callee_machine - 2) /\
    THAT m' = RAM callee_machine (LCL callee_machine - 1) /\
    (forall c, 4 < c -> c <> 13 -> c <> ARG callee_machine ->
               RAM m' c = RAM callee_machine c).
Proof.
  apply (return_unwinds_frame sample_labels no_symbols sample_rom 0
           callee_machine); by_evaluation.
Defined.


(* ------------------------------------------------------------------ *)
(** ** Branches *)

(** X10: the two instructions emitted for [goto] move control to the
    address of the scoped label and change neither the D register nor
    the memory. *)
Theorem goto_transfers_control c name labels other rom base m :
  let res := resolve labels other in
  is_symbol (scoped_label c name) = true ->
  loaded res rom base (snd (translate_line c (LGoto name))) ->
  steps rom 2 (base, m)
  = Some (res (scoped_label c name),
          mkMachine (res (scoped_label c name)) (D m) (RAM m)).
Proof.
  intros res Hs L. unfold loaded in L. cbn [translate_line snd parse_all] in L.
  replace ("@" ++ functionName c ++ "$" ++ name ++ tabs ++ "//Goto label "
             ++ functionName c ++ "$" ++ name)
    with ("@" ++ scoped_label c name ++ tabs ++ "//"
             ++ "Goto label " ++ functionName c ++ "$" ++ name) in L
    by (unfold scoped_label; rewrite <- !append_assoc3; reflexivity).
  rewrite (parse_symbol_comment_line _ _ Hs) in L.
  change (parse "0;JMP")
    with (Some (CInstr (mkDest false false false) Zero JMP)) in L.
  cbn [encode] in L.
  cbn [steps]. unfold step at 1.
  rewrite (code_at_head _ _ _ _ L). cbn [exec_instr D RAM].
  unfold step. rewrite (code_at_head _ _ _ _ (code_at_tail _ _ _ _ L)).
  reflexivity.
Qed.

Lemma goto_transfers_control_witness :
  steps [At 0; jump_instr] 2 (0, sample_machine)
  = Some (resolve [] no_symbols (scoped_label sample_context "LOOP"),
          mkMachine (resolve [] no_symbols (scoped_label sample_context "LOOP"))
            (D sample_machine) (RAM sample_machine)).
Proof.
  apply (goto_transfers_control sample_context "LOOP" [] no_symbols
           [At 0; jump_instr] 0 sample_machine); by_evaluation.
Defined.

(** X11: the code emitted for [if-goto] pops the top of the stack
    and moves control to the scoped label when the popped word is not
    zero, to the next command when it is zero; apart from the stack
    pointer no cell changes. *)
Theorem if_goto_pops_and_tests c name labels other rom base m :
  let res := resolve labels other in
  is_symbol (scoped_label c name) = true ->
  loaded res rom base (snd (translate_line c (LIfGoto name))) ->
  1 < SP m < 65536 ->
  0 <= RAM m (SP m - 1) < 65536 ->
  exists m',
    steps rom 6 (base, m)
    = Some (if RAM m (SP m - 1) =? 0 then base + 6
            else res (scoped_label c name), m') /\
    SP m' = SP m - 1 /\
    (forall a, a <> 0 -> RAM m' a = RAM m a).
Proof.
  intros res Hs L Hsp Hv. unfold loaded in L.
  cbn [translate_line snd parse_all] in L.
  change (tabs ++ "//If-Goto label " ++ functionName c ++ "$" ++ name)
    with (tabs ++ String "/" (String "/"
            ("If-Goto label " ++ functionName c ++ "$" ++ name))) in L.
  rewrite parse_comment_line in L.
  change ("@" ++ functionName c ++ "$" ++ name)
    with (String "@" (scoped_label c name)) in L.
  rewrite (parse_symbol_line _ Hs) in L.
  change (parse "@SP") with (Some (AInstr (Sym "SP"))) in L.
  change (parse "M=M-1")
    with (Some (CInstr (mkDest false false true) (DecX RegM) JNone)) in L.
  change (parse "A=M")
    with (Some (CInstr (mkDest true false false) (Val RegM) JNone)) in L.
  change (parse "D=M")
    with (Some (CInstr (mkDest false true false) (Val RegM) JNone)) in L.
  change (parse "D;JNE")
    with (Some (CInstr (mkDest false false false) ValD JNE)) in L.
  cbn [encode] in L.
  change (res "SP") with 0 in L.
  destruct m as [a d ram]. unfold SP in *. cbn [RAM] in *.
  set (target := res (scoped_label c name)) in *.
  change [At 0;
          Compute (mkDest false false true) (DecX RegM) JNone;
          Compute (mkDest true false false) (Val RegM) JNone;
          Compute (mkDest false true false) (Val RegM) JNone;
          At target;
          Compute (mkDest false false false) ValD JNE]
    with ([At 0;
          Compute (mkDest false false true) (DecX RegM) JNone;
          Compute (mkDest true false false) (Val RegM) JNone;
          Compute (mkDest false true false) (Val RegM) JNone;
          At target] ++
          [Compute (mkDest false false false) ValD JNE])%list in L.
  apply code_at_app in L as [L1 L2].
  pose proof (steps_block rom _ base (mkMachine a d ram) L1 eq_refl) as S1.
  cbn [List.length] in S1, L2.
  change (Z.of_nat 5) with 5 in *.
  change 6%nat with (5 + 1)%nat. rewrite steps_app, S1.
  cbn [steps]. unfold step.
  rewrite (code_at_head _ _ _ _ L2).
  run_block_tac. mem_norm.
  eexists. split.
  - cbn [exec_instr eval D A]. unfold jumps, signed.
    replace (base + 5 + 1) with (base + 6) by lia.
    destruct (Z.ltb_spec (ram (ram 0 - 1)) 32768);
      destruct (Z.eqb_spec (ram (ram 0 - 1)) 0);
      try (destruct (Z.eqb_spec (ram (ram 0 - 1) - 65536) 0); try lia);
      reflexivity.
  - cbn [RAM]. split; [mem_norm; reflexivity|].
    intros x Hx. mem_norm. reflexivity.
Qed.

Lemma if_goto_pops_and_tests_witness :
  exists m',
    steps [ At 0;
            Compute (mkDest false false true) (DecX RegM) JNone;
            Compute (mkDest true false false) (Val RegM) JNone;
            Compute (mkDest false true false) (Val RegM) JNone;
            At 0;
            Compute (mkDest false false false) ValD JNE ] 6 (0, sample_machine)
    = Some (if RAM sample_machine (SP sample_machine - 1) =? 0 then 0 + 6
            else resolve [] no_symbols (scoped_label sample_context "LOOP"),
            m') /\
    SP m' = SP sample_machine - 1 /\
    (forall a, a <> 0 -> RAM m' a = RAM sample_machine a).
Proof.
  apply (if_goto_pops_and_tests sample_context "LOOP" [] no_symbols
           [ At 0;
             Compute (mkDest false false true) (DecX RegM) JNone;
             Compute (mkDest true false false) (Val RegM) JNone;
             Compute (mkDest false true false) (Val RegM) JNone;
             At 0;
             Compute (mkDest false false false) ValD JNE ] 0 sample_machine);
    by_evaluation.
Defined.

(** X12: in the output of the translation loop for [push constant a],
    [push constant b] and an arithmetic command, run as one piece of
    code, the result of the command on [a] and [b] ends up on top of the
    stack: one cell above the old top for a binary command, two for a
    unary one, which rewrites [b] and leaves [a] below. *)
Theorem constant_expression other c a b file aType m :
  Py.isdigit a = true -> Py.isdigit b = true ->
  Py.int_of_digits a <= 32767 -> Py.int_of_digits b <= 32767 ->
  0 < SP m < 65534 ->
  exists m',
    exec other
      (snd (translate_lines c []
              [ LPush MemorySegment.Constant a file;
                LPush MemorySegment.Constant b file;
                LArithmetic aType ])) m = Some m' /\
    SP m' = SP m + (if is_unary aType then 2 else 1) /\
    RAM m' (SP m' - 1)
    = arithmetic_result aType (Py.int_of_digits a) (Py.int_of_digits b).
Proof.
  intros Ha Hb Ra Rb Hsp.
  pose proof (int_of_digits_nonneg a) as Na.
  pose proof (int_of_digits_nonneg b) as Nb.
  destruct m as [ra rd ram]. unfold SP in *. cbn [RAM] in *.
  destruct aType;
    (eexists; split;
      [ eapply exec_straight;
          [ cbn [translate_lines translate_line snd app];
            unfold assemble; text_norm; cbn [parse_all];
            repeat rewrite parse_comment_line;
            rewrite (parse_number_line a), (parse_number_line b) by assumption;
            match goal with
            | |- context [parse_all (GenerateArithmeticCode ?t)] =>
                let v := eval vm_compute in
                           (parse_all (GenerateArithmeticCode t)) in
                change (parse_all (GenerateArithmeticCode t)) with v
            end;
            lazy -[resolve Py.int_of_digits Py.str String.append wrap Z.add];
            resolve_names; reflexivity
          | reflexivity ] | ]).
  all: run_block_tac; cbn [is_unary arithmetic_result]; mem_norm.
  all: split; [lia|]; mem_norm.
  - lia.
  - reflexivity.
  - reflexivity.
  - rewrite Z.land_comm. apply wrap_land; lia.
  - rewrite Z.lor_comm. apply wrap_lor; lia.
  - reflexivity.
Qed.

Lemma constant_expression_witness :
  exists m',
    exec no_symbols
      (snd (translate_lines initialContext []
              [ LPush MemorySegment.Constant "7" "Main";
                LPush MemorySegment.Constant "8" "Main";
                LArithmetic ArithmeticType.Add ])) sample_machine = Some m' /\
    SP m' = SP sample_machine + 1 /\
    RAM m' (SP m' - 1)
    = arithmetic_result ArithmeticType.Add
        (Py.int_of_digits "7") (Py.int_of_digits "8").
Proof.
  apply (constant_expression no_symbols initialContext "7" "8" "Main"
           ArithmeticType.Add sample_machine); by_evaluation.
Defined.


Section Programs.
Local Open Scope list_scope.

(** X13: in a program that holds the text of a label command, the
    assembler resolves the scoped label to the number of instructions
    before it, that is, to the address of the instruction that follows
    the label, provided the text before defines no label of that name. *)
Theorem label_names_next_instruction other c name t1 t2 ls1 ls2 :
  is_symbol (scoped_label c name) = true ->
  parse_all t1 = Some ls1 ->
  parse_all t2 = Some ls2 ->
  lookup (label_table ls1 0) (scoped_label c name) = None ->
  exists ls,
    parse_all (t1 ++ snd (translate_line c (LLabel name)) ++ t2) = Some ls /\
    resolve (label_table ls 0) other (scoped_label c name)
    = instruction_count t1.
Proof.
  intros Hs P1 P2 Hnew.
  rewrite !parse_all_app, P1, (label_text_parsed _ _ Hs), P2.
  eexists. split; [reflexivity|].
  rewrite label_position by (try apply scoped_label_not_predefined; exact Hnew).
  unfold instruction_count. rewrite P1. reflexivity.
Qed.

Lemma label_names_next_instruction_witness :
  exists ls,
    parse_all ([ "@1"; "D=A" ]
               ++ snd (translate_line sample_context (LLabel "LOOP"))
               ++ [ "0;JMP" ]) = Some ls /\
    resolve (label_table ls 0) no_symbols (scoped_label sample_context "LOOP")
    = instruction_count [ "@1"; "D=A" ].
Proof.
  apply (label_names_next_instruction no_symbols sample_context "LOOP"
           [ "@1"; "D=A" ] [ "0;JMP" ]
           [ AInstr (Num 1); CInstr (mkDest false true false) (Val RegA) JNone ]
           [ CInstr (mkDest false false false) Zero JMP ]);
    reflexivity.
Defined.

(** X14: a goto behind a label of the same name, translated under
    the same function name, closes a loop: in the assembled program the
    two instructions of the goto bring control back to the instruction
    that follows the label. *)
Theorem goto_closes_loop other c1 c2 name t1 t2 t3 ls1 ls2 ls3 m :
  functionName c2 = functionName c1 ->
  is_symbol (scoped_label c1 name) = true ->
  parse_all t1 = Some ls1 -> parse_all t2 = Some ls2 ->
  parse_all t3 = Some ls3 ->
  lookup (label_table ls1 0) (scoped_label c1 name) = None ->
  let label := snd (translate_line c1 (LLabel name)) in
  let goto := snd (translate_line c2 (LGoto name)) in
  exists rom,
    assemble other (t1 ++ label ++ t2 ++ goto ++ t3) = Some rom /\
    steps rom 2 (instruction_count (t1 ++ label ++ t2), m)
    = Some (instruction_count t1,
            mkMachine (instruction_count t1) (D m) (RAM m)).
Proof.
  intros Hf Hs P1 P2 P3 Hnew label goto.
  assert (Hl : scoped_label c2 name = scoped_label c1 name)
    by (unfold scoped_label; rewrite Hf; reflexivity).
  assert (Hs2 : is_symbol (scoped_label c2 name) = true)
    by (rewrite Hl; exact Hs).
  assert (Pg := goto_text_parsed c2 name Hs2).
  set (jump := [AInstr (Sym (scoped_label c2 name));
                CInstr (mkDest false false false) Zero JMP]) in *.
  set (mark := [Blank; LabelDef (scoped_label c1 name); Blank]).
  assert (P : parse_all (t1 ++ label ++ t2 ++ goto ++ t3)
              = Some (ls1 ++ mark ++ ls2 ++ jump ++ ls3)).
  { unfold label, goto.
    rewrite !parse_all_app, P1, (label_text_parsed _ _ Hs), P2, Pg, P3.
    reflexivity. }
  assert (R : resolve (label_table (ls1 ++ mark ++ ls2 ++ jump ++ ls3) 0) other
                (scoped_label c1 name) = instruction_count t1).
  { unfold mark. rewrite label_position
      by (try apply scoped_label_not_predefined; exact Hnew).
    unfold instruction_count. rewrite P1. reflexivity. }
  unfold assemble. rewrite P. eexists. split; [reflexivity|].
  set (res := resolve (label_table (ls1 ++ mark ++ ls2 ++ jump ++ ls3) 0) other)
    in *.
  assert (B : instruction_count (t1 ++ label ++ t2)
              = Z.of_nat (List.length (encode res (ls1 ++ mark ++ ls2)))).
  { unfold instruction_count, label.
    rewrite !parse_all_app, P1, (label_text_parsed _ _ Hs), P2.
    f_equal. apply encode_length. }
  assert (C : code_at (encode res (ls1 ++ mark ++ ls2 ++ jump ++ ls3))
                (instruction_count (t1 ++ label ++ t2))
                [At (res (scoped_label c2 name)); jump_instr]).
  { rewrite B.
    replace (ls1 ++ mark ++ ls2 ++ jump ++ ls3)
      with ((ls1 ++ mark ++ ls2) ++ jump ++ ls3)
      by (rewrite <- !List.app_assoc; reflexivity).
    rewrite !encode_app.
    apply (code_at_middle _ [At (res (scoped_label c2 name)); jump_instr]). }
  cbn [steps]. unfold step at 1.
  rewrite (code_at_head _ _ _ _ C). cbn [exec_instr D RAM].
  unfold step. rewrite (code_at_head _ _ _ _ (code_at_tail _ _ _ _ C)).
  cbn [exec_instr eval jumps A D RAM toA toD toM jump_instr].
  rewrite Hl, R. reflexivity.
Qed.

Lemma goto_closes_loop_witness :
  exists rom,
    assemble no_symbols
      ([ "@1"; "D=A" ]
       ++ snd (translate_line sample_context (LLabel "LOOP"))
       ++ [ "D=D+A" ]
       ++ snd (translate_line sample_context (LGoto "LOOP")) ++ []) = Some rom /\
    steps rom 2
      (instruction_count
         ([ "@1"; "D=A" ]
          ++ snd (translate_line sample_context (LLabel "LOOP"))
          ++ [ "D=D+A" ]), sample_machine)
    = Some (instruction_count [ "@1"; "D=A" ],
            mkMachine (instruction_count [ "@1"; "D=A" ])
              (D sample_machine) (RAM sample_machine)).
Proof.
  apply (goto_closes_loop no_symbols sample_context sample_context "LOOP"
           [ "@1"; "D=A" ] [ "D=D+A" ] []
           [ AInstr (Num 1); CInstr (mkDest false true false) (Val RegA) JNone ]
           [ CInstr (mkDest false true false) (DPlusX RegA) JNone ] []
           sample_machine); reflexivity.
Defined.

(** X15: the name in front of the [$] of a label, goto or if-goto is
    the name given by the last function definition or call before the
    command, whichever came later: after [function g], and equally after
    [call g], the three commands are written with [g$]. *)
Theorem branch_scope_is_last_function_or_call c p opener q name after g :
  sets_scope opener = Some g ->
  forallb keeps_scope q = true ->
  let at_branch b :=
    nth_error (translations c (p ++ opener :: q ++ b :: after))
              (List.length (p ++ opener :: q)) in
  at_branch (LLabel name)
  = Some [ ""; ("(" ++ g ++ "$" ++ name ++ ")")%string; "" ] /\
  at_branch (LGoto name)
  = Some [ ("@" ++ g ++ "$" ++ name ++ tabs ++ "//Goto label "
              ++ g ++ "$" ++ name)%string; "0;JMP" ] /\
  at_branch (LIfGoto name)
  = Some [ (tabs ++ "//If-Goto label " ++ g ++ "$" ++ name)%string;
           "@SP"; "M=M-1"; "A=M"; "D=M";
           ("@" ++ g ++ "$" ++ name)%string; "D;JNE" ].
Proof.
  intros Ho Hq at_branch.
  assert (S : functionName (fst (translate_lines c [] (p ++ opener :: q))) = g).
  { rewrite functionName_final, scope_after_app.
    destruct opener; try discriminate Ho; injection Ho as ->;
      simpl; apply scope_after_quiet, Hq. }
  assert (R : forall b,
    at_branch b
    = Some (snd (translate_line
                   (fst (translate_lines c [] (p ++ opener :: q))) b))).
  { intros b. unfold at_branch.
    replace (p ++ opener :: q ++ b :: after)
      with ((p ++ opener :: q) ++ b :: after)
      by (rewrite <- List.app_assoc; reflexivity).
    apply translation_at. }
  rewrite !R. cbn [translate_line snd]. rewrite S. repeat split.
Qed.

Lemma branch_scope_is_last_function_or_call_witness :
  let at_branch b :=
    nth_error
      (translations initialContext
         ([ LFunction "Sys.init" 0; LLabel "LOOP" ]
          ++ LCall "Sys.helper" 0 :: [ LArithmetic ArithmeticType.Add ]
          ++ b :: []))
      (List.length ([ LFunction "Sys.init" 0; LLabel "LOOP" ]
                    ++ LCall "Sys.helper" 0
                    :: [ LArithmetic ArithmeticType.Add ])) in
  at_branch (LLabel "LOOP")
  = Some [ ""; ("(" ++ "Sys.helper" ++ "$" ++ "LOOP" ++ ")")%string; "" ] /\
  at_branch (LGoto "LOOP")
  = Some [ ("@" ++ "Sys.helper" ++ "$" ++ "LOOP" ++ tabs ++ "//Goto label "
              ++ "Sys.helper" ++ "$" ++ "LOOP")%string; "0;JMP" ] /\
  at_branch (LIfGoto "LOOP")
  = Some [ (tabs ++ "//If-Goto label " ++ "Sys.helper" ++ "$" ++ "LOOP")%string;
           "@SP"; "M=M-1"; "A=M"; "D=M";
           ("@" ++ "Sys.helper" ++ "$" ++ "LOOP")%string; "D;JNE" ].
Proof.
  apply (branch_scope_is_last_function_or_call initialContext
           [ LFunction "Sys.init" 0; LLabel "LOOP" ] (LCall "Sys.helper" 0)
           [ LArithmetic ArithmeticType.Add ] "LOOP" [] "Sys.helper");
    reflexivity.
Defined.

(** X16: the translation loop never writes a line the assembler
    cannot read: when the indices of the commands fit an A-instruction,
    the argument counts lie in 0..32767 and the names can be symbols, the
    whole output, bootstrap code included, is Hack assembly. *)
Theorem emitted_text_is_assembly other lines :
  encodable_all initialContext lines = true ->
  exists rom,
    assemble other
      (snd (translate_lines initialContext GenerateBootStrapCode lines))
    = Some rom.
Proof.
  intros H. rewrite translate_lines_spec. cbn [snd].
  destruct (translations_parsed lines initialContext
              ltac:(simpl; lia) ltac:(simpl; lia) H) as (ls & P).
  unfold assemble. rewrite parse_all_app, bootstrap_parsed, P.
  eexists. reflexivity.
Qed.

Lemma emitted_text_is_assembly_witness :
  exists rom,
    assemble no_symbols
      (snd (translate_lines initialContext GenerateBootStrapCode
              [ LFunction "Sys.init" 0;
                LPush MemorySegment.Constant "7" "Main";
                LLabel "LOOP"; LGoto "LOOP" ])) = Some rom.
Proof.
  apply (emitted_text_is_assembly no_symbols
           [ LFunction "Sys.init" 0;
             LPush MemorySegment.Constant "7" "Main";
             LLabel "LOOP"; LGoto "LOOP" ]); reflexivity.
Defined.

End Programs.


(* ------------------------------------------------------------------ *)
(** ** The parser *)

(** X17: blanks around a line and a comment behind it do not change
    what the parser makes of the line, and a line made of blanks and a
    comment only is skipped. *)
Theorem margins_and_comments_ignored fileName n ws1 ws2 line comment :
  all_space ws1 = true -> all_space ws2 = true -> no_slash line = true ->
  parse_line fileName n (ws1 ++ line ++ ws2) = parse_line fileName n line /\
  parse_line fileName n (line ++ "//" ++ comment) = parse_line fileName n line /\
  parse_line fileName n (ws1 ++ "//" ++ comment) = Skipped.
Proof.
  intros H1 H2 Hs.
  assert (C : forall l, no_slash l = true ->
     Py.strip (Py.before_comment (Py.strip (l ++ "//" ++ comment)))
     = Py.strip l).
  { intros l Hl. unfold Py.strip at 2. rewrite lstrip_comment.
    destruct (rstrip_comment (Py.lstrip l) comment) as [t' E]. rewrite E.
    rewrite before_comment_cut by (apply no_slash_lstrip, Hl).
    unfold Py.strip.
    assert (L : Py.lstrip (Py.lstrip l) = Py.lstrip l).
    { clear. induction l as [|c r IH]; [reflexivity|].
      simpl. destruct (Py.is_space c) eqn:Hc; [exact IH|].
      simpl. rewrite Hc. reflexivity. }
    rewrite L. reflexivity. }
  assert (P : forall l, no_slash l = true ->
     Py.strip (Py.before_comment (Py.strip l)) = Py.strip l).
  { intros l Hl. rewrite before_comment_no_slash.
    - apply strip_idempotent.
    - unfold Py.strip. apply no_slash_rstrip, no_slash_lstrip, Hl. }
  split; [|split].
  - unfold parse_line. rewrite strip_margins by assumption. reflexivity.
  - unfold parse_line. rewrite (C _ Hs), (P _ Hs). reflexivity.
  - unfold parse_line.
    assert (W : no_slash ws1 = true).
    { clear - H1. induction ws1 as [|c r IH]; [reflexivity|].
      simpl in *. apply andb_true_iff in H1 as [Hc Hr].
      rewrite (IH Hr), andb_true_r.
      revert Hc. all_chars c; vm_compute; congruence. }
    rewrite (C _ W). unfold Py.strip.
    rewrite (rstrip_all_space (Py.lstrip ws1)); [reflexivity|].
    clear - H1. induction ws1 as [|c r IH]; [reflexivity|].
    simpl in *. apply andb_true_iff in H1 as [Hc Hr]. rewrite Hc. apply IH, Hr.
Qed.

Lemma margins_and_comments_ignored_witness :
  parse_line "Main" 1 ("  " ++ "push constant 7" ++ " ")
    = parse_line "Main" 1 "push constant 7" /\
  parse_line "Main" 1 ("push constant 7" ++ "//" ++ " seven")
    = parse_line "Main" 1 "push constant 7" /\
  parse_line "Main" 1 ("  " ++ "//" ++ " seven") = Skipped.
Proof.
  apply (margins_and_comments_ignored "Main" 1 "  " " " "push constant 7"
           " seven"); reflexivity.
Defined.

(** X18: the parser reads back every command: the keyword of a
    command followed by its operands, separated by single blanks, yields
    the processed line of that command, for each of the arithmetic and
    comparison commands, each of the eight segments, every digit string
    as index, every word as name and every integer as count. *)
Theorem parse_source_text fileName n p :
  well_formed fileName p = true ->
  parse_line fileName n (source_text p) = Processed p.
Proof.
  intros H. unfold source_text.
  rewrite words_classified.
  - destruct p; cbn [command_words well_formed] in *.
    + destruct aType; reflexivity.
    + destruct aType; reflexivity.
    + apply andb_true_iff in H as [H Hf]. apply andb_true_iff in H as [Hs Hd].
      apply String.eqb_eq in Hf. subst fileName0.
      destruct segment; try discriminate; unfold classify; simpl;
        rewrite Hd; reflexivity.
    + apply andb_true_iff in H as [H Hf]. apply andb_true_iff in H as [Hs Hd].
      apply String.eqb_eq in Hf. subst fileName0.
      destruct segment; try discriminate; unfold classify; simpl;
        rewrite Hd; reflexivity.
    + reflexivity.
    + reflexivity.
    + reflexivity.
    + unfold classify. simpl. rewrite int_str. reflexivity.
    + unfold classify. simpl. rewrite int_str. reflexivity.
    + reflexivity.
    + discriminate.
  - destruct p; try discriminate.
  - destruct p; cbn [command_words well_formed forallb] in *;
      try (destruct aType; reflexivity);
      try reflexivity; try discriminate;
      try (rewrite H; reflexivity);
      try (rewrite H, str_word; reflexivity).
    + apply andb_true_iff in H as [H Hf]. apply andb_true_iff in H as [Hs Hd].
      rewrite (digits_word _ Hd). destruct segment; try discriminate; reflexivity.
    + apply andb_true_iff in H as [H Hf]. apply andb_true_iff in H as [Hs Hd].
      rewrite (digits_word _ Hd). destruct segment; try discriminate; reflexivity.
Qed.

Lemma parse_source_text_witness :
  parse_line "Main" 1 (source_text (LCall "Main.run" 2))
  = Processed (LCall "Main.run" 2).
Proof. apply (parse_source_text "Main" 1 (LCall "Main.run" 2)); reflexivity. Defined.

(** X19: the line counter runs over all files without being reset:
    after parsing it equals the number of lines read, and every recorded
    error carries the position, counted from 1 over the lines of all
    files, of a line the parser rejected. *)
Theorem errors_carry_line_numbers files st :
  parse_files initialParseState files = Some st ->
  lineNumber st = Z.of_nat (List.length (all_lines files)) /\
  forall e, In e (errors st) ->
    exists n fileName line,
      e = LInvalid n /\ 1 <= n /\
      nth_error (all_lines files) (Z.to_nat (n - 1)) = Some line /\
      parse_line fileName n line = Processed (LInvalid n).
Proof.
  intros H.
  assert (I : parsed_so_far [] initialParseState)
    by (split; [reflexivity | constructor]).
  destruct (parse_files_located _ _ _ _ I H) as [L E].
  split; [exact L|].
  intros e He. rewrite Forall_forall in E. exact (E e He).
Qed.

Lemma errors_carry_line_numbers_witness :
  exists st,
    parse_files initialParseState faulty_source = Some st /\
    lineNumber st = Z.of_nat (List.length (all_lines faulty_source)) /\
    forall e, In e (errors st) ->
      exists n fileName line,
        e = LInvalid n /\ 1 <= n /\
        nth_error (all_lines faulty_source) (Z.to_nat (n - 1)) = Some line /\
        parse_line fileName n line = Processed (LInvalid n).
Proof.
  destruct (parse_files initialParseState faulty_source) as [st|] eqn:E;
    [|vm_compute in E; discriminate E].
  exists st. split; [reflexivity|].
  exact (errors_carry_line_numbers faulty_source st E).
Defined.

(** X20: a file is written only if every line of every input file
    is blank, a comment or a valid command: one invalid line anywhere
    keeps the program from writing anything. *)
Theorem invalid_line_blocks_output files out :
  main files = Written out ->
  forall fileName lines line n,
    In (fileName, lines) files -> In line lines ->
    is_accepted (parse_line fileName n line) = true.
Proof.
  intros H.
  destruct (main_written _ _ H) as (st & P & _ & E & _).
  exact (proj2 (parse_files_clean _ _ _ P E)).
Qed.

Lemma invalid_line_blocks_output_witness :
  exists out,
    main sample_source = Written out /\
    forall fileName lines line n,
      In (fileName, lines) sample_source -> In line lines ->
      is_accepted (parse_line fileName n line) = true.
Proof.
  destruct (main sample_source) as [out| | |] eqn:E;
    try (vm_compute in E; discriminate E).
  exists out. split; [reflexivity|].
  exact (invalid_line_blocks_output sample_source out E).
Defined.

(** X21: for a single input file the error report prints, for every
    invalid line, its number and its text with the surrounding blanks
    removed. *)
Theorem error_report_one_file fileName lines st :
  parse_files initialParseState [(fileName, lines)] = Some st ->
  exists report,
    print_errors (last_file_lines [(fileName, lines)]) (errors st)
      = Some report /\
    Forall2 (fun e r => exists n line,
               e = LInvalid n /\
               nth_error lines (Z.to_nat (n - 1)) = Some line /\
               parse_line fileName n line = Processed (LInvalid n) /\
               r = "    " ++ Py.str n ++ " " ++ Py.strip line)
            (errors st) report.
Proof.
  intros H. change (last_file_lines [(fileName, lines)])
    with (List.map Py.strip lines).
  assert (I : parsed_so_far [] initialParseState)
    by (split; [reflexivity | constructor]).
  simpl in H.
  destruct (parse_lines fileName initialParseState lines) as [st1|] eqn:P;
    [|discriminate].
  injection H as <-.
  destruct (parse_lines_located _ _ _ _ _ I P) as [_ E]. simpl in E.
  assert (F : forall e, In e (errors st1) -> exists n line,
                e = LInvalid n /\ 1 <= n /\
                nth_error lines (Z.to_nat (n - 1)) = Some line /\
                parse_line fileName n line = Processed (LInvalid n)).
  { intros e He. rewrite Forall_forall in E.
    destruct (E e He) as (n & f & line & -> & Hn & Hl & Hp).
    exists n, line. repeat split; try assumption.
    clear - P He Hp I Hl. 
    (* the file name is that of the only file *)
    revert Hp. unfold parse_line.
    destruct (Py.strip (Py.before_comment (Py.strip line))); [discriminate|].
    intros Hp. apply classify_invalid in Hp as [_ Hp].
    assert (C : forall f', classify (Py.split (String a s)) f' n
                           = Processed (LInvalid n) ->
                classify (Py.split (String a s)) fileName n
                = Processed (LInvalid n)).
    { intros f'. unfold classify.
      destruct (Py.split (String a s)) as [|w0 [|w1 [|w2 [|w3 r]]]];
        try (destruct (InitializeCommandTypeDictionary w0) as [[]|]);
        repeat match goal with
        | |- context [match ?x with _ => _ end] => destruct x
        end; intros X; try discriminate X; reflexivity. }
    apply (C f), Hp. }
  clear E P I.
  induction (errors st1) as [|e r IH].
  - exists []. split; [reflexivity | constructor].
  - destruct IH as (out & Pr & F2); [intros; apply F; right; assumption|].
    destruct (F e (or_introl eq_refl)) as (n & line & -> & Hn & Hl & Hp).
    exists (("    " ++ Py.str n ++ " " ++ Py.strip line) :: out).
    split.
    + cbn [print_errors]. unfold list_index.
      destruct (Z.ltb_spec (n - 1) 0); [lia|].
      rewrite nth_error_map, Hl. cbn [option_map]. rewrite Pr. reflexivity.
    + constructor; [|exact F2]. exists n, line. repeat split; assumption.
Qed.

Lemma error_report_one_file_witness :
  exists st report,
    parse_files initialParseState
      [("Main", [ "bogus"; "function Sys.init 0"; "add" ])] = Some st /\
    print_errors
      (last_file_lines [("Main", [ "bogus"; "function Sys.init 0"; "add" ])])
      (errors st) = Some report /\
    Forall2 (fun e r => exists n line,
               e = LInvalid n /\
               nth_error [ "bogus"; "function Sys.init 0"; "add" ]
                 (Z.to_nat (n - 1)) = Some line /\
               parse_line "Main" n line = Processed (LInvalid n) /\
               r = "    " ++ Py.str n ++ " " ++ Py.strip line)
            (errors st) report.
Proof.
  destruct (parse_files initialParseState
              [("Main", [ "bogus"; "function Sys.init 0"; "add" ])])
    as [st|] eqn:E; [|vm_compute in E; discriminate E].
  destruct (error_report_one_file "Main"
              [ "bogus"; "function Sys.init 0"; "add" ] st E)
    as (report & P & F).
  exists st, report. split; [reflexivity|]. split; [exact P | exact F].
Defined.

(** X22: the error report looks every line number up among the lines
    of the file read last, although the numbers count the lines of all
    files: when the last line of the last file is invalid and an earlier
    file has at least one line, the lookup is out of range and the report
    ends in an [IndexError]. *)
Theorem error_report_reads_last_file files fileName lines bad st :
  parse_files initialParseState (files ++ [(fileName, lines ++ [bad])%list])%list
  = Some st ->
  parse_line fileName 0 bad = Processed (LInvalid 0) ->
  all_lines files <> [] ->
  print_errors
    (last_file_lines (files ++ [(fileName, lines ++ [bad])%list])%list)
    (errors st) = None.
Proof.
  intros H Hbad Hne. rewrite last_file_lines_app.
  rewrite parse_files_app in H.
  destruct (parse_files initialParseState files) as [st1|] eqn:P1;
    [|discriminate].
  cbn [parse_files] in H. rewrite parse_lines_app in H.
  destruct (parse_lines fileName st1 lines) as [st2|] eqn:P2;
    [|discriminate].
  cbn [parse_lines] in H.
  destruct (parse_step fileName st2 bad) as [st3|] eqn:P3; [|discriminate].
  injection H as <-.
  assert (I : parsed_so_far [] initialParseState)
    by (split; [reflexivity | constructor]).
  pose proof (parse_files_located _ _ _ _ I P1) as I1.
  destruct (parse_lines_located _ _ _ _ _ I1 P2) as [L2 _].
  simpl in L2. rewrite List.length_app in L2.
  destruct (parse_step_errors _ _ _ _ P3) as [(_ & A & _) | (_ & _ & E)].
  - rewrite (parse_line_invalid_any _ 0 (lineNumber st2 + 1) _ Hbad) in A.
    discriminate.
  - apply (print_errors_out_of_range _ _ (lineNumber st2 + 1)).
    + rewrite E. apply in_or_app. right. left. reflexivity.
    + rewrite List.length_map, List.length_app. simpl.
      destruct (all_lines files); [congruence|]. simpl in L2. lia.
Qed.

Lemma error_report_reads_last_file_witness :
  exists st,
    parse_files initialParseState
      ([("A", [ "function Sys.init 0" ])] ++ [("B", [ "add" ] ++ [ "bogus" ])])%list
    = Some st /\
    print_errors
      (last_file_lines
         ([("A", [ "function Sys.init 0" ])]
          ++ [("B", [ "add" ] ++ [ "bogus" ])])%list)
      (errors st) = None.
Proof.
  destruct (parse_files initialParseState
              ([("A", [ "function Sys.init 0" ])]
               ++ [("B", [ "add" ] ++ [ "bogus" ])])%list)
    as [st|] eqn:E; [|vm_compute in E; discriminate E].
  exists st. split; [reflexivity|].
  apply (error_report_reads_last_file [("A", [ "function Sys.init 0" ])] "B"
           [ "add" ] "bogus" st E); [reflexivity | discriminate].
Defined.

(** X23: a [function] or [call] command whose third word is not an
    integer makes [int] raise; the error is not caught, so the run ends
    on that line, whatever else the input holds: nothing is reported and
    nothing is written. *)
Theorem unreadable_count_aborts_run files fileName lines keyword name w n :
  keyword = "function" \/ keyword = "call" ->
  is_word name = true -> is_word w = true -> Py.int w = None ->
  In (fileName, lines) files ->
  In (join_words [keyword; name; w]) lines ->
  parse_line fileName n (join_words [keyword; name; w]) = Raised /\
  main files = Crashed.
Proof.
  intros Hk Hname Hw Hint Hf Hl.
  assert (R : forall k, parse_line fileName k (join_words [keyword; name; w])
                        = Raised).
  { intros k. rewrite words_classified.
    - destruct Hk as [-> | ->]; unfold classify; simpl; rewrite Hint;
        reflexivity.
    - discriminate.
    - cbn [forallb]. rewrite Hname, Hw.
      destruct Hk as [-> | ->]; reflexivity. }
  split; [apply R|].
  unfold main. rewrite (parse_files_raised _ _ _ _ _ n Hf Hl (R n)).
  reflexivity.
Qed.

Lemma unreadable_count_aborts_run_witness :
  parse_line "Main" 2 (join_words ["function"; "Main.run"; "two"]) = Raised /\
  main [("Main", [ "function Sys.init 0"; "function Main.run two" ])] = Crashed.
Proof.
  apply (unreadable_count_aborts_run
           [("Main", [ "function Sys.init 0"; "function Main.run two" ])]
           "Main" [ "function Sys.init 0"; "function Main.run two" ]
           "function" "Main.run" "two" 2);
    [ left; reflexivity | reflexivity | reflexivity | reflexivity
    | left; reflexivity | right; left; reflexivity ].
Defined.


(* ------------------------------------------------------------------ *)
(** ** Paths *)

(** X24: for an input path that ends in [.vm] the output file is the
    same path with [.asm] in place of [.vm]. *)
Theorem output_path_of_file stem :
  Path.outputFilePath (stem ++ ".vm") = stem ++ ".asm".
Proof.
  unfold Path.outputFilePath.
  pose proof (len_nonneg stem) as Hn.
  assert (L : Path.len (stem ++ ".vm") = Path.len stem + 3)
    by (rewrite len_app; reflexivity).
  assert (C : Path.clamp (stem ++ ".vm") (-3) = Path.len stem).
  { unfold Path.clamp. rewrite L. change (-3 <? 0) with true. cbv iota. lia. }
  rewrite (slice_from_tail _ _ _ C). change (String.eqb ".vm" ".vm") with true.
  cbv iota. rewrite (slice_to_head _ _ _ C). reflexivity.
Qed.

(** X25: the name under which the static variables of a file are
    kept is the base name of the file: the text between the last slash of
    its path, if there is one, and the final [.vm]. *)
Theorem static_prefix_is_base_name dir name :
  no_slash name = true ->
  Path.fileName (dir ++ "/" ++ name ++ ".vm") = name /\
  Path.fileName (name ++ ".vm") = name.
Proof.
  intros Hs.
  pose proof (len_nonneg dir) as Hd. pose proof (len_nonneg name) as Hn.
  assert (V : no_slash (name ++ ".vm") = true)
    by (rewrite no_slash_app, Hs; reflexivity).
  split.
  - unfold Path.fileName, Path.rfind, Path.rfind_in.
    assert (L : Path.len (dir ++ "/" ++ name ++ ".vm")
                = Path.len dir + 1 + Path.len name + 3).
    { rewrite !len_app. change (Path.len "/") with 1.
      change (Path.len ".vm") with 3. lia. }
    rewrite !clamp_inside by lia.
    assert (R1 : Path.rfind_at "/" (dir ++ "/" ++ name ++ ".vm") 0 0
                   (Path.len (dir ++ "/" ++ name ++ ".vm")) = Path.len dir).
    { rewrite (rfind_last_slash dir (name ++ ".vm") 0); try lia.
      apply rfind_no_slash, V. }
    assert (R2 : Path.rfind_at ".vm" (dir ++ "/" ++ name ++ ".vm") 0 0
                   (Path.len (dir ++ "/" ++ name ++ ".vm"))
                 = Path.len dir + 1 + Path.len name).
    { rewrite L. rewrite !append_assoc3.
      rewrite (rfind_extension ((dir ++ "/") ++ name) 0);
        rewrite ?len_app; change (Path.len "/") with 1; lia. }
    rewrite R1, R2.
    rewrite (append_assoc3 dir "/").
    replace (Path.len dir + 1) with (Path.len (dir ++ "/"))
      by (rewrite len_app; reflexivity).
    apply slice_parts; rewrite <- append_assoc3; apply clamp_inside;
      rewrite L, len_app; change (Path.len "/") with 1; lia.
  - unfold Path.fileName, Path.rfind, Path.rfind_in.
    assert (L : Path.len (name ++ ".vm") = Path.len name + 3)
      by (rewrite len_app; reflexivity).
    rewrite !clamp_inside by lia.
    rewrite (rfind_no_slash _ 0 0 _ V).
    rewrite (rfind_extension name 0) by lia.
    change (-1 + 1) with 0. rewrite Z.add_0_l.
    apply (slice_to_head name ".vm"). apply clamp_inside. lia.
Qed.

Lemma static_prefix_is_base_name_witness :
  Path.fileName ("proj" ++ "/" ++ "Main" ++ ".vm") = "Main" /\
  Path.fileName ("Main" ++ ".vm") = "Main".
Proof. apply (static_prefix_is_base_name "proj" "Main"); reflexivity. Defined.

(** X26: for a directory given with a parent path, the output file
    lies in the directory and carries its name, whether or not the path
    ends in a slash. *)
Theorem output_path_of_directory parent d :
  d <> "" -> no_slash d = true ->
  String.eqb (Path.slice_from (parent ++ "/" ++ d) (-3)) ".vm" = false ->
  String.eqb (Path.slice_from (parent ++ "/" ++ d ++ "/") (-3)) ".vm" = false ->
  Path.outputFilePath (parent ++ "/" ++ d)
  = parent ++ "/" ++ d ++ "/" ++ d ++ ".asm" /\
  Path.outputFilePath (parent ++ "/" ++ d ++ "/")
  = parent ++ "/" ++ d ++ "/" ++ d ++ ".asm".
Proof.
  intros Hne Hs Hv1 Hv2.
  pose proof (len_nonneg parent) as Hp. pose proof (len_nonneg d) as Hd.
  assert (Hd1 : 1 <= Path.len d).
  { destruct d; [congruence|]. unfold Path.len. simpl String.length. lia. }
  split.
  - unfold Path.outputFilePath. rewrite Hv1.
    assert (L : Path.len (parent ++ "/" ++ d) = Path.len parent + 1 + Path.len d).
    { rewrite !len_app. change (Path.len "/") with 1. lia. }
    unfold Path.rfind_in. rewrite !clamp_inside by lia.
    assert (R : Path.rfind_at "/" (parent ++ "/" ++ d) 0 0
                  (Path.len (parent ++ "/" ++ d) - 1) = Path.len parent).
    { rewrite (rfind_last_slash parent d 0); try lia.
      apply rfind_no_slash, Hs. }
    rewrite R.
    rewrite (slice_from_tail parent ("/" ++ d) (Path.len parent))
      by (apply clamp_inside; lia).
    unfold Path.strip_slashes.
    change (Path.lstrip_slashes ("/" ++ d)) with (Path.lstrip_slashes d).
    assert (Ls : Path.lstrip_slashes d = d)
      by (rewrite <- (append_empty d); apply lstrip_slashes_word; assumption).
    rewrite Ls.
    rewrite (rstrip_slashes_word _ Hs).
    assert (Last : String.eqb (Path.slice_from (parent ++ "/" ++ d) (-1)) "/"
                   = false).
    { destruct (nonempty_last d Hne) as (d' & x & E).
      rewrite E in Hs |- *. rewrite !append_assoc3, slice_last.
      cbn [String.eqb]. rewrite (no_slash_last _ _ Hs). reflexivity. }
    rewrite Last. rewrite <- !append_assoc3. reflexivity.
  - unfold Path.outputFilePath. rewrite Hv2.
    assert (L : Path.len (parent ++ "/" ++ d ++ "/")
                = Path.len parent + 1 + Path.len d + 1).
    { rewrite !len_app. change (Path.len "/") with 1. lia. }
    unfold Path.rfind_in. rewrite !clamp_inside by lia.
    assert (R : Path.rfind_at "/" (parent ++ "/" ++ d ++ "/") 0 0
                  (Path.len (parent ++ "/" ++ d ++ "/") - 1) = Path.len parent).
    { rewrite (rfind_last_slash parent (d ++ "/") 0); try lia.
      apply rfind_trailing_slash; [exact Hs | lia]. }
    rewrite R.
    rewrite (slice_from_tail parent ("/" ++ d ++ "/") (Path.len parent))
      by (apply clamp_inside; lia).
    unfold Path.strip_slashes.
    change (Path.lstrip_slashes ("/" ++ d ++ "/"))
      with (Path.lstrip_slashes (d ++ "/")).
    rewrite (lstrip_slashes_word d "/" Hne Hs).
    rewrite rstrip_slashes_trailing, (rstrip_slashes_word _ Hs).
    rewrite !append_assoc3. rewrite slice_last.
    change (String.eqb "/" "/") with true. cbv iota.
    rewrite <- !append_assoc3. reflexivity.
Qed.

Lemma output_path_of_directory_witness :
  Path.outputFilePath ("a/b" ++ "/" ++ "proj")
  = "a/b" ++ "/" ++ "proj" ++ "/" ++ "proj" ++ ".asm" /\
  Path.outputFilePath ("a/b" ++ "/" ++ "proj" ++ "/")
  = "a/b" ++ "/" ++ "proj" ++ "/" ++ "proj" ++ ".asm".
Proof.
  apply (output_path_of_directory "a/b" "proj");
    [ discriminate | reflexivity | reflexivity | reflexivity ].
Defined.

(** X27: for a directory given by a bare name, without any slash,
    the search for the slash before the name fails and its result, -1,
    is used as a slice bound: the output file is named after the last
    character of the directory name only. *)
Theorem output_path_without_slash d x :
  no_slash (d ++ String x "") = true ->
  String.eqb (Path.slice_from (d ++ String x "") (-3)) ".vm" = false ->
  Path.outputFilePath (d ++ String x "")
  = d ++ String x "" ++ "/" ++ String x "" ++ ".asm".
Proof.
  intros Hs Hv. pose proof (len_nonneg d) as Hd.
  unfold Path.outputFilePath. rewrite Hv.
  assert (L : Path.len (d ++ String x "") = Path.len d + 1)
    by (rewrite len_app; reflexivity).
  unfold Path.rfind_in. rewrite !clamp_inside by lia.
  rewrite (rfind_no_slash _ 0 0 _ Hs).
  rewrite slice_last.
  pose proof (no_slash_last _ _ Hs) as Hx.
  unfold Path.strip_slashes. cbn [Path.lstrip_slashes]. rewrite Hx.
  cbn [Path.rstrip_slashes]. rewrite Hx.
  cbn [String.eqb]. rewrite Hx.
  rewrite <- !append_assoc3. reflexivity.
Qed.

Lemma output_path_without_slash_witness :
  Path.outputFilePath ("pro" ++ String "j" "")
  = "pro" ++ String "j" "" ++ "/" ++ String "j" "" ++ ".asm".
Proof. apply (output_path_without_slash "pro" "j"); reflexivity. Defined.
